(** * ShieldCoin: the consensus core and the peer broadcast, embedded in Rocq

    The development follows the Python sources module by module:

    - [Transaction]      src/blockchain/core/transaction.py
    - [Block]            src/blockchain/core/block.py
    - [TransactionPool]  src/blockchain/core/transaction_pool.py
    - [Blockchain]       src/blockchain/core/blockchain.py
    - [DHTNode]          src/blockchain/network/dht_node.py

    Conventions of the embedding.

    - Values are typed as the annotations of the Python code type them:
      [index] and [nonce] are [int] (here [Z]), hashes, addresses and
      signatures are [str] (here [string]), amounts and timestamps are
      [float] (here the kernel's binary64 [float]; the integer literal
      [1234567890] of the genesis block is the float of that value).
      A string is a sequence of 8-bit characters.  An [Optional[_]]
      parameter is an [option].
    - A dictionary read by [from_dict] is a record with one optional entry
      per key the code reads; the entry is [None] when the key is absent.
    - A Python exception is the [Raise] case of [result]; a method that
      catches everything it can raise has a plain return type.
    - [time.time()] is read from a [World]: a sequence of clock readings
      and the number of readings consumed so far.  Only the readings that
      become data (the default timestamp of a transaction or a block) are
      modelled; the readings that feed a log line are not, and neither is
      the log itself, except where a result keeps the reason of a
      rejection.
    - [json.dumps], SHA-256 and the RSA signature check are library code:
      they are the fields of the class [Library]; the RSA signing
      operation is the field of [Signer].  The constants of
      [blockchain/config.py] are the fields of [Config].
    - A request a peer handles is a record with one optional entry per
      key the handlers read, as for the dictionaries of [from_dict]; the
      chain [app.py] attaches to a node is an optional component of the
      peer. *)

From Stdlib Require Import ZArith List String Ascii Bool Lia.
From Stdlib Require Import Floats.PrimFloat Floats.FloatOps Floats.FloatAxioms.
From Stdlib Require Import Floats.SpecFloat Numbers.Cyclic.Int63.Uint63.
Import ListNotations.

Local Open Scope string_scope.
Local Open Scope Z_scope.

(* ================================================================== *)
(** * Python values, exceptions and the clock *)
(* ================================================================== *)

(** The JSON-serialisable Python values handed to [json.dumps]. *)
#[warnings="-register-all"]
Inductive json : Type :=
| JNull
| JBool (b : bool)
| JInt (z : Z)
| JFloat (f : float)
| JStr (s : string)
| JList (l : list json)
| JDict (kvs : list (string * json)).

(** Library code the sources call. *)
Class Library : Type := {
  (** [json.dumps(value, sort_keys=True)] *)
  json_dumps : json -> string;
  (** [hashlib.sha256(s.encode()).hexdigest()] *)
  sha256_hex : string -> string;
  (** [pkcs1_15.new(RSA.import_key(sender)).verify(digest, bytes.fromhex(sig))]
      as a boolean: [false] when the key does not parse, the signature is
      not hexadecimal or the check fails (every one of them is an
      exception that [Transaction.verify] turns into [False]). *)
  rsa_verify : string -> string -> string -> bool
}.

(** The constants imported from [blockchain/config.py]. *)
Class Config : Type := {
  INITIAL_DIFFICULTY : Z;
  MINING_REWARD : float;
  MAX_TRANSACTION_POOL_SIZE : Z
}.

(** The signing side of the RSA library, used by [Transaction.sign]. *)
Class Signer : Type := {
  (** an [RSA.RsaKey] holding a private key *)
  private_key : Type;
  (** [inl] of [pkcs1_15.new(private_key).sign(digest).hex()], or [inr] of the
      message of the exception the library raises *)
  rsa_sign : private_key -> string -> string + string
}.

Inductive exn : Type :=
| ValueError (msg : string)
| RuntimeError (msg : string)
| IndexError (msg : string)
| InvalidOperation.

Inductive result (A : Type) : Type :=
| Ok (a : A)
| Raise (e : exn).
Arguments Ok {A} a.
Arguments Raise {A} e.

Definition exn_message (e : exn) : string :=
  match e with
  | ValueError m | RuntimeError m | IndexError m => m
  | InvalidOperation => "[<class 'decimal.InvalidOperation'>]"
  end.

Record World : Type := mkWorld {
  clock : nat -> float;     (* the n-th reading of [time.time()] *)
  reads : nat               (* readings consumed so far *)
}.

(** Computations that may read the clock and may raise. *)
Definition M (A : Type) : Type := World -> result A * World.

Definition ret {A} (a : A) : M A := fun w => (Ok a, w).

Definition raise {A} (e : exn) : M A := fun w => (Raise e, w).

Definition bind {A B} (m : M A) (k : A -> M B) : M B :=
  fun w =>
    match m w with
    | (Ok a, w') => k a w'
    | (Raise e, w') => (Raise e, w')
    end.

(** [try: m  except <the exceptions h answers>: h e] *)
Definition try_except {A} (m : M A) (h : exn -> option (M A)) : M A :=
  fun w =>
    match m w with
    | (Ok a, w') => (Ok a, w')
    | (Raise e, w') =>
        match h e with
        | Some k => k w'
        | None => (Raise e, w')
        end
    end.

Definition lift {A} (r : result A) : M A := fun w => (r, w).

Definition time_time : M float :=
  fun w => (Ok (clock w (reads w)), mkWorld (clock w) (S (reads w))).

Declare Scope py_scope.
Delimit Scope py_scope with py.
Notation "x <- c1 ;; c2" := (bind c1 (fun x => c2))
  (at level 100, c1 at next level, right associativity) : py_scope.
Local Open Scope py_scope.

(** ** Truthiness and [or] *)

Definition truthy_str (s : string) : bool := negb (s =? "")%string.

Definition truthy_float (f : float) : bool := negb (PrimFloat.eqb f 0%float).

Definition truthy_opt {A} (truthy : A -> bool) (o : option A) : bool :=
  match o with
  | Some a => truthy a
  | None => false
  end.

(** [a or b] on optional strings *)
Definition or_str (a b : option string) : option string :=
  if truthy_opt truthy_str a then a else b.

(** [timestamp or time.time()] *)
Definition or_now (timestamp : option float) : M float :=
  match timestamp with
  | Some t => if truthy_float t then ret t else time_time
  | None => time_time
  end.

(** ['0' * n]: the empty string when [n <= 0] *)
Definition zeros (n : Z) : string :=
  fold_right (fun c s => String c s) EmptyString (repeat "0"%char (Z.to_nat n)).

Definition len (s : string) : Z := Z.of_nat (String.length s).

Definition in_str (s : string) (l : list string) : bool :=
  existsb (String.eqb s) l.

(* ================================================================== *)
(** * transaction.py *)
(* ================================================================== *)

Module Transaction.

(** [MAX_AMOUNT = 1000000000], [MIN_AMOUNT = decimal.Decimal('0.00000001')].
    The code compares [Decimal(str(amount))], the shortest decimal that
    reads back as the float [amount], with these bounds; rounding to the
    nearest float is monotone, so that comparison is the comparison of
    [amount] with the float nearest to the bound. *)
Definition MAX_AMOUNT : float := 1000000000%float.
Definition MIN_AMOUNT : float := 0x1.5798ee2308c3ap-27%float.

Record t : Type := mk {
  sender : string;
  recipient : string;
  amount : float;
  timestamp : float;
  signature : option string
}.

(** The dictionary [from_dict] reads and [to_dict] builds. *)
Record dict : Type := mkdict {
  k_sender : option string;
  k_from : option string;
  k_recipient : option string;
  k_to : option string;
  k_amount : option float;
  k_timestamp : option float;
  k_signature : option string
}.

Definition entry {A} (key : string) (inj : A -> json) (o : option A)
  : list (string * json) :=
  match o with
  | Some a => [(key, inj a)]
  | None => []
  end.

(** The dictionary as the Python value given to [json.dumps]. *)
Definition dict_json (d : dict) : json :=
  JDict (entry "sender" JStr (k_sender d) ++ entry "from" JStr (k_from d)
         ++ entry "recipient" JStr (k_recipient d) ++ entry "to" JStr (k_to d)
         ++ entry "amount" JFloat (k_amount d)
         ++ entry "timestamp" JFloat (k_timestamp d)
         ++ entry "signature" JStr (k_signature d)).

(** The amount checks of [__init__], inside its [try]. [Decimal('nan')]
    raises [InvalidOperation] at the first comparison. *)
Definition checked_amount (a : float) : result float :=
  if PrimFloat.is_nan a then Raise InvalidOperation
  else if PrimFloat.leb a 0%float then Raise (ValueError "Amount must be positive")
  else if PrimFloat.ltb a MIN_AMOUNT
       then Raise (ValueError "Amount is too small (minimum: 1E-8)")
  else if PrimFloat.ltb MAX_AMOUNT a
       then Raise (ValueError "Amount is too large (maximum: 1000000000)")
  else Ok a.

(** [Transaction.__init__] *)
Definition init (sender recipient : string) (amount : float)
    (timestamp : option float) (signature : option string) : M t :=
  if negb (truthy_str sender) then raise (ValueError "Sender must be a valid string")
  else if negb (truthy_str recipient)
       then raise (ValueError "Recipient must be a valid string")
  else
    match checked_amount amount with
    | Raise _ => raise (ValueError "Invalid amount format")
    | Ok a =>
        ts <- or_now timestamp ;;
        ret (mk sender recipient a ts signature)
    end.

(** [Transaction.to_dict] *)
Definition to_dict (tx : t) : dict :=
  mkdict (Some (sender tx)) None (Some (recipient tx)) None
         (Some (amount tx)) (Some (timestamp tx))
         (if truthy_opt truthy_str (signature tx) then signature tx else None).

(** [tx_dict.pop('signature', None)] *)
Definition pop_signature (d : dict) : dict :=
  mkdict (k_sender d) (k_from d) (k_recipient d) (k_to d)
         (k_amount d) (k_timestamp d) None.

(** [Transaction.from_dict] *)
Definition from_dict (data : dict) : M t :=
  let sender := or_str (k_sender data) (k_from data) in
  let recipient := or_str (k_recipient data) (k_to data) in
  match sender, recipient with
  | Some s, Some r =>
      if negb (truthy_str s) || negb (truthy_str r)
      then raise (ValueError "Transaction must have sender and recipient")
      else
        match k_amount data with
        | None => raise (ValueError "Transaction must have an amount")
        | Some amount =>
            try_except
              (if PrimFloat.is_nan amount then raise InvalidOperation
               else if PrimFloat.leb amount 0%float
                    then raise (ValueError "Amount must be positive")
               else init s r amount (k_timestamp data) (k_signature data))
              (fun e =>
                 match e with
                 | ValueError _ | InvalidOperation =>
                     Some (raise (ValueError ("Invalid transaction data: "
                                              ++ exn_message e)))
                 | _ => None
                 end)
        end
  | _, _ => raise (ValueError "Transaction must have sender and recipient")
  end.

(** [Transaction.__eq__] *)
Definition opt_str_eqb (a b : option string) : bool :=
  match a, b with
  | Some x, Some y => (x =? y)%string
  | None, None => true
  | _, _ => false
  end.

Definition eqb (a b : t) : bool :=
  (sender a =? sender b)%string && (recipient a =? recipient b)%string
  && PrimFloat.eqb (amount a) (amount b)
  && PrimFloat.eqb (timestamp a) (timestamp b)
  && opt_str_eqb (signature a) (signature b).

Section WithLibrary.
Context {L : Library}.

(** The digest both [sign] and [verify] compute: SHA-256 of the
    key-sorted JSON text of the dictionary without its signature. *)
Definition signing_hash (tx : t) : string :=
  sha256_hex (json_dumps (dict_json (pop_signature (to_dict tx)))).

(** [Transaction.verify] *)
Definition verify (tx : t) : bool :=
  if (sender tx =? "system")%string then true
  else
    match signature tx with
    | None => false
    | Some sig =>
        if negb (truthy_str sig) then false
        else
          match checked_amount (amount tx) with
          | Raise _ => false
          | Ok _ => rsa_verify (sender tx) (signing_hash tx) sig
          end
    end.

(** [Transaction.get_hash] *)
Definition get_hash (tx : t) : string :=
  sha256_hex (json_dumps (dict_json (to_dict tx))).

(** [Transaction.sign]: the transaction after the call.  A transaction
    from "system" is left as it is; otherwise the signature is replaced by
    the signature of the signing hash, and any exception of the library
    becomes a [ValueError]. *)
Definition sign {S : Signer} (tx : t) (key : private_key) : result t :=
  if (sender tx =? "system")%string then Ok tx
  else
    match rsa_sign key (signing_hash tx) with
    | inl sig => Ok (mk (sender tx) (recipient tx) (amount tx) (timestamp tx) (Some sig))
    | inr msg => Raise (ValueError ("Failed to sign transaction: " ++ msg))
    end.

End WithLibrary.

End Transaction.

(* ================================================================== *)
(** * block.py *)
(* ================================================================== *)

Module Block.

Record t : Type := mk {
  index : Z;
  transactions : list Transaction.t;
  previous_hash : string;
  timestamp : float;
  nonce : Z;
  hash : string
}.

(** The dictionary [from_dict] reads and [to_dict] builds.  An entry is
    [None] when the key is absent; ['timestamp'] and ['hash'] feed
    [Optional] parameters, so their value may itself be [None]. *)
Record dict : Type := mkdict {
  k_index : option Z;
  k_timestamp : option (option float);
  k_previous_hash : option string;
  k_hash : option (option string);
  k_nonce : option Z;
  k_transactions : option (list Transaction.dict)
}.

Definition set_nonce (b : t) (n : Z) : t :=
  mk (index b) (transactions b) (previous_hash b) (timestamp b) n (hash b).

Definition set_hash (b : t) (h : string) : t :=
  mk (index b) (transactions b) (previous_hash b) (timestamp b) (nonce b) h.

(** [max_nonce = 2**32] *)
Definition max_nonce : Z := 2 ^ 32.

Definition mining_exhausted : exn :=
  RuntimeError "Failed to mine block after 4294967296 attempts".

(** [Block.to_dict] *)
Definition to_dict (b : t) : dict :=
  mkdict (Some (index b)) (Some (Some (timestamp b))) (Some (previous_hash b))
         (Some (Some (hash b))) (Some (nonce b))
         (Some (map Transaction.to_dict (transactions b))).

(** The loop of [from_dict] over [data['transactions']]: an entry whose
    [Transaction.from_dict] raises [ValueError] is skipped. *)
Fixpoint transactions_from (l : list Transaction.dict) : M (list Transaction.t) :=
  match l with
  | [] => ret []
  | tx_data :: rest =>
      here <- try_except
                (tx <- Transaction.from_dict tx_data ;; ret [tx])
                (fun e => match e with
                          | ValueError _ => Some (ret [])
                          | _ => None
                          end) ;;
      after <- transactions_from rest ;;
      ret (here ++ after)%list
  end.

Section WithLibrary.
Context {L : Library}.

(** [Block.calculate_hash]; the stored [hash] is not part of the data. *)
Definition calculate_hash (b : t) : string :=
  sha256_hex
    (json_dumps
       (JDict [("index", JInt (index b));
               ("timestamp", JFloat (timestamp b));
               ("previous_hash", JStr (previous_hash b));
               ("nonce", JInt (nonce b));
               ("transactions",
                JList (map (fun tx => Transaction.dict_json (Transaction.to_dict tx))
                           (transactions b)))])).

(** [Block.__init__]: the fields are assigned first (the clock is read
    and the hash computed), the arguments are validated afterwards. *)
Definition init (index : Z) (transactions : list Transaction.t)
    (previous_hash : string) (timestamp : option float) (nonce : Z)
    (hash : option string) : M t :=
  ts <- or_now timestamp ;;
  let self := mk index transactions previous_hash ts nonce "" in
  let self :=
    set_hash self
      (if truthy_opt truthy_str hash
       then match hash with Some h => h | None => "" end
       else calculate_hash self) in
  if index <? 0
  then raise (ValueError "Block index must be a non-negative integer")
  else if negb (len previous_hash =? 64)
  then raise (ValueError "Previous hash must be a 64-character string")
  else ret self.

(** The [for i in range(max_nonce)] loop of [mine_block], from [i] on,
    with [fuel] iterations left. *)
Fixpoint mine_loop (fuel : nat) (i : Z) (target : string) (self : t) : result t :=
  match fuel with
  | O => Raise mining_exhausted
  | S fuel' =>
      let self := set_nonce self i in
      let self := set_hash self (calculate_hash self) in
      if String.prefix target (hash self) then Ok self
      else mine_loop fuel' (i + 1) target self
  end.

(** [Block.mine_block]: the block it returns is the receiver after the
    in-place updates of [nonce] and [hash].  When it raises, the receiver
    is left at the last nonce tried; every caller drops it then. *)
Definition mine_block (self : t) (difficulty : Z) : result t :=
  mine_loop (Z.to_nat max_nonce) 0 (zeros difficulty) self.

(** [Block.is_valid] *)
Definition is_valid (self : t) (difficulty : Z) : bool :=
  if negb (calculate_hash self =? hash self)%string then false
  else if negb (String.prefix (zeros difficulty) (hash self)) then false
  else forallb Transaction.verify (transactions self).

(** [Block.from_dict] *)
Definition from_dict (data : dict) : M t :=
  match k_index data with
  | None => raise (ValueError "Missing required field: index")
  | Some index =>
  match k_timestamp data with
  | None => raise (ValueError "Missing required field: timestamp")
  | Some timestamp =>
  match k_previous_hash data with
  | None => raise (ValueError "Missing required field: previous_hash")
  | Some previous_hash =>
  match k_hash data with
  | None => raise (ValueError "Missing required field: hash")
  | Some hash =>
  match k_nonce data with
  | None => raise (ValueError "Missing required field: nonce")
  | Some nonce =>
  match k_transactions data with
  | None => raise (ValueError "Missing required field: transactions")
  | Some tx_dicts =>
      transactions <- transactions_from tx_dicts ;;
      init index transactions previous_hash timestamp nonce hash
  end end end end end end.

End WithLibrary.

End Block.

(* ================================================================== *)
(** * transaction_pool.py *)
(* ================================================================== *)

Module TransactionPool.

Record t : Type := mk {
  transactions : list Transaction.t;
  max_size : Z
}.

(** [TransactionPool.__init__] *)
Definition init (max_size : Z) : t := mk [] max_size.

(** What [add_transaction] prints before it returns. *)
Inductive outcome : Type :=
| Added
| PoolFull
| InvalidData
| VerificationFailed
| DuplicateRejected.

Definition accepted (o : outcome) : bool :=
  match o with
  | Added => true
  | _ => false
  end.

(** The test of the duplicate loop of [add_transaction]. *)
Definition same_transfer (tx transaction : Transaction.t) : bool :=
  (Transaction.sender tx =? Transaction.sender transaction)%string
  && (Transaction.recipient tx =? Transaction.recipient transaction)%string
  && PrimFloat.eqb (Transaction.amount tx) (Transaction.amount transaction)
  && PrimFloat.eqb (Transaction.timestamp tx) (Transaction.timestamp transaction).

(** [TransactionPool.get_transactions]: a copy of the list. *)
Definition get_transactions (self : t) : list Transaction.t := transactions self.

(** [{tx.signature for tx in transactions if tx.signature}] *)
Definition signatures_of (txs : list Transaction.t) : list string :=
  flat_map (fun tx => match Transaction.signature tx with
                      | Some s => if truthy_str s then [s] else []
                      | None => []
                      end) txs.

(** [tx.signature not in tx_signatures] *)
Definition kept (tx_signatures : list string) (tx : Transaction.t) : bool :=
  match Transaction.signature tx with
  | Some s => negb (in_str s tx_signatures)
  | None => true
  end.

(** [TransactionPool.remove_transactions] *)
Definition remove_transactions (self : t) (txs : list Transaction.t) : t :=
  let tx_signatures := signatures_of txs in
  mk (filter (kept tx_signatures) (transactions self)) (max_size self).

(** [TransactionPool.clear_transactions] *)
Definition clear_transactions (self : t) : t := mk [] (max_size self).

Section WithLibrary.
Context {L : Library}.

(** [TransactionPool.add_transaction], with the reason it prints. *)
Definition add_transaction_log (self : t)
    (transaction : Transaction.dict + Transaction.t) (w : World)
  : outcome * t * World :=
  if max_size self <=? Z.of_nat (List.length (transactions self))
  then (PoolFull, self, w)
  else
    let '(converted, w') :=
      match transaction with
      | inl data => Transaction.from_dict data w
      | inr tx => (Ok tx, w)
      end in
    match converted with
    | Raise _ => (InvalidData, self, w')
    | Ok tx =>
        if negb (Transaction.verify tx) then (VerificationFailed, self, w')
        else if existsb (fun old => same_transfer old tx) (transactions self)
        then (DuplicateRejected, self, w')
        else (Added, mk (transactions self ++ [tx])%list (max_size self), w')
    end.

Definition add_transaction (self : t)
    (transaction : Transaction.dict + Transaction.t) (w : World)
  : bool * t * World :=
  let '(o, self', w') := add_transaction_log self transaction w in
  (accepted o, self', w').

(** The dictionary of [TransactionPool.to_dict] and [from_dict]. *)
Record dict : Type := mkdict {
  k_transactions : option (list Transaction.dict)
}.

(** [TransactionPool.to_dict] *)
Definition to_dict (self : t) : dict :=
  mkdict (Some (map Transaction.to_dict (transactions self))).

(** The loop of [from_dict]: an entry that does not deserialise is
    skipped, and so is one [add_transaction] turns down. *)
Fixpoint add_all (pool : t) (l : list Transaction.dict) (w : World) : t * World :=
  match l with
  | [] => (pool, w)
  | tx_data :: rest =>
      match Transaction.from_dict tx_data w with
      | (Ok tx, w1) =>
          let '(_, pool', w2) := add_transaction pool (inr tx) w1 in
          add_all pool' rest w2
      | (Raise _, w1) => add_all pool rest w1
      end
  end.

(** [TransactionPool.from_dict] *)
Definition from_dict {C : Config} (data : dict) (w : World) : t * World :=
  let pool := init MAX_TRANSACTION_POOL_SIZE in
  match k_transactions data with
  | Some l => add_all pool l w
  | None => (pool, w)
  end.

End WithLibrary.

End TransactionPool.

(* ================================================================== *)
(** * blockchain.py *)
(* ================================================================== *)

Module Blockchain.

(** The attributes [block_time] and [difficulty_adjustment_interval] are
    set to 10 by [__init__] and assigned nowhere else. *)
Definition block_time : Z := 10.
Definition difficulty_adjustment_interval : Z := 10.

Record t : Type := mk {
  difficulty : Z;
  mining_reward : float;
  transaction_pool : TransactionPool.t;
  chain : list Block.t
}.

Definition set_difficulty (self : t) (d : Z) : t :=
  mk d (mining_reward self) (transaction_pool self) (chain self).

Definition set_transaction_pool (self : t) (p : TransactionPool.t) : t :=
  mk (difficulty self) (mining_reward self) p (chain self).

Definition set_chain (self : t) (c : list Block.t) : t :=
  mk (difficulty self) (mining_reward self) (transaction_pool self) c.

Definition chain_len (self : t) : Z := Z.of_nat (List.length (chain self)).

Definition float_of_int (z : Z) : float := PrimFloat.of_uint63 (Uint63.of_Z z).

(** [Blockchain.get_latest_block]: [self.chain[-1]] *)
Definition get_latest_block (self : t) : result Block.t :=
  match rev (chain self) with
  | latest :: _ => Ok latest
  | [] => Raise (IndexError "list index out of range")
  end.

(** [Blockchain.adjust_difficulty] *)
Definition adjust_difficulty (self : t) : t :=
  if negb (chain_len self mod difficulty_adjustment_interval =? 0) then self
  else if chain_len self <=? difficulty_adjustment_interval then self
  else
    match nth_error (chain self)
                    (Z.to_nat (chain_len self - difficulty_adjustment_interval)),
          get_latest_block self with
    | Some prev_adjustment_block, Ok latest =>
        let time_expected := block_time * difficulty_adjustment_interval in
        let time_taken :=
          PrimFloat.sub (Block.timestamp latest)
                        (Block.timestamp prev_adjustment_block) in
        if PrimFloat.ltb time_taken
                         (PrimFloat.div (float_of_int time_expected) 2%float)
        then set_difficulty self (difficulty self + 1)
        else if PrimFloat.ltb (float_of_int (time_expected * 2)) time_taken
        then (if 1 <? difficulty self
              then set_difficulty self (difficulty self - 1)
              else self)
        else self
    | _, _ => self     (* not reached: the chain has more than 10 blocks *)
    end.

(** The duplicate check of [replace_chain]: [block_hashes] is the set of
    the hashes seen so far. *)
Fixpoint has_duplicate_hash (block_hashes : list string) (new_blocks : list Block.t)
  : bool :=
  match new_blocks with
  | [] => false
  | block :: rest =>
      if in_str (Block.hash block) block_hashes then true
      else has_duplicate_hash (Block.hash block :: block_hashes) rest
  end.

Section WithLibrary.
Context {L : Library}.

(** [[Block.from_dict(block_data) for block_data in new_chain]] *)
Fixpoint blocks_from (new_chain : list Block.dict) : M (list Block.t) :=
  match new_chain with
  | [] => ret []
  | block_data :: rest =>
      block <- Block.from_dict block_data ;;
      blocks <- blocks_from rest ;;
      ret (block :: blocks)
  end.

(** [Blockchain._create_genesis_block].  [random.seed(seed)] seeds a
    generator nothing reads. *)
Definition _create_genesis_block (self : t) (seed : option string) : M (Block.t * t) :=
  match chain self with
  | first :: _ => ret (first, self)
  | [] =>
      genesis_block <- Block.init 0 [] (zeros 64) (Some 1234567890%float) 0 None ;;
      genesis_block <- lift (Block.mine_block genesis_block (difficulty self)) ;;
      ret (genesis_block, set_chain self (chain self ++ [genesis_block])%list)
  end.

(** [Blockchain.__init__] *)
Definition init {C : Config} (difficulty : Z) : M t :=
  let self := mk difficulty MINING_REWARD
                 (TransactionPool.init MAX_TRANSACTION_POOL_SIZE) [] in
  created <- _create_genesis_block self None ;;
  ret (snd created).

(** [Blockchain.add_transaction] *)
Definition add_transaction (self : t)
    (transaction : Transaction.dict + Transaction.t) (w : World)
  : bool * t * World :=
  let '(r, pool, w') :=
    TransactionPool.add_transaction (transaction_pool self) transaction w in
  (r, set_transaction_pool self pool, w').

(** [Blockchain._is_valid_block] *)
Definition _is_valid_block (self : t) (block : Block.t) : result bool :=
  if negb (Block.index block =? chain_len self) then Ok false
  else
    match get_latest_block self with
    | Raise e => Raise e
    | Ok latest =>
        if negb (Block.previous_hash block =? Block.hash latest)%string then Ok false
        else if negb (Block.is_valid block (difficulty self)) then Ok false
        else Ok true
    end.

(** The loop of [_is_valid_chain]: [current] is [chain[i]] and
    [previous] is [chain[i-1]]. *)
Fixpoint valid_from (self : t) (i : Z) (previous : Block.t) (rest : list Block.t)
  : bool :=
  match rest with
  | [] => true
  | current :: rest' =>
      if negb (Block.index current =? i) then false
      else if negb (Block.previous_hash current =? Block.hash previous)%string
      then false
      else if negb (Block.is_valid current (difficulty self)) then false
      else valid_from self (i + 1) current rest'
  end.

(** [Blockchain._is_valid_chain] *)
Definition _is_valid_chain (self : t) (chain : list Block.t) : result bool :=
  match chain with
  | [] => Raise (IndexError "list index out of range")
  | first :: rest =>
      if negb (Block.index first =? 0)
         || negb (Block.previous_hash first =? zeros 64)%string
      then Ok false
      else Ok (valid_from self 1 first rest)
  end.

(** [Blockchain.add_block] *)
Definition add_block (self : t) (block : Block.t) : result (bool * t) :=
  if existsb (fun existing_block =>
                (Block.hash existing_block =? Block.hash block)%string)
             (chain self)
  then Ok (false, self)
  else
    match _is_valid_block self block with
    | Raise e => Raise e
    | Ok false => Ok (false, self)
    | Ok true =>
        let self := set_chain self (chain self ++ [block])%list in
        let self :=
          set_transaction_pool self
            (TransactionPool.remove_transactions (transaction_pool self)
                                                 (Block.transactions block)) in
        let self := adjust_difficulty self in
        Ok (true, self)
    end.

(** [Blockchain.mine_pending_transactions] *)
Definition mine_pending_transactions (self : t) (miner_address : string)
  : M (option Block.t * t) :=
  let pending := TransactionPool.transactions (transaction_pool self) in
  if match pending with [] => true | _ => false end
     && negb (miner_address =? "system")%string
  then ret (None, self)
  else
    reward <- (if negb (miner_address =? "system")%string
               then reward_tx <- Transaction.init "system" miner_address
                                   (mining_reward self) None None ;;
                    ret [reward_tx]
               else ret []) ;;
    let transactions :=
      (reward ++ TransactionPool.get_transactions (transaction_pool self))%list in
    latest <- lift (get_latest_block self) ;;
    new_block <- Block.init (chain_len self) transactions (Block.hash latest)
                            None 0 None ;;
    new_block <- lift (Block.mine_block new_block (difficulty self)) ;;
    added <- lift (add_block self new_block) ;;
    let '(result, self) := added in
    if result
    then ret (Some new_block,
              set_transaction_pool self
                (TransactionPool.clear_transactions (transaction_pool self)))
    else ret (None, self).

(** [Blockchain.replace_chain] *)
Definition replace_chain (self : t) (new_chain : list Block.dict)
  : M (bool * t) :=
  match new_chain with
  | [] => ret (false, self)
  | _ :: _ =>
      converted <- try_except
                     (new_blocks <- blocks_from new_chain ;; ret (Some new_blocks))
                     (fun _ => Some (ret None)) ;;
      match converted with
      | None => ret (false, self)
      | Some new_blocks =>
          if has_duplicate_hash [] new_blocks then ret (false, self)
          else
            valid <- lift (_is_valid_chain self new_blocks) ;;
            if negb valid then ret (false, self)
            else if Z.of_nat (List.length new_blocks) <=? chain_len self
            then ret (false, self)
            else ret (true, set_chain self new_blocks)
      end
  end.

(** The dictionary of [Blockchain.to_dict] and [from_dict]. *)
Record dict : Type := mkdict {
  k_chain : option (list Block.dict);
  k_difficulty : option Z;
  k_mining_reward : option float;
  k_transaction_pool : option TransactionPool.dict
}.

(** [Blockchain.to_dict] *)
Definition to_dict (self : t) : dict :=
  mkdict (Some (map Block.to_dict (chain self))) (Some (difficulty self))
         (Some (mining_reward self))
         (Some (TransactionPool.to_dict (transaction_pool self))).

Definition set_mining_reward (self : t) (r : float) : t :=
  mk (difficulty self) r (transaction_pool self) (chain self).

(** [Blockchain.from_dict]: a node is constructed (its genesis block is
    mined), its chain is emptied and refilled from ['chain'], and the
    reward and the pool are taken from the dictionary when present. *)
Definition from_dict {C : Config} (data : dict) : M t :=
  blockchain <- init (match k_difficulty data with
                      | Some d => d
                      | None => INITIAL_DIFFICULTY
                      end) ;;
  let blockchain := set_chain blockchain [] in
  blocks <- blocks_from (match k_chain data with Some l => l | None => [] end) ;;
  let blockchain := set_chain blockchain (chain blockchain ++ blocks)%list in
  let blockchain :=
    match k_mining_reward data with
    | Some r => set_mining_reward blockchain r
    | None => blockchain
    end in
  match k_transaction_pool data with
  | Some pool_data =>
      fun w => let '(pool, w') := TransactionPool.from_dict pool_data w in
               (Ok (set_transaction_pool blockchain pool), w')
  | None => ret blockchain
  end.

(** [Blockchain.add_block_from_dict] *)
Definition add_block_from_dict (self : t) (block_data : Block.dict) (w : World)
  : bool * t * World :=
  match Block.from_dict block_data w with
  | (Ok block, w') =>
      match add_block self block with
      | Ok (r, self') => (r, self', w')
      | Raise _ => (false, self, w')
      end
  | (Raise _, w') => (false, self, w')
  end.

(** The body of the loops of [get_balance], for one transaction. *)
Definition balance_step (address : string) (balance : float) (tx : Transaction.t)
  : float :=
  let balance :=
    if (Transaction.sender tx =? address)%string
    then PrimFloat.sub balance (Transaction.amount tx) else balance in
  if (Transaction.recipient tx =? address)%string
  then PrimFloat.add balance (Transaction.amount tx) else balance.

(** [Blockchain.get_balance] *)
Definition get_balance (self : t) (address : string) : float :=
  fold_left (fun balance block =>
               fold_left (balance_step address) (Block.transactions block) balance)
            (chain self) 0%float.

End WithLibrary.

End Blockchain.

(* ================================================================== *)
(** * dht_node.py *)
(* ================================================================== *)

Module DHTNode.

Definition address : Type := (string * Z)%type.

(** How one exchange on a fresh socket ends: [connect], [sendall] of
    [json.dumps(message)], one [recv]. *)
Inductive exchange_result : Type :=
| SocketTimeout                (* socket.timeout *)
| ConnectionRefused            (* ConnectionRefusedError *)
| OtherError                   (* any other exception *)
| Received (data : string).    (* the bytes of [recv]; empty when the peer closed *)

(** The network: a state [net] and what it answers to an exchange. *)
Class Network : Type := {
  net : Type;
  exchange : net -> address -> json -> exchange_result * net;
  (** [json.loads(data.decode())], [None] when it raises *)
  json_loads : string -> option json
}.

Record t : Type := mk {
  host : string;
  port : Z;
  id : string;
  routing_table : list (string * address)     (* node_id -> (host, port) *)
}.

(** [dict.get(key)] *)
Fixpoint dict_get (key : string) (kvs : list (string * json)) : option json :=
  match kvs with
  | [] => None
  | (k, v) :: rest => if (k =? key)%string then Some v else dict_get key rest
  end.

(** [self.routing_table.pop(node_id, None)] *)
Definition pop (node_id : string) (self : t) : t :=
  mk (host self) (port self) (id self)
     (filter (fun entry => negb (fst entry =? node_id)%string) (routing_table self)).

(** [response and response.get('type') == 'ack'] *)
Definition acknowledged (response : option (list (string * json))) : bool :=
  match response with
  | None => false
  | Some [] => false                 (* an empty dict is falsy *)
  | Some kvs =>
      match dict_get "type" kvs with
      | Some (JStr s) => (s =? "ack")%string
      | _ => false
      end
  end.

Definition block_json (d : Block.dict) : json :=
  JDict (Transaction.entry "index" JInt (Block.k_index d)
         ++ Transaction.entry "timestamp"
              (fun o => match o with Some f => JFloat f | None => JNull end)
              (Block.k_timestamp d)
         ++ Transaction.entry "previous_hash" JStr (Block.k_previous_hash d)
         ++ Transaction.entry "hash"
              (fun o => match o with Some s => JStr s | None => JNull end)
              (Block.k_hash d)
         ++ Transaction.entry "nonce" JInt (Block.k_nonce d)
         ++ Transaction.entry "transactions"
              (fun l => JList (map Transaction.dict_json l))
              (Block.k_transactions d))%list.

Section WithNetwork.
Context {N : Network}.

(** [DHTNode._send_message_with_response]: the whole body is inside a
    [try] whose handlers return [None], so the call never raises. *)
Definition _send_message_with_response (addr : address) (message : json) (n : net)
  : result (option (list (string * json))) * net :=
  match exchange n addr message with
  | (Received data, n') =>
      if truthy_str data
      then match json_loads data with
           | Some (JDict response) => (Ok (Some response), n')
           | Some _ => (Ok None, n')  (* [response.get] raises: except Exception *)
           | None => (Ok None, n')    (* [json.loads] raises: except Exception *)
           end
      else (Ok None, n')
  | (SocketTimeout, n') => (Ok None, n')
  | (ConnectionRefused, n') => (Ok None, n')
  | (OtherError, n') => (Ok None, n')
  end.

(** The loop of [broadcast_block] over [list(self.routing_table.items())]. *)
Fixpoint broadcast_loop (self : t) (message : json)
    (items : list (string * address)) (success_count : Z) (n : net)
  : Z * t * net :=
  match items with
  | [] => (success_count, self, n)
  | (node_id, addr) :: rest =>
      if negb (node_id =? id self)%string
      then
        match _send_message_with_response addr message n with
        | (Ok response, n') =>
            if acknowledged response
            then broadcast_loop self message rest (success_count + 1) n'
            else broadcast_loop self message rest success_count n'
        | (Raise _, n') =>
            (* except Exception: remove failed node from routing table *)
            broadcast_loop (pop node_id self) message rest success_count n'
        end
      else broadcast_loop self message rest success_count n
  end.

(** [DHTNode.broadcast_block] *)
Definition broadcast_block (self : t) (block : Block.t) (n : net) : Z * t * net :=
  let message := JDict [("type", JStr "new_block");
                        ("block", block_json (Block.to_dict block))] in
  broadcast_loop self message (routing_table self) 0 n.

(** [DHTNode.broadcast_transaction]: the loop is that of
    [broadcast_block], with a [new_transaction] message. *)
Definition broadcast_transaction (self : t) (transaction : Transaction.t) (n : net)
  : Z * t * net :=
  let message := JDict [("type", JStr "new_transaction");
                        ("transaction",
                         Transaction.dict_json (Transaction.to_dict transaction))] in
  broadcast_loop self message (routing_table self) 0 n.

End WithNetwork.

(** ** The request handlers *)

(** A node with the chain [app.py] attaches to it ([hasattr(self,
    'blockchain')] is [False] while none is attached). *)
Record peer : Type := mkpeer {
  node : t;
  blockchain : option Blockchain.t
}.

(** A request, with the entries the handlers read. *)
Record message : Type := mkmessage {
  m_type : option string;
  m_node_id : option string;
  m_host : option string;
  m_port : option Z;
  m_block : option Block.dict;
  m_transaction : option Transaction.dict
}.

Definition pool_json (d : TransactionPool.dict) : json :=
  JDict (Transaction.entry "transactions"
           (fun l => JList (map Transaction.dict_json l))
           (TransactionPool.k_transactions d)).

(** The dictionary of [Blockchain.to_dict] as a Python value. *)
Definition blockchain_json (d : Blockchain.dict) : json :=
  JDict (Transaction.entry "chain" (fun l => JList (map block_json l))
                           (Blockchain.k_chain d)
         ++ Transaction.entry "difficulty" JInt (Blockchain.k_difficulty d)
         ++ Transaction.entry "mining_reward" JFloat (Blockchain.k_mining_reward d)
         ++ Transaction.entry "transaction_pool" pool_json
                              (Blockchain.k_transaction_pool d))%list.

(** [self.routing_table[node_id] = (host, port)]: the value of an
    existing key is replaced where it stands, a new key goes last. *)
Fixpoint table_set (node_id : string) (addr : address)
    (table : list (string * address)) : list (string * address) :=
  match table with
  | [] => [(node_id, addr)]
  | (k, v) :: rest =>
      if (k =? node_id)%string then (k, addr) :: rest
      else (k, v) :: table_set node_id addr rest
  end.

(** [self.routing_table.get(node_id)] *)
Fixpoint table_get (node_id : string) (table : list (string * address))
  : option address :=
  match table with
  | [] => None
  | (k, v) :: rest => if (k =? node_id)%string then Some v else table_get node_id rest
  end.

Definition set_routing_table (self : t) (table : list (string * address)) : t :=
  mk (host self) (port self) (id self) table.

(** Truthiness of the dictionary under ['block']: a dictionary with none
    of the keys [Block.from_dict] requires is either empty, and skipped,
    or fails [from_dict] on the missing index; the node is left as it was
    in both cases, and the model takes the first. *)
Definition truthy_block (d : Block.dict) : bool :=
  match Block.k_index d, Block.k_timestamp d, Block.k_previous_hash d,
        Block.k_hash d, Block.k_nonce d, Block.k_transactions d with
  | None, None, None, None, None, None => false
  | _, _, _, _, _, _ => true
  end.

(** [DHTNode._handle_join] *)
Definition _handle_join (self : peer) (message : message) : json * peer :=
  match m_node_id message, m_host message, m_port message with
  | Some node_id, Some host, Some port =>
      if truthy_str node_id && truthy_str host && negb (port =? 0)
      then
        let self :=
          mkpeer (set_routing_table (node self)
                    (table_set node_id (host, port) (routing_table (node self))))
                 (blockchain self) in
        match blockchain self with
        | Some chain =>
            (JDict [("type", JStr "join_ack");
                    ("chain", blockchain_json (Blockchain.to_dict chain))], self)
        | None =>
            (JDict [("type", JStr "join_ack");
                    ("error", JStr "No blockchain available")], self)
        end
      else (JDict [("type", JStr "error"); ("error", JStr "Invalid join request")],
            self)
  | _, _, _ =>
      (JDict [("type", JStr "error"); ("error", JStr "Invalid join request")], self)
  end.

(** [DHTNode._handle_get_chain] *)
Definition _handle_get_chain (self : peer) : json :=
  match blockchain self with
  | Some chain =>
      JDict [("type", JStr "chain_response");
             ("chain", blockchain_json (Blockchain.to_dict chain))]
  | None => JDict [("type", JStr "error"); ("error", JStr "No blockchain available")]
  end.

Section WithLibrary.
Context {L : Library}.

(** [DHTNode._handle_new_block] *)
Definition _handle_new_block (self : peer) (message : message) (w : World)
  : peer * World :=
  match blockchain self, m_block message with
  | Some chain, Some block =>
      if truthy_block block
      then let '(_, chain', w') := Blockchain.add_block_from_dict chain block w in
           (mkpeer (node self) (Some chain'), w')
      else (self, w)
  | _, _ => (self, w)
  end.

(** [DHTNode._handle_new_transaction]: the handler calls
    [self.blockchain.add_transaction_from_dict], a method [Blockchain]
    does not have; the [AttributeError] is caught by the handler's
    [except Exception], so no path changes the node. *)
Definition _handle_new_transaction (self : peer) (message : message) : peer :=
  match blockchain self, m_transaction message with
  | Some chain, Some transaction => self       (* AttributeError, caught *)
  | _, _ => self
  end.

(** [msg_type == name], for [msg_type = message.get('type')] *)
Definition type_is (message : message) (name : string) : bool :=
  match m_type message with
  | Some msg_type => (msg_type =? name)%string
  | None => false
  end.

(** [DHTNode._handle_message]: every handler catches what it raises, so
    the [except] of the dispatcher is never entered. *)
Definition _handle_message (self : peer) (message : message) (w : World)
  : json * peer * World :=
  if type_is message "join"
  then let '(response, self') := _handle_join self message in
       (response, self', w)
  else if type_is message "get_chain"
  then (_handle_get_chain self, self, w)
  else if type_is message "new_block"
  then let '(self', w') := _handle_new_block self message w in
       (JDict [("type", JStr "ack")], self', w')
  else if type_is message "new_transaction"
  then (JDict [("type", JStr "ack")], _handle_new_transaction self message, w)
  else (JDict [("type", JStr "error"); ("error", JStr "Unknown message type")],
        self, w).

End WithLibrary.

End DHTNode.

(* ================================================================== *)
(** * A small executable environment

    Stand-ins for the library functions, a configuration, a clock and a
    network, on which the model runs on concrete data.  The general
    theorems below hold for every [Library], [Config] and [Network]. *)
(* ================================================================== *)

Module Sample.

Fixpoint print_pos_fuel (fuel : nat) (n : Z) (acc : string) : string :=
  match fuel with
  | O => acc
  | S fuel' =>
      let digit := ascii_of_nat (48 + Z.to_nat (n mod 10)) in
      if n <? 10 then String digit acc
      else print_pos_fuel fuel' (n / 10) (String digit acc)
  end.

Definition print_Z (z : Z) : string :=
  if z <? 0 then "-" ++ print_pos_fuel 100 (- z) "" else print_pos_fuel 100 z "".

Definition print_float (f : float) : string :=
  let '(m, e) := PrimFloat.frshiftexp f in
  (if PrimFloat.ltb f 0%float then "-" else "")
  ++ print_Z (Uint63.to_Z (PrimFloat.normfr_mantissa m))
  ++ "p" ++ print_Z (Uint63.to_Z e).

Fixpoint print_json (j : json) : string :=
  match j with
  | JNull => "null"
  | JBool true => "true"
  | JBool false => "false"
  | JInt z => print_Z z
  | JFloat f => print_float f
  | JStr s => "'" ++ s ++ "'"
  | JList l =>
      "[" ++ (fix items (l : list json) : string :=
                match l with
                | [] => ""
                | x :: r => print_json x ++ "," ++ items r
                end) l ++ "]"
  | JDict kvs =>
      "{" ++ (fix items (l : list (string * json)) : string :=
                match l with
                | [] => ""
                | (k, v) :: r => k ++ ":" ++ print_json v ++ "," ++ items r
                end) kvs ++ "}"
  end.

(** A 63-bit multiplicative hash, printed as 16 hexadecimal digits and
    repeated to the 64 characters of a SHA-256 digest. *)
Fixpoint mix (s : string) (h : PrimInt63.int) : PrimInt63.int :=
  match s with
  | EmptyString => h
  | String c rest =>
      mix rest (PrimInt63.mul (PrimInt63.lxor h (Uint63.of_Z (Z.of_nat (nat_of_ascii c))))
                              1099511628211%uint63)
  end.

Definition hex_digit (n : Z) : ascii :=
  ascii_of_nat (Z.to_nat (if n <? 10 then 48 + n else 87 + n)).

Fixpoint hex_fuel (digits : nat) (n : Z) (acc : string) : string :=
  match digits with
  | O => acc
  | S d => hex_fuel d (n / 16) (String (hex_digit (n mod 16)) acc)
  end.

Definition toy_hash (s : string) : string :=
  let h := Uint63.to_Z (mix s 1469598103934665603%uint63) in
  let word := hex_fuel 16 (h * 2) "" in
  word ++ word ++ word ++ word.

#[export] Instance lib : Library := {
  json_dumps := print_json;
  sha256_hex := toy_hash;
  (* a signature is accepted when it is the digest itself *)
  rsa_verify := fun _ digest sig => (sig =? digest)%string
}.

#[export] Instance config : Config := {
  INITIAL_DIFFICULTY := 1;
  MINING_REWARD := 50%float;
  MAX_TRANSACTION_POOL_SIZE := 1000
}.

Definition world : World :=
  mkWorld (fun n => PrimFloat.add 1700000000%float
                      (PrimFloat.of_uint63 (Uint63.of_Z (Z.of_nat n)))) 0.

(** Three peers; the one on port 5003 refuses the connection, the others
    answer [{"type": "ack"}]. *)
#[export] Instance network : DHTNode.Network := {
  DHTNode.net := unit;
  DHTNode.exchange := fun n addr _ =>
    if snd addr =? 5003 then (DHTNode.ConnectionRefused, n)
    else (DHTNode.Received "{type:ack}", n);
  DHTNode.json_loads := fun data =>
    if (data =? "{type:ack}")%string then Some (JDict [("type", JStr "ack")])
    else None
}.

End Sample.

(* ================================================================== *)
(** * Facts about strings and the monad *)
(* ================================================================== *)

(** The number of ['0'] characters a string starts with. *)
Fixpoint leading_zeros (s : string) : nat :=
  match s with
  | String c rest => if Ascii.eqb c "0" then S (leading_zeros rest) else O
  | EmptyString => O
  end.

Fixpoint zeros_nat (n : nat) : string :=
  match n with
  | O => EmptyString
  | S k => String "0" (zeros_nat k)
  end.

Lemma zeros_eq (d : Z) : zeros d = zeros_nat (Z.to_nat d).
Proof.
  unfold zeros. induction (Z.to_nat d) as [|n IH]; simpl; congruence.
Qed.

Lemma prefix_String (a b : ascii) (s1 s2 : string) :
  String.prefix (String a s1) (String b s2)
  = if Ascii.eqb a b then String.prefix s1 s2 else false.
Proof.
  cbn [String.prefix]. destruct (ascii_dec a b) as [E|E].
  - subst. now rewrite Ascii.eqb_refl.
  - apply Ascii.eqb_neq in E. now rewrite E.
Qed.

Lemma prefix_zeros_nat (n : nat) (s : string) :
  String.prefix (zeros_nat n) s = true <-> (n <= leading_zeros s)%nat.
Proof.
  revert s; induction n as [|n IH]; intros [|c s]; cbn [zeros_nat leading_zeros].
  - split; [lia | reflexivity].
  - split; [lia | reflexivity].
  - split; [discriminate | lia].
  - rewrite prefix_String, (Ascii.eqb_sym "0" c).
    destruct (Ascii.eqb c "0").
    + rewrite IH. lia.
    + split; [discriminate | lia].
Qed.

Lemma prefix_zeros (d : Z) (s : string) :
  String.prefix (zeros d) s = true <-> d <= Z.of_nat (leading_zeros s).
Proof.
  rewrite zeros_eq, prefix_zeros_nat. lia.
Qed.

Lemma not_prefix_zeros (d : Z) (s : string) :
  String.prefix (zeros d) s = false -> Z.of_nat (leading_zeros s) < d.
Proof.
  intros Hs.
  destruct (Z_lt_ge_dec (Z.of_nat (leading_zeros s)) d) as [Hlt|Hge];
    [assumption|].
  assert (String.prefix (zeros d) s = true) by (apply prefix_zeros; lia).
  congruence.
Qed.

Lemma zeros_length (d : Z) : 0 <= d -> len (zeros d) = d.
Proof.
  intros Hd. unfold len. rewrite zeros_eq.
  rewrite <- (Z2Nat.id d) at 2 by assumption. f_equal.
  induction (Z.to_nat d) as [|n IH]; simpl; congruence.
Qed.

Lemma truthy_str_true (s : string) : truthy_str s = true <-> s <> "".
Proof.
  unfold truthy_str. rewrite negb_true_iff. apply String.eqb_neq.
Qed.

Lemma in_str_In (s : string) (l : list string) : in_str s l = true <-> In s l.
Proof.
  unfold in_str. rewrite existsb_exists. split.
  - intros (x & Hx & E). apply String.eqb_eq in E. now subst.
  - intros H. exists s. split; [assumption | apply String.eqb_refl].
Qed.

(** [or_now] returns: the given timestamp when it is truthy, the next
    reading of the clock otherwise. *)
Definition stamp (timestamp : option float) (w : World) : float :=
  if truthy_opt truthy_float timestamp
  then match timestamp with Some t => t | None => 0%float end
  else clock w (reads w).

Definition after_stamp (timestamp : option float) (w : World) : World :=
  if truthy_opt truthy_float timestamp then w
  else mkWorld (clock w) (S (reads w)).

Lemma or_now_eq (timestamp : option float) (w : World) :
  or_now timestamp w = (Ok (stamp timestamp w), after_stamp timestamp w).
Proof.
  unfold or_now, stamp, after_stamp.
  destruct timestamp as [t|]; simpl; [destruct (truthy_float t)|]; reflexivity.
Qed.

Lemma bind_Ok {A B} (m : M A) (k : A -> M B) (w w' : World) (b : B) :
  bind m k w = (Ok b, w') ->
  exists a w1, m w = (Ok a, w1) /\ k a w1 = (Ok b, w').
Proof.
  unfold bind. destruct (m w) as [[a|e] w1]; [eauto | discriminate].
Qed.

Lemma lift_Ok {A} (r : result A) (w w' : World) (a : A) :
  lift r w = (Ok a, w') -> r = Ok a /\ w' = w.
Proof. unfold lift. intros H. injection H as -> ->. split; reflexivity. Qed.

Lemma ret_Ok {A} (a b : A) (w w' : World) :
  ret a w = (Ok b, w') -> b = a /\ w' = w.
Proof. unfold ret. intros H. injection H as -> ->. split; reflexivity. Qed.

(* ================================================================== *)
(** * Block: construction and mining *)
(* ================================================================== *)

Section BlockFacts.
Context {L : Library}.

(** The stored hash is not part of what [calculate_hash] hashes. *)
Lemma calculate_hash_set_hash (b : Block.t) (h : string) :
  Block.calculate_hash (Block.set_hash b h) = Block.calculate_hash b.
Proof. reflexivity. Qed.

(** The block [Block.__init__] builds when its checks pass. *)
Definition built (index : Z) (transactions : list Transaction.t)
    (previous_hash : string) (timestamp : float) (nonce : Z)
    (hash : option string) : Block.t :=
  let self := Block.mk index transactions previous_hash timestamp nonce "" in
  Block.set_hash self
    (if truthy_opt truthy_str hash
     then match hash with Some h => h | None => "" end
     else Block.calculate_hash self).

Lemma Block_init_eq index transactions previous_hash timestamp nonce hash w :
  Block.init index transactions previous_hash timestamp nonce hash w =
  (if index <? 0
   then Raise (ValueError "Block index must be a non-negative integer")
   else if negb (len previous_hash =? 64)
   then Raise (ValueError "Previous hash must be a 64-character string")
   else Ok (built index transactions previous_hash (stamp timestamp w) nonce hash),
   after_stamp timestamp w).
Proof.
  unfold Block.init, bind. rewrite or_now_eq. fold (built index transactions
    previous_hash (stamp timestamp w) nonce hash).
  destruct (index <? 0); [reflexivity|].
  destruct (negb (len previous_hash =? 64)); reflexivity.
Qed.

(** The loop from nonce [i] with [fuel] iterations: what it returns is the
    receiver at the first nonce whose hash starts with [target]. *)
Lemma mine_loop_Ok (target : string) :
  forall (fuel : nat) (i : Z) (self b : Block.t),
    Block.mine_loop fuel i target self = Ok b ->
    Block.hash b = Block.calculate_hash b
    /\ String.prefix target (Block.hash b) = true
    /\ i <= Block.nonce b < i + Z.of_nat fuel
    /\ (forall j, i <= j < Block.nonce b ->
          String.prefix target
            (Block.calculate_hash (Block.set_nonce self j)) = false)
    /\ Block.index b = Block.index self
    /\ Block.transactions b = Block.transactions self
    /\ Block.previous_hash b = Block.previous_hash self
    /\ Block.timestamp b = Block.timestamp self.
Proof.
  induction fuel as [|fuel IH]; intros i self b; cbn [Block.mine_loop].
  - discriminate.
  - set (tried := Block.set_hash (Block.set_nonce self i)
                    (Block.calculate_hash (Block.set_nonce self i))).
    destruct (String.prefix target (Block.hash tried)) eqn:Hit.
    + intros H. injection H as <-.
      repeat split; try reflexivity; try assumption; simpl; lia.
    + intros H. apply IH in H.
      destruct H as (Hh & Hp & Hn & Hmin & Hi & Ht & Hprev & Hts).
      repeat split; try assumption; try lia.
      intros j Hj. destruct (Z.eq_dec j i) as [->|Hne].
      * exact Hit.
      * apply (Hmin j). lia.
Qed.

(** The loop raises only when every nonce it tried failed. *)
Lemma mine_loop_Raise (target : string) :
  forall (fuel : nat) (i : Z) (self : Block.t) (e : exn),
    Block.mine_loop fuel i target self = Raise e ->
    e = Block.mining_exhausted
    /\ forall j, i <= j < i + Z.of_nat fuel ->
         String.prefix target
           (Block.calculate_hash (Block.set_nonce self j)) = false.
Proof.
  induction fuel as [|fuel IH]; intros i self e; cbn [Block.mine_loop].
  - intros H. injection H as <-. split; [reflexivity | intros j Hj; lia].
  - set (tried := Block.set_hash (Block.set_nonce self i)
                    (Block.calculate_hash (Block.set_nonce self i))).
    destruct (String.prefix target (Block.hash tried)) eqn:Hit; [discriminate|].
    intros H. apply IH in H. destruct H as (He & Hall). split; [assumption|].
    intros j Hj. destruct (Z.eq_dec j i) as [->|Hne].
    + exact Hit.
    + apply (Hall j). lia.
Qed.

Lemma mine_block_unfold (self : Block.t) (difficulty : Z) :
  Block.mine_block self difficulty
  = Block.mine_loop (Z.to_nat Block.max_nonce) 0 (zeros difficulty) self.
Proof. reflexivity. Qed.

Lemma attempts_max_nonce : 0 + Z.of_nat (Z.to_nat Block.max_nonce) = Block.max_nonce.
Proof. rewrite Z2Nat.id; [reflexivity | discriminate]. Qed.

Lemma mine_block_Ok (self b : Block.t) (difficulty : Z) :
  Block.mine_block self difficulty = Ok b ->
  Block.hash b = Block.calculate_hash b
  /\ String.prefix (zeros difficulty) (Block.hash b) = true
  /\ 0 <= Block.nonce b < Block.max_nonce
  /\ (forall j, 0 <= j < Block.nonce b ->
        String.prefix (zeros difficulty)
          (Block.calculate_hash (Block.set_nonce self j)) = false)
  /\ Block.index b = Block.index self
  /\ Block.transactions b = Block.transactions self
  /\ Block.previous_hash b = Block.previous_hash self
  /\ Block.timestamp b = Block.timestamp self.
Proof.
  rewrite mine_block_unfold. intros H. apply mine_loop_Ok in H.
  rewrite attempts_max_nonce in H. exact H.
Qed.

Lemma mine_block_Raise (self : Block.t) (difficulty : Z) (e : exn) :
  Block.mine_block self difficulty = Raise e ->
  e = Block.mining_exhausted
  /\ forall j, 0 <= j < Block.max_nonce ->
       String.prefix (zeros difficulty)
         (Block.calculate_hash (Block.set_nonce self j)) = false.
Proof.
  rewrite mine_block_unfold. intros H. apply mine_loop_Raise in H.
  rewrite attempts_max_nonce in H. exact H.
Qed.

(** [Block.is_valid]: the stored hash is the recomputed one, it starts
    with [difficulty] zeros, and every transaction verifies. *)
Lemma is_valid_spec (b : Block.t) (difficulty : Z) :
  Block.is_valid b difficulty = true
  <-> Block.hash b = Block.calculate_hash b
      /\ difficulty <= Z.of_nat (leading_zeros (Block.hash b))
      /\ forall tx, In tx (Block.transactions b) -> Transaction.verify tx = true.
Proof.
  unfold Block.is_valid.
  destruct (Block.calculate_hash b =? Block.hash b)%string eqn:Hh; cbn [negb].
  2:{ apply String.eqb_neq in Hh. split; [discriminate|]. intros (E & _). congruence. }
  apply String.eqb_eq in Hh.
  destruct (String.prefix (zeros difficulty) (Block.hash b)) eqn:Hp; cbn [negb].
  2:{ apply not_prefix_zeros in Hp. split; [discriminate|]. intros (_ & Hd & _). lia. }
  apply prefix_zeros in Hp. rewrite forallb_forall. split.
  - intros Hall. repeat split; [congruence | assumption | assumption].
  - intros (_ & _ & Hall). assumption.
Qed.

(** What holds of every block a constructor call returned, also after
    mining: the checks of [__init__], and a non-empty hash once SHA-256
    digests are non-empty (they are 64 characters long). *)
Definition constructed (b : Block.t) : Prop :=
  0 <= Block.index b /\ len (Block.previous_hash b) = 64 /\ Block.hash b <> "".

Lemma Block_init_constructed index transactions previous_hash timestamp nonce hash
    w b w' :
  (forall s, sha256_hex s <> "") ->
  Block.init index transactions previous_hash timestamp nonce hash w = (Ok b, w') ->
  constructed b.
Proof.
  intros Hsha. rewrite Block_init_eq.
  destruct (index <? 0) eqn:Hi; [discriminate|]. apply Z.ltb_ge in Hi.
  destruct (len previous_hash =? 64) eqn:Hl; cbn [negb]; [|discriminate].
  apply Z.eqb_eq in Hl. intros H. injection H as <- _.
  unfold constructed, built. cbn.
  repeat split; try assumption.
  destruct hash as [h|]; cbn [truthy_opt].
  - destruct (truthy_str h) eqn:Ht; [apply truthy_str_true; assumption | apply Hsha].
  - apply Hsha.
Qed.

Lemma mine_block_constructed (b b' : Block.t) (difficulty : Z) :
  (forall s, sha256_hex s <> "") ->
  constructed b -> Block.mine_block b difficulty = Ok b' -> constructed b'.
Proof.
  intros Hsha (Hi & Hl & _) Hm. apply mine_block_Ok in Hm.
  destruct Hm as (Hh & _ & _ & _ & Hidx & _ & Hprev & _).
  unfold constructed. rewrite Hidx, Hprev, Hh.
  repeat split; try assumption. apply Hsha.
Qed.

(** C3.  [mine_block] tries the nonces 0, 1, 2, ... in turn and either
    returns or raises.  When it returns, the stored hash is the hash
    recomputed from the fields of the block, it starts with at least
    [difficulty] characters '0', the nonce is below 2^32 and is the first
    one that gives such a hash, and the block is the receiver with that
    nonce and hash.  When it raises, the exception is the mining-exhausted
    [RuntimeError] and no nonce below 2^32 gives such a hash. *)
Theorem mine_block_spec (self : Block.t) (difficulty : Z) :
  match Block.mine_block self difficulty with
  | Ok b =>
      Block.hash b = Block.calculate_hash b
      /\ difficulty <= Z.of_nat (leading_zeros (Block.hash b))
      /\ 0 <= Block.nonce b < Block.max_nonce
      /\ (forall j, 0 <= j < Block.nonce b ->
            Z.of_nat (leading_zeros
                        (Block.calculate_hash (Block.set_nonce self j)))
            < difficulty)
      /\ b = Block.set_hash (Block.set_nonce self (Block.nonce b))
               (Block.calculate_hash (Block.set_nonce self (Block.nonce b)))
  | Raise e =>
      e = Block.mining_exhausted
      /\ forall j, 0 <= j < Block.max_nonce ->
           Z.of_nat (leading_zeros
                       (Block.calculate_hash (Block.set_nonce self j)))
           < difficulty
  end.
Proof.
  pose proof (not_prefix_zeros difficulty) as Hno.
  destruct (Block.mine_block self difficulty) as [b|e] eqn:Hm.
  - apply mine_block_Ok in Hm.
    destruct Hm as (Hh & Hp & Hn & Hmin & Hi & Ht & Hprev & Hts).
    split; [assumption|].
    split; [apply prefix_zeros; assumption|].
    split; [assumption|].
    split; [intros j Hj; apply Hno, Hmin; assumption|].
    clear Hn Hmin Hp Hno.
    destruct b, self; cbn in Hh, Hi, Ht, Hprev, Hts |- *; subst.
    unfold Block.set_hash, Block.set_nonce; cbn. f_equal. exact Hh.
  - apply mine_block_Raise in Hm. destruct Hm as (He & Hall).
    split; [assumption|]. intros j Hj. apply Hno, Hall; assumption.
Qed.

(** C7, as amended.  [Block.__init__] raises a [ValueError] exactly when
    [index] is negative or [previous_hash] is not 64 characters long; the
    characters themselves are not examined.  Otherwise it returns a block
    with the given index, transactions, previous hash and nonce. *)
Theorem Block_init_checks (index : Z) (transactions : list Transaction.t)
    (previous_hash : string) (timestamp : option float) (nonce : Z)
    (hash : option string) (w : World) :
  match fst (Block.init index transactions previous_hash timestamp nonce hash w) with
  | Raise e =>
      (index < 0 \/ len previous_hash <> 64) /\ exists msg, e = ValueError msg
  | Ok b =>
      (0 <= index /\ len previous_hash = 64)
      /\ Block.index b = index
      /\ Block.transactions b = transactions
      /\ Block.previous_hash b = previous_hash
      /\ Block.nonce b = nonce
  end.
Proof.
  rewrite Block_init_eq. cbn [fst].
  destruct (index <? 0) eqn:Hi.
  - apply Z.ltb_lt in Hi. split; [left; assumption | eauto].
  - apply Z.ltb_ge in Hi.
    destruct (len previous_hash =? 64) eqn:Hl; cbn [negb].
    + apply Z.eqb_eq in Hl. repeat split; assumption.
    + apply Z.eqb_neq in Hl. split; [right; assumption | eauto].
Qed.

(** The genesis block before mining: index 0, no transaction, previous
    hash of 64 zeros, the fixed timestamp 1234567890. *)
Definition genesis_template : Block.t :=
  built 0 [] (zeros 64) 1234567890%float 0 None.

Lemma Blockchain_init_eq {C : Config} (difficulty : Z) (w : World) :
  Blockchain.init difficulty w =
  (match Block.mine_block genesis_template difficulty with
   | Ok g => Ok (Blockchain.mk difficulty MINING_REWARD
                   (TransactionPool.init MAX_TRANSACTION_POOL_SIZE) [g])
   | Raise e => Raise e
   end, w).
Proof.
  unfold Blockchain.init, Blockchain._create_genesis_block, bind, lift.
  cbn [Blockchain.chain]. rewrite Block_init_eq.
  change (0 <? 0) with false. change (len (zeros 64) =? 64) with true.
  cbn [negb]. change (stamp (Some 1234567890%float) w) with 1234567890%float.
  change (after_stamp (Some 1234567890%float) w) with w.
  fold genesis_template. cbn [Blockchain.difficulty].
  destruct (Block.mine_block genesis_template difficulty); reflexivity.
Qed.

(** C8.  Two constructions of a [Blockchain] with the same difficulty, on
    nodes with any configuration and any clock, end the same way: either
    both raise the mining-exhausted error, or both chains are the one
    genesis block mined from the template (index 0, timestamp 1234567890,
    previous hash of 64 zeros, no transaction), so with equal hashes.
    Neither run reads the clock. *)
Theorem genesis_block_deterministic (C1 C2 : Config) (difficulty : Z)
    (w1 w2 : World) :
  let run1 := Blockchain.init (C := C1) difficulty w1 in
  let run2 := Blockchain.init (C := C2) difficulty w2 in
  snd run1 = w1 /\ snd run2 = w2
  /\ match fst run1, fst run2 with
     | Ok node1, Ok node2 =>
         exists g,
           Blockchain.chain node1 = [g] /\ Blockchain.chain node2 = [g]
           /\ Block.mine_block genesis_template difficulty = Ok g
           /\ Block.index g = 0
           /\ Block.timestamp g = 1234567890%float
           /\ Block.previous_hash g = zeros 64
           /\ Block.transactions g = []
           /\ Block.hash g = Block.calculate_hash g
     | Raise e1, Raise e2 => e1 = e2 /\ e1 = Block.mining_exhausted
     | _, _ => False
     end.
Proof.
  cbv zeta. rewrite !Blockchain_init_eq. cbn [fst snd].
  split; [reflexivity|]. split; [reflexivity|].
  destruct (Block.mine_block genesis_template difficulty) as [g|e] eqn:Hm.
  - exists g. apply mine_block_Ok in Hm.
    destruct Hm as (Hh & _ & _ & _ & Hi & Ht & Hprev & Hts).
    repeat split; assumption.
  - apply mine_block_Raise in Hm. destruct Hm as (He & _).
    split; [reflexivity | assumption].
Qed.

End BlockFacts.

(* ================================================================== *)
(** * Serialisation: [to_dict] and [from_dict] *)
(* ================================================================== *)

Section Serialisation.
Context {L : Library}.

(** [Transaction.from_dict] either raises a [ValueError] whatever the
    clock, or returns the transaction of the entries, stamped by the entry
    ['timestamp'] or by the clock. *)
Lemma Transaction_from_dict_cases (data : Transaction.dict) :
  (exists msg, forall w, Transaction.from_dict data w = (Raise (ValueError msg), w))
  \/ (exists s r a,
        or_str (Transaction.k_sender data) (Transaction.k_from data) = Some s
        /\ or_str (Transaction.k_recipient data) (Transaction.k_to data) = Some r
        /\ Transaction.k_amount data = Some a
        /\ forall w,
          Transaction.from_dict data w
          = (Ok (Transaction.mk s r a (stamp (Transaction.k_timestamp data) w)
                                (Transaction.k_signature data)),
             after_stamp (Transaction.k_timestamp data) w)).
Proof.
  unfold Transaction.from_dict, Transaction.init, Transaction.checked_amount,
    try_except, bind, raise, ret.
  destruct (or_str (Transaction.k_sender data) (Transaction.k_from data)) as [s|];
    [|left; eexists; intros; reflexivity].
  destruct (or_str (Transaction.k_recipient data) (Transaction.k_to data)) as [r|];
    [|left; eexists; intros; reflexivity].
  destruct (truthy_str s); cbn [negb orb];
    [|left; eexists; intros; reflexivity].
  destruct (truthy_str r); cbn [negb orb];
    [|left; eexists; intros; reflexivity].
  destruct (Transaction.k_amount data) as [a|];
    [|left; eexists; intros; reflexivity].
  destruct (PrimFloat.is_nan a); [left; eexists; intros; reflexivity|].
  destruct (PrimFloat.leb a 0); [left; eexists; intros; reflexivity|].
  destruct (PrimFloat.ltb a Transaction.MIN_AMOUNT);
    [left; eexists; intros; reflexivity|].
  destruct (PrimFloat.ltb Transaction.MAX_AMOUNT a);
    [left; eexists; intros; reflexivity|].
  right. exists s, r, a. repeat split. intros w. rewrite or_now_eq. reflexivity.
Qed.

Lemma Transaction_from_dict_raise (data : Transaction.dict) (w w' : World) (e : exn) :
  Transaction.from_dict data w = (Raise e, w') ->
  exists msg, e = ValueError msg
              /\ forall w2, Transaction.from_dict data w2 = (Raise (ValueError msg), w2).
Proof.
  intros H.
  destruct (Transaction_from_dict_cases data)
    as [(msg & Hm)|(s & r & a & _ & _ & _ & Hm)].
  - exists msg. rewrite Hm in H. split; [congruence | assumption].
  - rewrite Hm in H. discriminate.
Qed.

(** A transaction read back from its own dictionary: the fields are those
    of the transaction, except that an empty signature comes back absent
    and a zero timestamp is replaced by the clock. *)
Lemma Transaction_round_trip (tx tx' : Transaction.t) (w w' : World) :
  Transaction.from_dict (Transaction.to_dict tx) w = (Ok tx', w') ->
  tx' = Transaction.mk (Transaction.sender tx) (Transaction.recipient tx)
          (Transaction.amount tx)
          (stamp (Some (Transaction.timestamp tx)) w)
          (if truthy_opt truthy_str (Transaction.signature tx)
           then Transaction.signature tx else None)
  /\ w' = after_stamp (Some (Transaction.timestamp tx)) w.
Proof.
  intros H.
  destruct (Transaction_from_dict_cases (Transaction.to_dict tx))
    as [(msg & Hm)|(s & r & a & Hs & Hr & Ha & Hm)].
  - rewrite Hm in H. discriminate.
  - rewrite Hm in H. injection H as <- <-.
    unfold or_str in Hs, Hr.
    cbn [Transaction.to_dict Transaction.k_sender Transaction.k_from
         Transaction.k_recipient Transaction.k_to Transaction.k_amount
         Transaction.k_timestamp Transaction.k_signature truthy_opt]
      in Hs, Hr, Ha |- *.
    destruct (truthy_str (Transaction.sender tx)); [|discriminate].
    destruct (truthy_str (Transaction.recipient tx)); [|discriminate].
    injection Hs as <-. injection Hr as <-. injection Ha as <-.
    split; reflexivity.
Qed.

(** The transactions the pool and the claims call well formed for a round
    trip: nonzero timestamp, signature absent or non-empty. *)
Definition round_trips (tx : Transaction.t) : Prop :=
  truthy_float (Transaction.timestamp tx) = true
  /\ Transaction.signature tx <> Some ""
  /\ exists tx' w w', Transaction.from_dict (Transaction.to_dict tx) w = (Ok tx', w').

Lemma Transaction_round_trip_id (tx : Transaction.t) (w : World) :
  round_trips tx ->
  Transaction.from_dict (Transaction.to_dict tx) w = (Ok tx, w).
Proof.
  intros (Hts & Hsig & tx' & w1 & w2 & Hok).
  destruct (Transaction_from_dict_cases (Transaction.to_dict tx))
    as [(msg & Hm)|(s & r & a & _ & _ & _ & Hm)].
  - rewrite Hm in Hok. discriminate.
  - pose proof (Hm w) as Hw.
    destruct (Transaction_round_trip _ _ _ _ Hw) as (E & _).
    rewrite Hw. cbn [Transaction.to_dict Transaction.k_timestamp] in E |- *.
    unfold stamp, after_stamp in *. cbn [truthy_opt] in *. rewrite Hts in *.
    f_equal. rewrite E. destruct tx as [sd rc am ts sg]; cbn in *.
    f_equal. destruct sg as [sg|]; [|reflexivity].
    cbn. destruct (truthy_str sg) eqn:Hsg; [reflexivity|].
    exfalso. apply Hsig. f_equal.
    unfold truthy_str in Hsg. apply negb_false_iff, String.eqb_eq in Hsg.
    assumption.
Qed.

Lemma transactions_from_cons (tx_data : Transaction.dict)
    (rest : list Transaction.dict) (w : World) :
  Block.transactions_from (tx_data :: rest) w =
  match Transaction.from_dict tx_data w with
  | (Ok tx, w1) =>
      match Block.transactions_from rest w1 with
      | (Ok after, w2) => (Ok (tx :: after), w2)
      | (Raise e, w2) => (Raise e, w2)
      end
  | (Raise _, w1) => Block.transactions_from rest w1
  end.
Proof.
  cbn [Block.transactions_from]. unfold bind, try_except, ret.
  destruct (Transaction.from_dict tx_data w) as [[tx|e] w1] eqn:Hd.
  - destruct (Block.transactions_from rest w1) as [[after|e] w2]; reflexivity.
  - destruct (Transaction_from_dict_raise _ _ _ _ Hd) as (msg & -> & _).
    destruct (Block.transactions_from rest w1) as [[after|e] w2]; reflexivity.
Qed.

(** The loop over the transaction entries never raises. *)
Lemma transactions_from_ok (l : list Transaction.dict) :
  forall w, exists txs w', Block.transactions_from l w = (Ok txs, w').
Proof.
  induction l as [|d l IH]; intros w.
  - exists [], w. reflexivity.
  - rewrite transactions_from_cons.
    destruct (Transaction.from_dict d w) as [[tx|e] w1].
    + destruct (IH w1) as (txs & w' & ->). eauto.
    + apply IH.
Qed.

(** An entry that fails to deserialise is skipped. *)
Lemma transactions_from_omits (l1 l2 : list Transaction.dict)
    (bad : Transaction.dict) :
  (exists e w0 w1, Transaction.from_dict bad w0 = (Raise e, w1)) ->
  forall w, Block.transactions_from (l1 ++ bad :: l2) w
            = Block.transactions_from (l1 ++ l2) w.
Proof.
  intros (e & w0 & w1 & Hbad).
  destruct (Transaction_from_dict_raise _ _ _ _ Hbad) as (msg & _ & Hany).
  induction l1 as [|d l1 IH]; intros w; cbn [app].
  - rewrite transactions_from_cons, Hany. reflexivity.
  - rewrite !transactions_from_cons.
    destruct (Transaction.from_dict d w) as [[tx|e'] w2]; rewrite IH; reflexivity.
Qed.

Lemma transactions_from_round_trip (txs : list Transaction.t) (w : World) :
  (forall tx, In tx txs -> round_trips tx) ->
  Block.transactions_from (map Transaction.to_dict txs) w = (Ok txs, w).
Proof.
  induction txs as [|tx txs IH]; intros Hall.
  - reflexivity.
  - cbn [map]. rewrite transactions_from_cons.
    rewrite Transaction_round_trip_id by (apply Hall; left; reflexivity).
    rewrite IH by (intros t Ht; apply Hall; right; assumption).
    reflexivity.
Qed.

(** [data] with its ['transactions'] entry replaced. *)
Definition with_transactions (data : Block.dict) (l : list Transaction.dict)
  : Block.dict :=
  Block.mkdict (Block.k_index data) (Block.k_timestamp data)
               (Block.k_previous_hash data) (Block.k_hash data)
               (Block.k_nonce data) (Some l).

(** C10, as amended.  Let [b] satisfy what the constructor checks (index
    not negative, previous hash of 64 characters) and have a non-empty
    hash and a nonzero timestamp, and let each of its transactions have a
    nonzero timestamp, a signature that is absent or non-empty, and
    deserialise.  Then [Block.from_dict(b.to_dict())] returns [b] itself,
    without reading the clock.  And in every dictionary, a transaction
    entry that fails to deserialise is skipped: [from_dict] behaves as on
    the dictionary without that entry. *)
Theorem Block_from_dict_to_dict :
  (forall (b : Block.t) (w : World),
      0 <= Block.index b ->
      len (Block.previous_hash b) = 64 ->
      Block.hash b <> "" ->
      truthy_float (Block.timestamp b) = true ->
      (forall tx, In tx (Block.transactions b) -> round_trips tx) ->
      Block.from_dict (Block.to_dict b) w = (Ok b, w))
  /\ (forall (data : Block.dict) (l1 l2 : list Transaction.dict)
             (bad : Transaction.dict) (w : World),
         Block.k_transactions data = Some (l1 ++ bad :: l2)%list ->
         (exists e w0 w1, Transaction.from_dict bad w0 = (Raise e, w1)) ->
         Block.from_dict data w
         = Block.from_dict (with_transactions data (l1 ++ l2)%list) w).
Proof.
  split.
  - intros b w Hi Hl Hh Hts Htxs.
    unfold Block.from_dict, bind.
    cbn [Block.to_dict Block.k_index Block.k_timestamp Block.k_previous_hash
         Block.k_hash Block.k_nonce Block.k_transactions].
    rewrite transactions_from_round_trip by assumption.
    rewrite Block_init_eq.
    apply Z.ltb_ge in Hi. rewrite Hi.
    apply Z.eqb_eq in Hl. rewrite Hl. cbn [negb].
    unfold stamp, after_stamp, built. cbn [truthy_opt]. rewrite Hts.
    apply truthy_str_true in Hh. rewrite Hh.
    destruct b; reflexivity.
  - intros data l1 l2 bad w Hk Hbad.
    destruct data as [i t p h n txs]. cbn [Block.k_transactions] in Hk. subst txs.
    unfold Block.from_dict, bind.
    cbn [with_transactions Block.k_index Block.k_timestamp Block.k_previous_hash
         Block.k_hash Block.k_nonce Block.k_transactions].
    destruct i, t, p, h, n; try reflexivity.
    rewrite (transactions_from_omits l1 l2 bad Hbad). reflexivity.
Qed.

End Serialisation.

(* ================================================================== *)
(** * The transaction pool *)
(* ================================================================== *)

Section PoolFacts.
Context {L : Library}.

(** What [add_transaction] converts its argument to. *)
Definition converted (transaction : Transaction.dict + Transaction.t) (w : World)
  : result Transaction.t :=
  match transaction with
  | inl data => fst (Transaction.from_dict data w)
  | inr tx => Ok tx
  end.

Lemma same_transfer_true (tx transaction : Transaction.t) :
  TransactionPool.same_transfer tx transaction = true <->
  Transaction.sender tx = Transaction.sender transaction
  /\ Transaction.recipient tx = Transaction.recipient transaction
  /\ PrimFloat.eqb (Transaction.amount tx) (Transaction.amount transaction) = true
  /\ PrimFloat.eqb (Transaction.timestamp tx) (Transaction.timestamp transaction)
     = true.
Proof.
  unfold TransactionPool.same_transfer.
  rewrite !andb_true_iff, !String.eqb_eq. tauto.
Qed.

(** C6, as amended.  [add_transaction] rejects its argument as a duplicate
    exactly when the pool is not full, the argument converts to a
    transaction that verifies, and some pool entry has the same sender,
    recipient, amount and timestamp ([==] on each).  The signature, and so
    the identity hash of [get_hash], plays no part.  The pool is then left
    as it was and the call returns [False]. *)
Theorem add_transaction_duplicate_rule (self : TransactionPool.t)
    (transaction : Transaction.dict + Transaction.t) (w : World) :
  (fst (fst (TransactionPool.add_transaction_log self transaction w))
   = TransactionPool.DuplicateRejected
   <-> Z.of_nat (List.length (TransactionPool.transactions self))
       < TransactionPool.max_size self
       /\ exists candidate,
            converted transaction w = Ok candidate
            /\ Transaction.verify candidate = true
            /\ exists tx,
                 In tx (TransactionPool.transactions self)
                 /\ Transaction.sender tx = Transaction.sender candidate
                 /\ Transaction.recipient tx = Transaction.recipient candidate
                 /\ PrimFloat.eqb (Transaction.amount tx)
                                  (Transaction.amount candidate) = true
                 /\ PrimFloat.eqb (Transaction.timestamp tx)
                                  (Transaction.timestamp candidate) = true)
  /\ (fst (fst (TransactionPool.add_transaction_log self transaction w))
      = TransactionPool.DuplicateRejected ->
      fst (fst (TransactionPool.add_transaction self transaction w)) = false
      /\ snd (fst (TransactionPool.add_transaction self transaction w)) = self).
Proof.
  unfold TransactionPool.add_transaction, TransactionPool.add_transaction_log,
    converted.
  destruct (TransactionPool.max_size self
            <=? Z.of_nat (List.length (TransactionPool.transactions self))) eqn:Hfull.
  - cbn. apply Z.leb_le in Hfull. split.
    + split; [discriminate | intros (Hlt & _); lia].
    + discriminate.
  - apply Z.leb_gt in Hfull.
    set (conv := match transaction with
                 | inl data => Transaction.from_dict data w
                 | inr tx => (Ok tx, w)
                 end).
    assert (Hconv : fst conv = match transaction with
                               | inl data => fst (Transaction.from_dict data w)
                               | inr tx => Ok tx
                               end)
      by (unfold conv; destruct transaction; reflexivity).
    rewrite <- Hconv. clear Hconv.
    destruct conv as [[candidate|e] w1]; cbn [fst snd].
    + destruct (Transaction.verify candidate) eqn:Hv; cbn [negb fst snd].
      * destruct (existsb (fun old => TransactionPool.same_transfer old candidate)
                          (TransactionPool.transactions self)) eqn:Hdup;
          cbn [fst snd TransactionPool.accepted].
        -- apply existsb_exists in Hdup. destruct Hdup as (tx & Hin & Hsame).
           apply same_transfer_true in Hsame.
           split; [|intros _; split; reflexivity].
           split; [|reflexivity]. intros _. split; [assumption|].
           exists candidate. repeat split; try assumption.
           exists tx. tauto.
        -- split; [|discriminate]. split; [discriminate|].
           intros (_ & c & Hc & _ & tx & Hin & Hsame).
           injection Hc as <-.
           assert (existsb (fun old => TransactionPool.same_transfer old candidate)
                           (TransactionPool.transactions self) = true).
           { apply existsb_exists. exists tx. split; [assumption|].
             apply same_transfer_true. assumption. }
           congruence.
      * split; [|discriminate]. split; [discriminate|].
        intros (_ & c & Hc & Hvc & _). injection Hc as <-. congruence.
    + split; [|discriminate]. split; [discriminate|].
      intros (_ & c & Hc & _). discriminate.
Qed.

End PoolFacts.

(* ================================================================== *)
(** * The chain: appending, mining, replacing *)
(* ================================================================== *)

Section ChainFacts.
Context {L : Library}.

Lemma adjust_difficulty_frame (self : Blockchain.t) :
  Blockchain.chain (Blockchain.adjust_difficulty self) = Blockchain.chain self
  /\ Blockchain.transaction_pool (Blockchain.adjust_difficulty self)
     = Blockchain.transaction_pool self
  /\ Blockchain.mining_reward (Blockchain.adjust_difficulty self)
     = Blockchain.mining_reward self.
Proof.
  unfold Blockchain.adjust_difficulty.
  repeat match goal with
         | |- context [if ?c then _ else _] => destruct c
         | |- context [match ?x with _ => _ end] => destruct x
         end; repeat split; reflexivity.
Qed.

Lemma get_latest_block_snoc (self : Blockchain.t) (front : list Block.t)
    (b : Block.t) :
  Blockchain.chain self = (front ++ [b])%list ->
  Blockchain.get_latest_block self = Ok b.
Proof.
  intros H. unfold Blockchain.get_latest_block.
  rewrite H, rev_app_distr. reflexivity.
Qed.

(** The state [add_block] leaves when it accepts [block]. *)
Definition appended (self : Blockchain.t) (block : Block.t) : Blockchain.t :=
  Blockchain.adjust_difficulty
    (Blockchain.set_transaction_pool
       (Blockchain.set_chain self (Blockchain.chain self ++ [block])%list)
       (TransactionPool.remove_transactions (Blockchain.transaction_pool self)
                                            (Block.transactions block))).

Lemma appended_chain (self : Blockchain.t) (block : Block.t) :
  Blockchain.chain (appended self block) = (Blockchain.chain self ++ [block])%list.
Proof.
  unfold appended. destruct (adjust_difficulty_frame
    (Blockchain.set_transaction_pool
       (Blockchain.set_chain self (Blockchain.chain self ++ [block])%list)
       (TransactionPool.remove_transactions (Blockchain.transaction_pool self)
                                            (Block.transactions block))))
    as (-> & _). reflexivity.
Qed.

Lemma appended_pool (self : Blockchain.t) (block : Block.t) :
  Blockchain.transaction_pool (appended self block)
  = TransactionPool.remove_transactions (Blockchain.transaction_pool self)
                                        (Block.transactions block).
Proof.
  unfold appended. destruct (adjust_difficulty_frame
    (Blockchain.set_transaction_pool
       (Blockchain.set_chain self (Blockchain.chain self ++ [block])%list)
       (TransactionPool.remove_transactions (Blockchain.transaction_pool self)
                                            (Block.transactions block))))
    as (_ & -> & _). reflexivity.
Qed.

Lemma add_block_accepts (self self' : Blockchain.t) (block : Block.t) :
  Blockchain.add_block self block = Ok (true, self') ->
  self' = appended self block.
Proof.
  unfold Blockchain.add_block.
  destruct (existsb _ (Blockchain.chain self)); [discriminate|].
  destruct (Blockchain._is_valid_block self block) as [[|]|e]; try discriminate.
  intros H. injection H as <-. reflexivity.
Qed.

(** C2, as amended.  On a chain that has a tip, and for a block whose
    fields have the annotated types, [add_block] returns [False] and
    leaves the node as it was when the hash of [block] is the hash of a
    block of the chain, or its index is not the length of the chain, or
    its previous hash is not the hash of the tip, or it fails [is_valid]
    at the current difficulty.  In every other case it returns [True] and
    the chain is the old chain followed by [block], the new tip. *)
Theorem add_block_spec (self : Blockchain.t) (block tip : Block.t) :
  Blockchain.get_latest_block self = Ok tip ->
  let rejected :=
    (exists existing_block,
        In existing_block (Blockchain.chain self)
        /\ Block.hash existing_block = Block.hash block)
    \/ Block.index block <> Blockchain.chain_len self
    \/ Block.previous_hash block <> Block.hash tip
    \/ Block.is_valid block (Blockchain.difficulty self) = false in
  (rejected -> Blockchain.add_block self block = Ok (false, self))
  /\ (~ rejected ->
      exists self',
        Blockchain.add_block self block = Ok (true, self')
        /\ Blockchain.chain self' = (Blockchain.chain self ++ [block])%list
        /\ Blockchain.get_latest_block self' = Ok block).
Proof.
  intros Htip rejected. subst rejected.
  unfold Blockchain.add_block, Blockchain._is_valid_block. rewrite Htip.
  destruct (existsb (fun existing_block =>
                       (Block.hash existing_block =? Block.hash block)%string)
                    (Blockchain.chain self)) eqn:Hdup.
  { split; [reflexivity|]. intros Hn. exfalso. apply Hn. left.
    apply existsb_exists in Hdup. destruct Hdup as (x & Hin & Hx).
    apply String.eqb_eq in Hx. eauto. }
  assert (Hfresh : ~ exists existing_block,
             In existing_block (Blockchain.chain self)
             /\ Block.hash existing_block = Block.hash block).
  { intros (x & Hin & Hx).
    assert (existsb (fun existing_block =>
                       (Block.hash existing_block =? Block.hash block)%string)
                    (Blockchain.chain self) = true).
    { apply existsb_exists. exists x. split; [assumption|].
      apply String.eqb_eq. assumption. }
    congruence. }
  destruct (Block.index block =? Blockchain.chain_len self) eqn:Hi; cbn [negb].
  2:{ apply Z.eqb_neq in Hi. split; [reflexivity|]. intros Hn. exfalso. tauto. }
  apply Z.eqb_eq in Hi.
  destruct (Block.previous_hash block =? Block.hash tip)%string eqn:Hp; cbn [negb].
  2:{ apply String.eqb_neq in Hp. split; [reflexivity|]. intros Hn. exfalso. tauto. }
  apply String.eqb_eq in Hp.
  destruct (Block.is_valid block (Blockchain.difficulty self)) eqn:Hv; cbn [negb].
  2:{ split; [reflexivity|]. intros Hn. exfalso. tauto. }
  split.
  - intros [H|[H|[H|H]]]; [tauto | tauto | tauto | discriminate].
  - intros _. fold (appended self block). exists (appended self block).
    split; [reflexivity|]. split; [apply appended_chain|].
    apply get_latest_block_snoc with (front := Blockchain.chain self).
    apply appended_chain.
Qed.

(** ** Pruning by signature *)

Lemma signatures_of_In (s : string) (txs : list Transaction.t) :
  In s (TransactionPool.signatures_of txs) <->
  s <> "" /\ exists t, In t txs /\ Transaction.signature t = Some s.
Proof.
  unfold TransactionPool.signatures_of. rewrite in_flat_map. split.
  - intros (t & Hin & Hs). destruct (Transaction.signature t) as [s'|] eqn:Hsig;
      [|contradiction].
    destruct (truthy_str s') eqn:Ht; [|contradiction].
    destruct Hs as [->|[]]. split; [apply truthy_str_true; assumption|eauto].
  - intros (Hne & t & Hin & Hsig). exists t. split; [assumption|].
    rewrite Hsig. apply truthy_str_true in Hne. rewrite Hne. left. reflexivity.
Qed.

(** [remove_transactions] keeps exactly the pool entries whose signature
    is not the non-empty signature of one of the given transactions. *)
Lemma remove_transactions_In (self : TransactionPool.t) (txs : list Transaction.t)
    (tx : Transaction.t) :
  In tx (TransactionPool.transactions (TransactionPool.remove_transactions self txs))
  <-> In tx (TransactionPool.transactions self)
      /\ ~ (exists s t, Transaction.signature tx = Some s /\ s <> ""
                        /\ In t txs /\ Transaction.signature t = Some s).
Proof.
  unfold TransactionPool.remove_transactions. cbn [TransactionPool.transactions].
  rewrite filter_In. unfold TransactionPool.kept.
  split; intros (Hin & Hk); (split; [assumption|]).
  - intros (s & t & Hs & Hne & Ht & Hts). rewrite Hs in Hk.
    apply negb_true_iff in Hk.
    assert (in_str s (TransactionPool.signatures_of txs) = true)
      by (apply in_str_In, signatures_of_In; eauto).
    congruence.
  - destruct (Transaction.signature tx) as [s|] eqn:Hs; [|reflexivity].
    apply negb_true_iff. destruct (in_str s (TransactionPool.signatures_of txs)) eqn:E;
      [|reflexivity].
    exfalso. apply Hk. apply in_str_In, signatures_of_In in E.
    destruct E as (Hne & t & Ht & Hts). eauto 8.
Qed.

(** C5, as amended.  After a successful [mine_pending_transactions] the
    pool is empty.  The call goes through [add_block], which accepts the
    mined block and prunes by signature: its pool keeps exactly the
    entries whose signature is not the non-empty signature of a
    transaction of the block (an entry without a signature is kept by
    that step); then [mine_pending_transactions] clears the whole pool. *)
Theorem mine_pending_transactions_pool (self self' : Blockchain.t)
    (miner_address : string) (new_block : Block.t) (w w' : World) :
  Blockchain.mine_pending_transactions self miner_address w
  = (Ok (Some new_block, self'), w') ->
  TransactionPool.transactions (Blockchain.transaction_pool self') = []
  /\ exists added,
       Blockchain.add_block self new_block = Ok (true, added)
       /\ self' = Blockchain.set_transaction_pool added
                    (TransactionPool.clear_transactions
                       (Blockchain.transaction_pool added))
       /\ forall tx,
            In tx (TransactionPool.transactions (Blockchain.transaction_pool added))
            <-> In tx (TransactionPool.transactions
                         (Blockchain.transaction_pool self))
                /\ ~ (exists s t,
                         Transaction.signature tx = Some s /\ s <> ""
                         /\ In t (Block.transactions new_block)
                         /\ Transaction.signature t = Some s).
Proof.
  unfold Blockchain.mine_pending_transactions.
  intros H.
  destruct (match TransactionPool.transactions (Blockchain.transaction_pool self)
            with [] => true | _ => false end
            && negb (miner_address =? "system")%string);
    [discriminate H|].
  apply bind_Ok in H. destruct H as (reward & w1 & _ & H). cbv zeta in H.
  apply bind_Ok in H. destruct H as (latest & w2 & _ & H).
  apply bind_Ok in H. destruct H as (built_block & w3 & _ & H).
  apply bind_Ok in H. destruct H as (mined & w4 & _ & H).
  apply bind_Ok in H. destruct H as ([result added] & w5 & Hadd & H).
  apply lift_Ok in Hadd. destruct Hadd as (Hadd & _).
  destruct result; apply ret_Ok in H; destruct H as (H & _);
    [|discriminate H].
  injection H as -> ->.
  split; [reflexivity|].
  exists added. split; [exact Hadd|]. split; [reflexivity|].
  apply add_block_accepts in Hadd. subst added.
  intros tx. rewrite appended_pool. apply remove_transactions_In.
Qed.

(** ** Replacing the chain *)

Lemma blocks_from_length (new_chain : list Block.dict) :
  forall w new_blocks w',
    Blockchain.blocks_from new_chain w = (Ok new_blocks, w') ->
    List.length new_blocks = List.length new_chain.
Proof.
  induction new_chain as [|d l IH]; intros w bs w' H; cbn [Blockchain.blocks_from] in H.
  - apply ret_Ok in H. destruct H as (-> & _). reflexivity.
  - apply bind_Ok in H. destruct H as (b & w1 & _ & H).
    apply bind_Ok in H. destruct H as (rest & w2 & Hrest & H).
    apply ret_Ok in H. destruct H as (-> & _).
    cbn [List.length]. f_equal. exact (IH _ _ _ Hrest).
Qed.

Lemma has_duplicate_hash_false (new_blocks : list Block.t) :
  forall block_hashes,
    Blockchain.has_duplicate_hash block_hashes new_blocks = false
    <-> NoDup (map Block.hash new_blocks)
        /\ forall b, In b new_blocks -> ~ In (Block.hash b) block_hashes.
Proof.
  induction new_blocks as [|b rest IH]; intros seen; cbn [Blockchain.has_duplicate_hash map].
  - split; [intros _; split; [constructor | intros ? []] | reflexivity].
  - destruct (in_str (Block.hash b) seen) eqn:Hseen.
    + apply in_str_In in Hseen. split; [discriminate|].
      intros (_ & Hall). exfalso. apply (Hall b); [left; reflexivity | assumption].
    + assert (Hnot : ~ In (Block.hash b) seen).
      { intros Hin. apply in_str_In in Hin. congruence. }
      rewrite IH. split.
      * intros (Hnd & Hall). split.
        -- constructor; [|assumption]. intros Hin. apply in_map_iff in Hin.
           destruct Hin as (b' & Hh & Hb'). apply (Hall b' Hb'). left. congruence.
        -- intros b' [<-|Hb'] Hin; [contradiction|].
           apply (Hall b' Hb'). right. assumption.
      * intros (Hnd & Hall). inversion Hnd as [|h t Hhead Htail]; subst. split.
        -- assumption.
        -- intros b' Hb' [Heq|Hin].
           ++ apply Hhead. rewrite Heq. apply in_map. assumption.
           ++ apply (Hall b'); [right; assumption | assumption].
Qed.

(** What [_is_valid_chain] checks: the first block has index 0 and a
    previous hash of 64 zeros (nothing else of it is examined), and every
    later block has its position as index, the hash of the block before
    it as previous hash, and passes [Block.is_valid] (stored hash equal to
    the recomputed one, proof of work, every transaction verified). *)
Definition fully_valid (difficulty : Z) (blocks : list Block.t) : Prop :=
  (exists first,
      nth_error blocks 0 = Some first
      /\ Block.index first = 0
      /\ Block.previous_hash first = zeros 64)
  /\ forall k previous current,
       nth_error blocks k = Some previous ->
       nth_error blocks (S k) = Some current ->
       Block.index current = Z.of_nat (S k)
       /\ Block.previous_hash current = Block.hash previous
       /\ Block.is_valid current difficulty = true.

Lemma valid_from_spec (self : Blockchain.t) (rest : list Block.t) :
  forall i previous,
    Blockchain.valid_from self i previous rest = true
    <-> forall k prev cur,
          nth_error (previous :: rest) k = Some prev ->
          nth_error (previous :: rest) (S k) = Some cur ->
          Block.index cur = i + Z.of_nat k
          /\ Block.previous_hash cur = Block.hash prev
          /\ Block.is_valid cur (Blockchain.difficulty self) = true.
Proof.
  induction rest as [|current rest IH]; intros i previous;
    cbn [Blockchain.valid_from].
  - split; [|reflexivity]. intros _ k prev cur _ H.
    destruct k; discriminate H.
  - destruct (Block.index current =? i) eqn:Hi; cbn [negb].
    2:{ split; [discriminate|]. intros H.
        destruct (H 0%nat previous current eq_refl eq_refl) as (Hidx & _).
        apply Z.eqb_neq in Hi. lia. }
    destruct (Block.previous_hash current =? Block.hash previous)%string eqn:Hp;
      cbn [negb].
    2:{ split; [discriminate|]. intros H.
        destruct (H 0%nat previous current eq_refl eq_refl) as (_ & Hprev & _).
        apply String.eqb_neq in Hp. contradiction. }
    destruct (Block.is_valid current (Blockchain.difficulty self)) eqn:Hv;
      cbn [negb].
    2:{ split; [discriminate|]. intros H.
        destruct (H 0%nat previous current eq_refl eq_refl) as (_ & _ & Hval).
        congruence. }
    apply Z.eqb_eq in Hi. apply String.eqb_eq in Hp.
    rewrite IH. split.
    + intros H [|k] prev cur Hprev Hcur.
      * injection Hprev as <-. injection Hcur as <-.
        repeat split; [lia | assumption | assumption].
      * destruct (H k prev cur Hprev Hcur) as (Hidx & Hrest). split; [lia | assumption].
    + intros H k prev cur Hprev Hcur.
      destruct (H (S k) prev cur Hprev Hcur) as (Hidx & Hrest). split; [lia | assumption].
Qed.

Lemma _is_valid_chain_spec (self : Blockchain.t) (blocks : list Block.t) :
  Blockchain._is_valid_chain self blocks = Ok true
  <-> fully_valid (Blockchain.difficulty self) blocks.
Proof.
  unfold Blockchain._is_valid_chain, fully_valid.
  destruct blocks as [|first rest].
  - split; [discriminate|]. intros ((first & H & _) & _). discriminate H.
  - destruct (Block.index first =? 0) eqn:Hi; cbn [negb orb].
    2:{ split; [discriminate|]. intros ((f & Hf & Hidx & _) & _).
        injection Hf as <-. apply Z.eqb_neq in Hi. contradiction. }
    destruct (Block.previous_hash first =? zeros 64)%string eqn:Hp; cbn [negb].
    2:{ split; [discriminate|]. intros ((f & Hf & _ & Hprev) & _).
        injection Hf as <-. apply String.eqb_neq in Hp. contradiction. }
    apply Z.eqb_eq in Hi. apply String.eqb_eq in Hp.
    split.
    + intros H. injection H as H. split; [exists first; auto|].
      intros k previous current Hprev Hcur.
      destruct (proj1 (valid_from_spec self rest 1 first) H k previous current
                      Hprev Hcur) as (Hidx & Hrest).
      split; [lia | assumption].
    + intros (_ & H). f_equal. apply valid_from_spec.
      intros k prev cur Hprev Hcur.
      destruct (H k prev cur Hprev Hcur) as (Hidx & Hrest). split; [lia | assumption].
Qed.

(** The three tests [replace_chain] makes on the deserialised blocks. *)
Definition adopts (self : Blockchain.t) (new_blocks : list Block.t) : bool :=
  negb (Blockchain.has_duplicate_hash [] new_blocks)
  && match Blockchain._is_valid_chain self new_blocks with
     | Ok valid => valid
     | Raise _ => false
     end
  && (Blockchain.chain_len self <? Z.of_nat (List.length new_blocks)).

Lemma adopts_spec (self : Blockchain.t) (new_blocks : list Block.t) :
  adopts self new_blocks = true
  <-> NoDup (map Block.hash new_blocks)
      /\ fully_valid (Blockchain.difficulty self) new_blocks
      /\ (List.length (Blockchain.chain self) < List.length new_blocks)%nat.
Proof.
  unfold adopts. rewrite !andb_true_iff, negb_true_iff, has_duplicate_hash_false,
    Z.ltb_lt, <- _is_valid_chain_spec.
  unfold Blockchain.chain_len.
  split.
  - intros (((Hnd & _) & Hv) & Hlen). split; [assumption|]. split; [|lia].
    destruct (Blockchain._is_valid_chain self new_blocks); congruence.
  - intros (Hnd & Hv & Hlen). rewrite Hv.
    repeat split; [assumption | intros b _ [] | lia].
Qed.

Lemma replace_chain_eq (self : Blockchain.t) (new_chain : list Block.dict)
    (w : World) :
  Blockchain.replace_chain self new_chain w =
  match Blockchain.blocks_from new_chain w with
  | (Ok new_blocks, w') =>
      (Ok (if adopts self new_blocks
           then (true, Blockchain.set_chain self new_blocks)
           else (false, self)), w')
  | (Raise _, w') => (Ok (false, self), w')
  end.
Proof.
  destruct new_chain as [|d l]; [reflexivity|].
  unfold Blockchain.replace_chain, try_except, bind.
  destruct (Blockchain.blocks_from (d :: l) w) as [[bs|e] w'] eqn:E;
    [|reflexivity].
  apply blocks_from_length in E.
  destruct bs as [|first rest]; [discriminate E|].
  unfold ret, lift, adopts.
  destruct (Blockchain.has_duplicate_hash [] (first :: rest)); [reflexivity|].
  cbn [negb andb]. unfold Blockchain._is_valid_chain.
  destruct (negb (Block.index first =? 0)
            || negb (Block.previous_hash first =? zeros 64)%string);
    [reflexivity|].
  destruct (Blockchain.valid_from self 1 first rest); [|reflexivity].
  cbn [negb andb]. rewrite Z.leb_antisym.
  destruct (Blockchain.chain_len self <? Z.of_nat (List.length (first :: rest)));
    reflexivity.
Qed.

(** What [replace_chain] does, on dictionaries of typed entries.  It
    returns [True] exactly when the candidate deserialises to blocks that
    have pairwise distinct hashes, pass [_is_valid_chain] at the node's
    difficulty (for the first block that is its index and its previous
    hash only, see [fully_valid]), and are strictly more than the blocks
    of the current chain; the chain is then these blocks.  In every other
    case, equal length included, it returns [False] and the node is as
    before. *)
Theorem replace_chain_spec (self : Blockchain.t) (new_chain : list Block.dict)
    (w : World) :
  exists ok self' w',
    Blockchain.replace_chain self new_chain w = (Ok (ok, self'), w')
    /\ (ok = true
        <-> exists new_blocks,
              fst (Blockchain.blocks_from new_chain w) = Ok new_blocks
              /\ NoDup (map Block.hash new_blocks)
              /\ fully_valid (Blockchain.difficulty self) new_blocks
              /\ (List.length (Blockchain.chain self) < List.length new_blocks)%nat)
    /\ (ok = true ->
        fst (Blockchain.blocks_from new_chain w) = Ok (Blockchain.chain self'))
    /\ (ok = false -> self' = self).
Proof.
  rewrite replace_chain_eq.
  destruct (Blockchain.blocks_from new_chain w) as [[bs|e] w'].
  - destruct (adopts self bs) eqn:Ha.
    + exists true, (Blockchain.set_chain self bs), w'.
      split; [reflexivity|]. split; [|split; [reflexivity | discriminate]].
      split; [|reflexivity]. intros _. exists bs.
      split; [reflexivity|]. apply adopts_spec. assumption.
    + exists false, self, w'.
      split; [reflexivity|]. split; [|split; [discriminate | reflexivity]].
      split; [discriminate|]. intros (bs' & Hbs & Hrest). cbn [fst] in Hbs.
      injection Hbs as <-. apply adopts_spec in Hrest. congruence.
  - exists false, self, w'.
    split; [reflexivity|]. split; [|split; [discriminate | reflexivity]].
    split; [discriminate|]. intros (bs' & Hbs & _). discriminate Hbs.
Qed.


(** ** The chain always has a tip *)

(** The chain of a constructed node starts with its genesis block, and no
    operation empties it; [add_block] needs that to read the tip. *)
Definition has_tip (self : Blockchain.t) : Prop := Blockchain.chain self <> [].

Lemma has_tip_latest (self : Blockchain.t) :
  has_tip self <-> exists tip, Blockchain.get_latest_block self = Ok tip.
Proof.
  unfold has_tip, Blockchain.get_latest_block. split.
  - intros Hne. destruct (rev (Blockchain.chain self)) as [|tip front] eqn:Hr.
    + exfalso. apply Hne. rewrite <- (rev_involutive (Blockchain.chain self)), Hr.
      reflexivity.
    + eauto.
  - intros (tip & H) Hnil. rewrite Hnil in H. discriminate H.
Qed.

Lemma init_has_tip {C : Config} (difficulty : Z) (w w' : World) (self : Blockchain.t) :
  Blockchain.init difficulty w = (Ok self, w') -> has_tip self.
Proof.
  rewrite Blockchain_init_eq.
  destruct (Block.mine_block genesis_template difficulty); [|discriminate].
  intros H. injection H as <- _. discriminate.
Qed.

Lemma add_block_has_tip (self self' : Blockchain.t) (block : Block.t) (r : bool) :
  has_tip self -> Blockchain.add_block self block = Ok (r, self') -> has_tip self'.
Proof.
  intros Htip H. destruct r.
  - apply add_block_accepts in H. subst self'. unfold has_tip.
    rewrite appended_chain. intros E. apply app_eq_nil in E.
    destruct E as (_ & E). discriminate E.
  - unfold Blockchain.add_block in H.
    destruct (existsb _ (Blockchain.chain self)).
    + injection H as <-. assumption.
    + destruct (Blockchain._is_valid_block self block) as [[|]|e];
        [discriminate H | injection H as <-; assumption | discriminate H].
Qed.

Lemma replace_chain_has_tip (self self' : Blockchain.t)
    (new_chain : list Block.dict) (r : bool) (w w' : World) :
  has_tip self ->
  Blockchain.replace_chain self new_chain w = (Ok (r, self'), w') ->
  has_tip self'.
Proof.
  intros Htip. rewrite replace_chain_eq.
  destruct (Blockchain.blocks_from new_chain w) as [[bs|e] w1].
  - destruct (adopts self bs) eqn:Ha; intros H; injection H as _ <- _;
      [|assumption].
    apply adopts_spec in Ha. destruct Ha as (_ & ((first & Hf & _) & _) & _).
    unfold has_tip. cbn. intros E. rewrite E in Hf. discriminate Hf.
  - intros H. injection H as _ <- _. assumption.
Qed.

Lemma mine_pending_transactions_has_tip (self self' : Blockchain.t)
    (miner_address : string) (mined : option Block.t) (w w' : World) :
  has_tip self ->
  Blockchain.mine_pending_transactions self miner_address w
  = (Ok (mined, self'), w') ->
  has_tip self'.
Proof.
  intros Htip. unfold Blockchain.mine_pending_transactions.
  destruct (match TransactionPool.transactions (Blockchain.transaction_pool self)
            with [] => true | _ => false end
            && negb (miner_address =? "system")%string).
  - intros H. apply ret_Ok in H. destruct H as (H & _).
    injection H as _ ->. assumption.
  - intros H.
    apply bind_Ok in H. destruct H as (reward & w1 & _ & H). cbv zeta in H.
    apply bind_Ok in H. destruct H as (latest & w2 & _ & H).
    apply bind_Ok in H. destruct H as (built_block & w3 & _ & H).
    apply bind_Ok in H. destruct H as (new_block & w4 & _ & H).
    apply bind_Ok in H. destruct H as ([result added] & w5 & Hadd & H).
    apply lift_Ok in Hadd. destruct Hadd as (Hadd & _).
    apply (add_block_has_tip _ _ _ _ Htip) in Hadd.
    destruct result; apply ret_Ok in H; destruct H as (H & _);
      injection H as _ ->; exact Hadd.
Qed.

(** Without a tip, [add_block] raises on a block of index 0. *)
Lemma add_block_without_tip (self : Blockchain.t) (block : Block.t) :
  Blockchain.chain self = [] -> Block.index block = 0 ->
  Blockchain.add_block self block = Raise (IndexError "list index out of range").
Proof.
  intros Hnil Hi.
  unfold Blockchain.add_block, Blockchain._is_valid_block,
    Blockchain.get_latest_block, Blockchain.chain_len.
  rewrite Hnil, Hi. reflexivity.
Qed.

End ChainFacts.

(* ================================================================== *)
(** * The peer broadcast *)
(* ================================================================== *)

Section NetworkFacts.
Context {N : DHTNode.Network}.

(** [_send_message_with_response] never raises. *)
Lemma _send_message_with_response_returns (addr : DHTNode.address)
    (message : json) (n : DHTNode.net) :
  exists response n',
    DHTNode._send_message_with_response addr message n = (Ok response, n').
Proof.
  unfold DHTNode._send_message_with_response.
  destruct (DHTNode.exchange n addr message) as [[| | |data] n']; eauto.
  destruct (truthy_str data); eauto.
  destruct (DHTNode.json_loads data) as [[]|]; eauto.
Qed.

(** So the handler of [broadcast_block] that removes a peer is never
    entered: the loop returns the node it was given. *)
Lemma broadcast_loop_keeps_node (message : json)
    (items : list (string * DHTNode.address)) :
  forall (self : DHTNode.t) (success_count : Z) (n : DHTNode.net),
    snd (fst (DHTNode.broadcast_loop self message items success_count n)) = self.
Proof.
  induction items as [|[node_id addr] rest IH]; intros self success_count n;
    cbn [DHTNode.broadcast_loop].
  - reflexivity.
  - destruct (negb (node_id =? DHTNode.id self)%string); [|apply IH].
    destruct (_send_message_with_response_returns addr message n)
      as (response & n' & ->).
    destruct (DHTNode.acknowledged response); apply IH.
Qed.

Lemma broadcast_block_keeps_routing_table (self : DHTNode.t) (block : Block.t)
    (n : DHTNode.net) :
  DHTNode.routing_table (snd (fst (DHTNode.broadcast_block self block n)))
  = DHTNode.routing_table self.
Proof.
  unfold DHTNode.broadcast_block. rewrite broadcast_loop_keeps_node. reflexivity.
Qed.

End NetworkFacts.

(* ================================================================== *)
(** * Transactions: validation and signing *)
(* ================================================================== *)

(** An amount the constructor accepts: positive, not below [MIN_AMOUNT]
    and not above [MAX_AMOUNT].  A NaN is not positive. *)
Definition within_bounds (a : float) : Prop :=
  PrimFloat.ltb 0 a = true
  /\ PrimFloat.ltb a Transaction.MIN_AMOUNT = false
  /\ PrimFloat.ltb Transaction.MAX_AMOUNT a = false.

Lemma positive_float (a : float) :
  PrimFloat.ltb 0 a = true
  <-> PrimFloat.is_nan a = false /\ PrimFloat.leb a 0 = false.
Proof.
  unfold PrimFloat.is_nan. rewrite FloatAxioms.ltb_spec, FloatAxioms.leb_spec, FloatAxioms.eqb_spec.
  change (Prim2SF 0) with (S754_zero false).
  destruct (Prim2SF a) as [s|s| |s m e]; try destruct s; cbn;
    try rewrite Pos.compare_refl; try rewrite Z.compare_refl; cbn;
    intuition discriminate.
Qed.

Lemma checked_amount_Ok (a b : float) :
  Transaction.checked_amount a = Ok b -> b = a /\ within_bounds a.
Proof.
  unfold Transaction.checked_amount, within_bounds.
  destruct (PrimFloat.is_nan a) eqn:Hnan; [discriminate|].
  destruct (PrimFloat.leb a 0) eqn:Hle; [discriminate|].
  destruct (PrimFloat.ltb a Transaction.MIN_AMOUNT); [discriminate|].
  destruct (PrimFloat.ltb Transaction.MAX_AMOUNT a); [discriminate|].
  intros H. injection H as <-.
  split; [reflexivity|]. split; [|split; reflexivity].
  apply positive_float. split; assumption.
Qed.

Lemma checked_amount_within (a : float) :
  within_bounds a -> Transaction.checked_amount a = Ok a.
Proof.
  intros (Hpos & Hmin & Hmax). apply positive_float in Hpos.
  destruct Hpos as (Hnan & Hle).
  unfold Transaction.checked_amount. now rewrite Hnan, Hle, Hmin, Hmax.
Qed.

Lemma checked_amount_Raise (a : float) (e : exn) :
  Transaction.checked_amount a = Raise e -> ~ within_bounds a.
Proof.
  intros H Hin. apply checked_amount_within in Hin. congruence.
Qed.

(** What [Transaction.__init__] does on each input. *)
Lemma Transaction_init_eq sender recipient amount timestamp signature w :
  Transaction.init sender recipient amount timestamp signature w =
  if negb (truthy_str sender)
  then (Raise (ValueError "Sender must be a valid string"), w)
  else if negb (truthy_str recipient)
  then (Raise (ValueError "Recipient must be a valid string"), w)
  else match Transaction.checked_amount amount with
       | Raise _ => (Raise (ValueError "Invalid amount format"), w)
       | Ok a => (Ok (Transaction.mk sender recipient a (stamp timestamp w) signature),
                  after_stamp timestamp w)
       end.
Proof.
  unfold Transaction.init.
  destruct (negb (truthy_str sender)); [reflexivity|].
  destruct (negb (truthy_str recipient)); [reflexivity|].
  destruct (Transaction.checked_amount amount); [|reflexivity].
  unfold bind. rewrite or_now_eq. reflexivity.
Qed.

Section TransactionFacts.
Context {L : Library}.

(** X1.  [Transaction.__init__] raises exactly when the sender or the
    recipient is empty or the amount is not within the bounds; the error
    is a [ValueError] and the clock has not been read.  Otherwise it
    returns the transaction of its arguments, stamped with the given
    timestamp or, when that one is absent or zero, with one reading of
    the clock. *)
Theorem Transaction_init_checks (sender recipient : string) (amount : float)
    (timestamp : option float) (signature : option string) (w : World) :
  match Transaction.init sender recipient amount timestamp signature w with
  | (Raise e, w') =>
      (sender = "" \/ recipient = "" \/ ~ within_bounds amount)
      /\ (exists msg, e = ValueError msg) /\ w' = w
  | (Ok tx, w') =>
      (sender <> "" /\ recipient <> "" /\ within_bounds amount)
      /\ tx = Transaction.mk sender recipient amount (stamp timestamp w) signature
      /\ w' = after_stamp timestamp w
  end.
Proof.
  rewrite Transaction_init_eq.
  destruct (truthy_str sender) eqn:Hs; cbn [negb].
  2:{ split; [left|split; [eauto|reflexivity]].
      unfold truthy_str in Hs. apply negb_false_iff in Hs.
      now apply String.eqb_eq in Hs. }
  destruct (truthy_str recipient) eqn:Hr; cbn [negb].
  2:{ split; [right; left|split; [eauto|reflexivity]].
      unfold truthy_str in Hr. apply negb_false_iff in Hr.
      now apply String.eqb_eq in Hr. }
  apply truthy_str_true in Hs, Hr.
  destruct (Transaction.checked_amount amount) as [a|e] eqn:Ha.
  - apply checked_amount_Ok in Ha. destruct Ha as (-> & Hin).
    repeat split; try assumption; apply Hin.
  - apply checked_amount_Raise in Ha.
    split; [right; right; exact Ha|split; [eauto|reflexivity]].
Qed.

(** X2.  For a dictionary whose entries have the annotated types (the
    parties and the signature strings, the amount and the timestamp
    floats; a JSON integer too large for [float()] is outside them):
    [Transaction.from_dict] reads the sender from ['sender'] or,
    when that entry is absent or empty, from ['from'], and the recipient
    from ['recipient'] or ['to'].  What it returns has a non-empty sender
    and recipient, the amount of the dictionary, within the bounds, and
    the signature of the dictionary.  It raises exactly when a party or
    the amount is missing or the amount is out of bounds, always a
    [ValueError], without reading the clock. *)
Theorem Transaction_from_dict_checks (data : Transaction.dict) (w : World) :
  let sender := or_str (Transaction.k_sender data) (Transaction.k_from data) in
  let recipient := or_str (Transaction.k_recipient data) (Transaction.k_to data) in
  match Transaction.from_dict data w with
  | (Ok tx, w') =>
      sender = Some (Transaction.sender tx) /\ Transaction.sender tx <> ""
      /\ recipient = Some (Transaction.recipient tx)
      /\ Transaction.recipient tx <> ""
      /\ Transaction.k_amount data = Some (Transaction.amount tx)
      /\ within_bounds (Transaction.amount tx)
      /\ Transaction.timestamp tx = stamp (Transaction.k_timestamp data) w
      /\ Transaction.signature tx = Transaction.k_signature data
      /\ w' = after_stamp (Transaction.k_timestamp data) w
  | (Raise e, w') =>
      (truthy_opt truthy_str sender = false
       \/ truthy_opt truthy_str recipient = false
       \/ Transaction.k_amount data = None
       \/ exists a, Transaction.k_amount data = Some a /\ ~ within_bounds a)
      /\ (exists msg, e = ValueError msg) /\ w' = w
  end.
Proof.
  intros sender recipient. unfold Transaction.from_dict.
  fold sender. fold recipient.
  destruct sender as [s|]; [|split; [left; reflexivity|split; [eauto|reflexivity]]].
  destruct recipient as [r|];
    [|split; [right; left; reflexivity|split; [eauto|reflexivity]]].
  cbn [truthy_opt].
  destruct (truthy_str s) eqn:Hs; cbn [negb orb];
    [|split; [left; reflexivity|split; [eauto|reflexivity]]].
  destruct (truthy_str r) eqn:Hr; cbn [negb];
    [|split; [right; left; reflexivity|split; [eauto|reflexivity]]].
  destruct (Transaction.k_amount data) as [a|];
    [|split; [right; right; left; reflexivity|split; [eauto|reflexivity]]].
  unfold try_except.
  destruct (PrimFloat.is_nan a) eqn:Hnan.
  { cbn. split; [|split; [eauto|reflexivity]].
    right; right; right. exists a. split; [reflexivity|].
    intros (Hpos & _). apply positive_float in Hpos. destruct Hpos; congruence. }
  destruct (PrimFloat.leb a 0) eqn:Hle.
  { cbn. split; [|split; [eauto|reflexivity]].
    right; right; right. exists a. split; [reflexivity|].
    intros (Hpos & _). apply positive_float in Hpos. destruct Hpos; congruence. }
  rewrite Transaction_init_eq, Hs, Hr. cbn [negb].
  destruct (Transaction.checked_amount a) as [b|e] eqn:Ha.
  - apply checked_amount_Ok in Ha. destruct Ha as (-> & Hin).
    apply truthy_str_true in Hs, Hr. cbn.
    repeat split; try assumption; apply Hin.
  - apply checked_amount_Raise in Ha. cbn.
    split; [|split; [eauto|reflexivity]].
    right; right; right. exists a. split; [reflexivity|exact Ha].
Qed.

(** The signature is not part of what is signed. *)
Lemma signing_hash_signature (s r : string) (a ts : float) (sig sig' : option string) :
  Transaction.signing_hash (Transaction.mk s r a ts sig)
  = Transaction.signing_hash (Transaction.mk s r a ts sig').
Proof. reflexivity. Qed.

Context {S : Signer}.

(** X3.  Signing then verifying.  Let the amount of [tx] be within the
    bounds, and let the RSA library accept, for the sender of [tx], the
    signature it produces with [key] on the signing hash of [tx], that
    signature being non-empty.  Then the transaction [tx.sign(key)]
    leaves passes [verify]; signing changes the signature only, and the
    signing hash is the same before and after, so signing again gives the
    same transaction. *)
Theorem sign_then_verify (tx tx' : Transaction.t) (key : private_key) :
  within_bounds (Transaction.amount tx) ->
  (forall sig, rsa_sign key (Transaction.signing_hash tx) = inl sig ->
               sig <> ""
               /\ rsa_verify (Transaction.sender tx) (Transaction.signing_hash tx) sig
                  = true) ->
  Transaction.sign tx key = Ok tx' ->
  Transaction.verify tx' = true
  /\ Transaction.sender tx' = Transaction.sender tx
  /\ Transaction.recipient tx' = Transaction.recipient tx
  /\ Transaction.amount tx' = Transaction.amount tx
  /\ Transaction.timestamp tx' = Transaction.timestamp tx
  /\ Transaction.signing_hash tx' = Transaction.signing_hash tx
  /\ Transaction.sign tx' key = Ok tx'.
Proof.
  intros Hin Hrsa. unfold Transaction.sign.
  destruct (Transaction.sender tx =? "system")%string eqn:Hsys.
  - intros H. injection H as <-.
    unfold Transaction.verify. rewrite Hsys. repeat split; reflexivity.
  - destruct (rsa_sign key (Transaction.signing_hash tx)) as [sig|msg] eqn:Hsig;
      [|discriminate].
    intros H. injection H as <-.
    destruct (Hrsa sig eq_refl) as (Hne & Hok).
    destruct tx as [s r a ts old]. cbn in *.
    rewrite Hsys.
    rewrite (signing_hash_signature s r a ts (Some sig) old), Hsig.
    repeat split; try reflexivity.
    unfold Transaction.verify. cbn. rewrite Hsys.
    apply truthy_str_true in Hne. rewrite Hne. cbn [negb].
    rewrite (checked_amount_within a Hin).
    rewrite (signing_hash_signature s r a ts (Some sig) old). exact Hok.
Qed.

End TransactionFacts.

(* ================================================================== *)
(** * Blocks: deserialisation and validity *)
(* ================================================================== *)

Section BlockChecks.
Context {L : Library}.

(** X4.  For a dictionary whose entries have the annotated types (an
    integer index and nonce, string hashes, a float timestamp, and under
    ['transactions'] a list of dictionaries of typed entries):
    [Block.from_dict] raises exactly when one of the six keys is
    missing, the index is negative or the previous hash does not have 64
    characters, and what it raises is a [ValueError]; a transaction entry
    that does not deserialise is no error.  What it returns has the
    index, previous hash and nonce of the dictionary, the transactions
    that deserialise, and the hash of the dictionary or, when that one is
    [None] or empty, the hash it computes. *)
Theorem Block_from_dict_checks (data : Block.dict) (w : World) :
  match Block.from_dict data w with
  | (Ok b, w') =>
      Block.k_index data = Some (Block.index b) /\ 0 <= Block.index b
      /\ Block.k_previous_hash data = Some (Block.previous_hash b)
      /\ len (Block.previous_hash b) = 64
      /\ Block.k_nonce data = Some (Block.nonce b)
      /\ (exists l, Block.k_transactions data = Some l
                    /\ fst (Block.transactions_from l w) = Ok (Block.transactions b))
      /\ (exists h, Block.k_hash data = Some h
                    /\ Block.hash b = if truthy_opt truthy_str h
                                      then match h with Some s => s | None => "" end
                                      else Block.calculate_hash b)
      /\ Block.k_timestamp data <> None
  | (Raise e, w') =>
      (Block.k_index data = None \/ Block.k_timestamp data = None
       \/ Block.k_previous_hash data = None \/ Block.k_hash data = None
       \/ Block.k_nonce data = None \/ Block.k_transactions data = None
       \/ (exists i, Block.k_index data = Some i /\ i < 0)
       \/ (exists p, Block.k_previous_hash data = Some p /\ len p <> 64))
      /\ exists msg, e = ValueError msg
  end.
Proof.
  unfold Block.from_dict.
  destruct (Block.k_index data) as [i|]; [|split; [tauto|eauto]].
  destruct (Block.k_timestamp data) as [ts|]; [|split; [tauto|eauto]].
  destruct (Block.k_previous_hash data) as [p|]; [|split; [tauto|eauto]].
  destruct (Block.k_hash data) as [h|]; [|split; [tauto|eauto]].
  destruct (Block.k_nonce data) as [n|]; [|split; [tauto|eauto]].
  destruct (Block.k_transactions data) as [l|]; [|split; [tauto|eauto]].
  unfold bind.
  destruct (transactions_from_ok l w) as (txs & w1 & Htxs). rewrite Htxs.
  rewrite Block_init_eq.
  destruct (i <? 0) eqn:Hi.
  { apply Z.ltb_lt in Hi. split; [|eauto].
    do 6 right. left. eauto. }
  apply Z.ltb_ge in Hi.
  destruct (len p =? 64) eqn:Hp; cbn [negb].
  2:{ apply Z.eqb_neq in Hp. split; [|eauto]. do 7 right. eauto. }
  apply Z.eqb_eq in Hp.
  unfold built. cbn.
  repeat split; try assumption; try reflexivity; try discriminate.
  - exists l. split; [reflexivity|]. rewrite Htxs. reflexivity.
  - exists h. split; reflexivity.
Qed.

(** X5.  A block [mine_block] returns at difficulty [difficulty] passes
    [is_valid] at that difficulty and at every lower one, provided each of
    its transactions verifies: the stored hash is the hash of the content
    and starts with the zeros asked for. *)
Theorem mined_block_is_valid (self b : Block.t) (difficulty : Z) :
  Block.mine_block self difficulty = Ok b ->
  (forall tx, In tx (Block.transactions self) -> Transaction.verify tx = true) ->
  forall d, d <= difficulty -> Block.is_valid b d = true.
Proof.
  intros Hmine Hverify d Hd.
  apply mine_block_Ok in Hmine.
  destruct Hmine as (Hhash & Hprefix & _ & _ & _ & Htxs & _).
  apply is_valid_spec. split; [exact Hhash|]. split.
  - apply prefix_zeros in Hprefix. lia.
  - rewrite Htxs. exact Hverify.
Qed.

Lemma is_valid_lower (b : Block.t) (d d' : Z) :
  d' <= d -> Block.is_valid b d = true -> Block.is_valid b d' = true.
Proof.
  intros Hd H. apply is_valid_spec in H. apply is_valid_spec.
  destruct H as (Hhash & Hzeros & Htxs). repeat split; [exact Hhash|lia|exact Htxs].
Qed.

(** X6.  Validity is monotone in the difficulty: a block valid at one
    difficulty is valid at every lower one, and so is a chain, so a node
    accepts every block and every chain a node of higher difficulty
    with the same tip accepts. *)
Theorem validity_lower_difficulty (self self' : Blockchain.t) :
  Blockchain.difficulty self' <= Blockchain.difficulty self ->
  (forall b, Block.is_valid b (Blockchain.difficulty self) = true ->
             Block.is_valid b (Blockchain.difficulty self') = true)
  /\ (forall blocks, Blockchain._is_valid_chain self blocks = Ok true ->
                     Blockchain._is_valid_chain self' blocks = Ok true)
  /\ (Blockchain.chain self' = Blockchain.chain self ->
      forall block, Blockchain._is_valid_block self block = Ok true ->
                    Blockchain._is_valid_block self' block = Ok true).
Proof.
  intros Hd. split; [|split].
  - intros b. apply is_valid_lower. exact Hd.
  - intros blocks H. apply _is_valid_chain_spec in H. apply _is_valid_chain_spec.
    destruct H as (Hfirst & Hrest). split; [exact Hfirst|].
    intros k previous current Hp Hc.
    destruct (Hrest k previous current Hp Hc) as (Hi & Hl & Hv).
    repeat split; [exact Hi|exact Hl|].
    revert Hv. apply is_valid_lower. exact Hd.
  - intros Hchain block. unfold Blockchain._is_valid_block, Blockchain.chain_len,
      Blockchain.get_latest_block. rewrite Hchain.
    destruct (negb (Block.index block
                    =? Z.of_nat (List.length (Blockchain.chain self))));
      [discriminate|].
    destruct (rev (Blockchain.chain self)) as [|latest ?]; [discriminate|].
    destruct (negb (Block.previous_hash block =? Block.hash latest)%string);
      [discriminate|].
    destruct (Block.is_valid block (Blockchain.difficulty self)) eqn:Hv;
      [|discriminate].
    rewrite (is_valid_lower _ _ _ Hd Hv). reflexivity.
Qed.

End BlockChecks.

(* ================================================================== *)
(** * The transaction pool: capacity, content and serialisation *)
(* ================================================================== *)

(** No two transactions of the list agree on sender, recipient, amount
    and timestamp. *)
Fixpoint distinct_transfers (l : list Transaction.t) : Prop :=
  match l with
  | [] => True
  | tx :: rest =>
      (forall later, In later rest -> TransactionPool.same_transfer tx later = false)
      /\ distinct_transfers rest
  end.

Lemma distinct_transfers_app (l1 l2 : list Transaction.t) :
  distinct_transfers (l1 ++ l2)
  <-> distinct_transfers l1 /\ distinct_transfers l2
      /\ forall a b, In a l1 -> In b l2 -> TransactionPool.same_transfer a b = false.
Proof.
  induction l1 as [|tx l1 IH]; cbn [app distinct_transfers].
  - split; [intros H; repeat split; [exact H|intros a b []]|tauto].
  - rewrite IH. split.
    + intros (Hlater & H1 & H2 & Hcross). repeat split; try assumption.
      * intros later Hin. apply Hlater, in_or_app. now left.
      * intros a b [<-|Ha] Hb; [apply Hlater, in_or_app; now right|].
        now apply Hcross.
    + intros ((Hlater & H1) & H2 & Hcross). repeat split; try assumption.
      * intros later Hin. apply in_app_or in Hin. destruct Hin as [Hin|Hin];
          [now apply Hlater|apply Hcross; [now left|exact Hin]].
      * intros a b Ha Hb. apply Hcross; [now right|exact Hb].
Qed.

Lemma distinct_transfers_filter (f : Transaction.t -> bool) (l : list Transaction.t) :
  distinct_transfers l -> distinct_transfers (filter f l).
Proof.
  induction l as [|tx l IH]; cbn [filter distinct_transfers]; [trivial|].
  intros (Hlater & Hrest). destruct (f tx); cbn [distinct_transfers]; [|auto].
  split; [|auto]. intros later Hin. apply filter_In in Hin. now apply Hlater.
Qed.

Section PoolInvariants.
Context {L : Library}.

(** What a pool holds when every entry came in through
    [add_transaction]: transactions that verify, no two of them the same
    transfer. *)
Definition sound_pool (pool : TransactionPool.t) : Prop :=
  (forall tx, In tx (TransactionPool.transactions pool) ->
              Transaction.verify tx = true)
  /\ distinct_transfers (TransactionPool.transactions pool).

(** [add_transaction] either appends the converted transaction or leaves
    the pool as it was. *)
Lemma add_transaction_cases (self : TransactionPool.t)
    (transaction : Transaction.dict + Transaction.t) (w : World) :
  (exists tx w',
      TransactionPool.add_transaction self transaction w
      = (true, TransactionPool.mk (TransactionPool.transactions self ++ [tx])%list
                                  (TransactionPool.max_size self), w')
      /\ converted transaction w = Ok tx
      /\ Transaction.verify tx = true
      /\ (forall old, In old (TransactionPool.transactions self) ->
                      TransactionPool.same_transfer old tx = false)
      /\ Z.of_nat (List.length (TransactionPool.transactions self))
         < TransactionPool.max_size self)
  \/ (exists w', TransactionPool.add_transaction self transaction w = (false, self, w')).
Proof.
  unfold TransactionPool.add_transaction, TransactionPool.add_transaction_log, converted.
  destruct (TransactionPool.max_size self
            <=? Z.of_nat (List.length (TransactionPool.transactions self))) eqn:Hfull;
    [right; eauto|].
  apply Z.leb_gt in Hfull.
  destruct (match transaction with
            | inl data => Transaction.from_dict data w
            | inr tx => (Ok tx, w)
            end) as [[tx|e] w'] eqn:Hconv; [|right; eauto].
  destruct (Transaction.verify tx) eqn:Hv; cbn [negb]; [|right; eauto].
  destruct (existsb (fun old => TransactionPool.same_transfer old tx)
                    (TransactionPool.transactions self)) eqn:Hdup; [right; eauto|].
  left. exists tx, w'. split; [reflexivity|].
  split; [destruct transaction; [rewrite Hconv; reflexivity|congruence]|].
  split; [exact Hv|]. split; [|exact Hfull].
  intros old Hin.
  destruct (TransactionPool.same_transfer old tx) eqn:Hsame; [|reflexivity].
  assert (existsb (fun old => TransactionPool.same_transfer old tx)
                  (TransactionPool.transactions self) = true)
    by (apply existsb_exists; eauto).
  congruence.
Qed.

(** X7.  The capacity of the pool.  [add_transaction] never changes
    [max_size]; a pool within its capacity stays within it; a pool at or
    over its capacity takes nothing, whatever is offered, and does not
    even convert the transaction.  A refused transaction leaves the pool
    as it was, an accepted one is appended at the end. *)
Theorem add_transaction_capacity (self : TransactionPool.t)
    (transaction : Transaction.dict + Transaction.t) (w : World) :
  match TransactionPool.add_transaction self transaction w with
  | (r, self', w') =>
      TransactionPool.max_size self' = TransactionPool.max_size self
      /\ (Z.of_nat (List.length (TransactionPool.transactions self))
          <= TransactionPool.max_size self ->
          Z.of_nat (List.length (TransactionPool.transactions self'))
          <= TransactionPool.max_size self)
      /\ (TransactionPool.max_size self
          <= Z.of_nat (List.length (TransactionPool.transactions self)) ->
          r = false /\ w' = w)
      /\ (r = false -> self' = self)
      /\ (r = true ->
          exists tx, converted transaction w = Ok tx
                     /\ TransactionPool.transactions self'
                        = (TransactionPool.transactions self ++ [tx])%list)
  end.
Proof.
  destruct (add_transaction_cases self transaction w)
    as [(tx & w' & -> & Hconv & _ & _ & Hroom) | (w' & Hrefused)].
  - cbn. split; [reflexivity|]. split; [intros _; rewrite length_app; cbn; lia|].
    split; [lia|]. split; [discriminate|]. intros _. eauto.
  - pose proof Hrefused as Hrun. rewrite Hrefused.
    split; [reflexivity|]. split; [tauto|]. split; [|split; [reflexivity|discriminate]].
    intros Hfull. split; [reflexivity|].
    unfold TransactionPool.add_transaction, TransactionPool.add_transaction_log in Hrun.
    apply Z.leb_le in Hfull. rewrite Hfull in Hrun. congruence.
Qed.

Lemma add_transaction_sound (self : TransactionPool.t)
    (transaction : Transaction.dict + Transaction.t) (w : World) :
  sound_pool self ->
  sound_pool (snd (fst (TransactionPool.add_transaction self transaction w))).
Proof.
  intros (Hverify & Hdistinct).
  destruct (add_transaction_cases self transaction w)
    as [(tx & w' & -> & _ & Hv & Hnew & _) | (w' & ->)]; [|split; assumption].
  cbn. split.
  - intros t Hin. apply in_app_or in Hin. destruct Hin as [Hin|[<-|[]]]; auto.
  - apply distinct_transfers_app. split; [exact Hdistinct|]. split.
    + cbn. split; [intros later []|exact I].
    + intros a b Ha [<-|[]]. now apply Hnew.
Qed.

Lemma add_all_sound (l : list Transaction.dict) :
  forall (pool : TransactionPool.t) (w : World),
    sound_pool pool -> sound_pool (fst (TransactionPool.add_all pool l w)).
Proof.
  induction l as [|tx_data l IH]; intros pool w Hpool; cbn [TransactionPool.add_all];
    [exact Hpool|].
  destruct (Transaction.from_dict tx_data w) as [[tx|e] w1]; [|now apply IH].
  pose proof (add_transaction_sound pool (inr tx) w1 Hpool) as Hnext.
  destruct (TransactionPool.add_transaction pool (inr tx) w1) as [[r pool'] w2].
  now apply IH.
Qed.

Lemma pool_stays_sound_init_from_dict (C : Config) :
  sound_pool (TransactionPool.init MAX_TRANSACTION_POOL_SIZE)
  /\ forall data w, sound_pool (fst (TransactionPool.from_dict data w)).
Proof.
  assert (Hinit : forall max_size, sound_pool (TransactionPool.init max_size))
    by (intros; split; [intros tx []|exact I]).
  split; [apply Hinit|].
  intros data w. unfold TransactionPool.from_dict.
  destruct (TransactionPool.k_transactions data) as [l|]; [|apply Hinit].
  apply add_all_sound, Hinit.
Qed.

(** X8.  What the pool holds.  A new pool is sound (its transactions
    verify and no two are the same transfer), and [add_transaction],
    [remove_transactions] and [clear_transactions] keep it sound; the pool
    [from_dict] builds is sound whatever the dictionary holds. *)
Theorem pool_stays_sound :
  (forall max_size, sound_pool (TransactionPool.init max_size))
  /\ (forall self transaction w,
         sound_pool self ->
         sound_pool (snd (fst (TransactionPool.add_transaction self transaction w))))
  /\ (forall self txs,
         sound_pool self -> sound_pool (TransactionPool.remove_transactions self txs))
  /\ (forall self, sound_pool (TransactionPool.clear_transactions self))
  /\ (forall (C : Config) data w, sound_pool (fst (TransactionPool.from_dict data w))).
Proof.
  assert (Hinit : forall max_size, sound_pool (TransactionPool.init max_size))
    by (intros; split; [intros tx []|exact I]).
  split; [exact Hinit|]. split; [exact add_transaction_sound|]. split; [|split].
  - intros self txs (Hverify & Hdistinct). split; cbn.
    + intros tx Hin. apply filter_In in Hin. now apply Hverify.
    + now apply distinct_transfers_filter.
  - intros self. split; [intros tx []|exact I].
  - intros C data w. unfold TransactionPool.from_dict.
    destruct (TransactionPool.k_transactions data) as [l|]; [|apply Hinit].
    apply add_all_sound, Hinit.
Qed.

Lemma filter_all {A} (f : A -> bool) (l : list A) :
  (forall x, In x l -> f x = true) -> filter f l = l.
Proof.
  induction l as [|x l IH]; cbn [filter]; [reflexivity|].
  intros H. rewrite (H x (or_introl eq_refl)). f_equal. apply IH.
  intros y Hy. apply H. now right.
Qed.

Lemma filter_twice {A} (f : A -> bool) (l : list A) :
  filter f (filter f l) = filter f l.
Proof.
  apply filter_all. intros x Hx. now apply filter_In in Hx.
Qed.

(** X9.  [remove_transactions] goes by signature only.  Removing
    transactions none of which carries a (non-empty) signature removes
    nothing; removing the same transactions twice is removing them once;
    and whatever is removed, a pool entry without a signature stays, and
    [max_size] is unchanged. *)
Theorem remove_transactions_by_signature (self : TransactionPool.t)
    (txs : list Transaction.t) :
  ((forall tx, In tx txs ->
               truthy_opt truthy_str (Transaction.signature tx) = false) ->
   TransactionPool.remove_transactions self txs = self)
  /\ TransactionPool.remove_transactions
       (TransactionPool.remove_transactions self txs) txs
     = TransactionPool.remove_transactions self txs
  /\ (forall tx, In tx (TransactionPool.transactions self) ->
                 truthy_opt truthy_str (Transaction.signature tx) = false ->
                 In tx (TransactionPool.transactions
                          (TransactionPool.remove_transactions self txs)))
  /\ TransactionPool.max_size (TransactionPool.remove_transactions self txs)
     = TransactionPool.max_size self.
Proof.
  split; [|split; [|split; [|reflexivity]]].
  - intros Hunsigned. unfold TransactionPool.remove_transactions.
    assert (Hnone : TransactionPool.signatures_of txs = []).
    { unfold TransactionPool.signatures_of.
      induction txs as [|tx txs IH]; [reflexivity|]. cbn [flat_map].
      rewrite IH by (intros t Ht; apply Hunsigned; now right).
      specialize (Hunsigned tx (or_introl eq_refl)).
      destruct (Transaction.signature tx) as [s|]; [|reflexivity].
      cbn in Hunsigned. rewrite Hunsigned. reflexivity. }
    rewrite Hnone, filter_all.
    + now destruct self.
    + intros tx _. unfold TransactionPool.kept.
      now destruct (Transaction.signature tx).
  - unfold TransactionPool.remove_transactions. cbn. now rewrite filter_twice.
  - intros tx Hin Hunsigned. apply remove_transactions_In. split; [exact Hin|].
    intros (s & t & Hs & Hne & _). rewrite Hs in Hunsigned. cbn in Hunsigned.
    apply truthy_str_true in Hne. congruence.
Qed.

Lemma add_all_round_trip (l : list Transaction.t) :
  forall (pool : TransactionPool.t) (w : World),
    (forall tx, In tx l -> round_trips tx /\ Transaction.verify tx = true) ->
    distinct_transfers (TransactionPool.transactions pool ++ l) ->
    Z.of_nat (List.length (TransactionPool.transactions pool ++ l))
    <= TransactionPool.max_size pool ->
    TransactionPool.add_all pool (map Transaction.to_dict l) w
    = (TransactionPool.mk (TransactionPool.transactions pool ++ l)%list
                          (TransactionPool.max_size pool), w).
Proof.
  induction l as [|tx l IH]; intros pool w Hl Hdistinct Hroom.
  - cbn. rewrite app_nil_r. now destruct pool.
  - cbn [map TransactionPool.add_all].
    destruct (Hl tx (or_introl eq_refl)) as (Hrt & Hv).
    rewrite (Transaction_round_trip_id tx w Hrt).
    assert (Hadd : TransactionPool.add_transaction pool (inr tx) w
                   = (true, TransactionPool.mk
                              (TransactionPool.transactions pool ++ [tx])%list
                              (TransactionPool.max_size pool), w)).
    { destruct (add_transaction_cases pool (inr tx) w)
        as [(tx' & w' & Hrun & Hconv & _) | (w' & Hrun)].
      - cbn in Hconv. injection Hconv as <-. rewrite Hrun.
        unfold TransactionPool.add_transaction, TransactionPool.add_transaction_log
          in Hrun.
        destruct (TransactionPool.max_size pool
                  <=? Z.of_nat (List.length (TransactionPool.transactions pool)));
          [discriminate|].
        destruct (negb (Transaction.verify tx)); [discriminate|].
        destruct (existsb _ _); [discriminate|].
        injection Hrun as <-. reflexivity.
      - exfalso.
        unfold TransactionPool.add_transaction, TransactionPool.add_transaction_log
          in Hrun.
        rewrite length_app in Hroom. cbn [List.length] in Hroom.
        destruct (TransactionPool.max_size pool
                  <=? Z.of_nat (List.length (TransactionPool.transactions pool)))
                 eqn:Hfull; [apply Z.leb_le in Hfull; lia|].
        rewrite Hv in Hrun. cbn [negb] in Hrun.
        destruct (existsb (fun old => TransactionPool.same_transfer old tx)
                          (TransactionPool.transactions pool)) eqn:Hdup;
          [|discriminate].
        apply existsb_exists in Hdup. destruct Hdup as (old & Hin & Hsame).
        apply distinct_transfers_app in Hdistinct.
        destruct Hdistinct as (_ & _ & Hcross).
        rewrite (Hcross old tx Hin (or_introl eq_refl)) in Hsame. discriminate. }
    rewrite Hadd.
    rewrite IH.
    + cbn. now rewrite <- app_assoc.
    + intros t Ht. apply Hl. now right.
    + cbn. now rewrite <- app_assoc.
    + cbn. now rewrite <- app_assoc.
Qed.

Lemma pool_round_trip {C : Config} (self : TransactionPool.t) (w : World) :
  sound_pool self ->
  (forall tx, In tx (TransactionPool.transactions self) -> round_trips tx) ->
  Z.of_nat (List.length (TransactionPool.transactions self))
  <= MAX_TRANSACTION_POOL_SIZE ->
  TransactionPool.from_dict (TransactionPool.to_dict self) w
  = (TransactionPool.mk (TransactionPool.transactions self) MAX_TRANSACTION_POOL_SIZE,
     w).
Proof.
  intros (Hverify & Hdistinct) Hrt Hroom.
  unfold TransactionPool.from_dict, TransactionPool.to_dict. cbn.
  rewrite add_all_round_trip; [reflexivity| |exact Hdistinct|exact Hroom].
  intros tx Hin. split; [now apply Hrt|now apply Hverify].
Qed.

(** X10.  The pool round trip.  For a sound pool of at most
    [MAX_TRANSACTION_POOL_SIZE] transactions, each of which deserialises
    from its own dictionary (nonzero timestamp, signature absent or
    non-empty), [TransactionPool.from_dict(pool.to_dict())] holds the same
    transactions in the same order, without reading the clock; its
    [max_size] is the configured one, whatever that of the pool was. *)
Theorem TransactionPool_from_dict_to_dict {C : Config} (self : TransactionPool.t)
    (w : World) :
  sound_pool self ->
  (forall tx, In tx (TransactionPool.transactions self) -> round_trips tx) ->
  Z.of_nat (List.length (TransactionPool.transactions self))
  <= MAX_TRANSACTION_POOL_SIZE ->
  TransactionPool.from_dict (TransactionPool.to_dict self) w
  = (TransactionPool.mk (TransactionPool.transactions self) MAX_TRANSACTION_POOL_SIZE,
     w)
  /\ TransactionPool.to_dict (fst (TransactionPool.from_dict
                                     (TransactionPool.to_dict self) w))
     = TransactionPool.to_dict self.
Proof.
  intros Hsound Hrt Hroom.
  rewrite (pool_round_trip self w Hsound Hrt Hroom). split; reflexivity.
Qed.

End PoolInvariants.

(* ================================================================== *)
(** * The chain: difficulty, shape and balances *)
(* ================================================================== *)

Section ChainInvariants.
Context {L : Library}.

(** X11.  [adjust_difficulty] moves the difficulty by at most one step
    and never below 1 from a difficulty of at least 1; it does nothing
    unless the chain has more than 10 blocks and a multiple of 10 of
    them; and it touches neither the chain, nor the pool, nor the
    reward. *)
Theorem adjust_difficulty_step (self : Blockchain.t) :
  let self' := Blockchain.adjust_difficulty self in
  (Blockchain.difficulty self' = Blockchain.difficulty self
   \/ Blockchain.difficulty self' = Blockchain.difficulty self + 1
   \/ (Blockchain.difficulty self' = Blockchain.difficulty self - 1
       /\ 1 < Blockchain.difficulty self))
  /\ (Blockchain.chain_len self mod 10 <> 0 \/ Blockchain.chain_len self <= 10 ->
      self' = self)
  /\ Blockchain.chain self' = Blockchain.chain self
  /\ Blockchain.transaction_pool self' = Blockchain.transaction_pool self
  /\ Blockchain.mining_reward self' = Blockchain.mining_reward self.
Proof.
  intros self'. split; [|split; [|apply adjust_difficulty_frame]]; subst self';
    unfold Blockchain.adjust_difficulty, Blockchain.difficulty_adjustment_interval.
  - destruct (negb (Blockchain.chain_len self mod 10 =? 0)); [now left|].
    destruct (Blockchain.chain_len self <=? 10); [now left|].
    destruct (nth_error _ _); [|now left].
    destruct (Blockchain.get_latest_block self); [|now left].
    destruct (PrimFloat.ltb _ _); [right; left; reflexivity|].
    destruct (PrimFloat.ltb _ _); [|now left].
    destruct (1 <? Blockchain.difficulty self) eqn:Hd; [|now left].
    apply Z.ltb_lt in Hd. right; right. split; [reflexivity|exact Hd].
  - intros [Hmod|Hlen].
    + apply Z.eqb_neq in Hmod. rewrite Hmod. reflexivity.
    + apply Z.leb_le in Hlen. rewrite Hlen.
      destruct (negb (Blockchain.chain_len self mod 10 =? 0)); reflexivity.
Qed.

Lemma adjust_difficulty_positive (self : Blockchain.t) :
  1 <= Blockchain.difficulty self ->
  1 <= Blockchain.difficulty (Blockchain.adjust_difficulty self).
Proof.
  intros Hd.
  unfold Blockchain.adjust_difficulty.
  destruct (negb _); [exact Hd|].
  destruct (_ <=? _); [exact Hd|].
  destruct (nth_error _ _); [|exact Hd].
  destruct (Blockchain.get_latest_block self); [|exact Hd].
  destruct (PrimFloat.ltb _ _); [cbn; lia|].
  destruct (PrimFloat.ltb _ _); [|exact Hd].
  destruct (1 <? Blockchain.difficulty self) eqn:H1; [|exact Hd].
  apply Z.ltb_lt in H1. cbn. lia.
Qed.

(** What [add_block] has checked when it accepts, and what it leaves
    when it refuses. *)
Lemma add_block_true (self self' : Blockchain.t) (block : Block.t) :
  Blockchain.add_block self block = Ok (true, self') ->
  self' = appended self block
  /\ (forall existing, In existing (Blockchain.chain self) ->
                       Block.hash existing <> Block.hash block)
  /\ Block.index block = Blockchain.chain_len self
  /\ (exists tip, Blockchain.get_latest_block self = Ok tip
                  /\ Block.previous_hash block = Block.hash tip)
  /\ Block.is_valid block (Blockchain.difficulty self) = true.
Proof.
  intros H. split; [now apply add_block_accepts|].
  unfold Blockchain.add_block, Blockchain._is_valid_block in H.
  destruct (existsb _ (Blockchain.chain self)) eqn:Hdup; [discriminate|].
  destruct (Block.index block =? Blockchain.chain_len self) eqn:Hi; cbn [negb] in H;
    [|discriminate].
  destruct (Blockchain.get_latest_block self) as [tip|e]; [|discriminate].
  destruct (Block.previous_hash block =? Block.hash tip)%string eqn:Hp;
    cbn [negb] in H; [|discriminate].
  destruct (Block.is_valid block (Blockchain.difficulty self)) eqn:Hv;
    cbn [negb] in H; [|discriminate].
  split; [|split; [now apply Z.eqb_eq|split; [|reflexivity]]].
  - intros existing Hin Hsame.
    assert (existsb (fun existing_block =>
                       (Block.hash existing_block =? Block.hash block)%string)
                    (Blockchain.chain self) = true).
    { apply existsb_exists. exists existing. split; [exact Hin|].
      now apply String.eqb_eq. }
    congruence.
  - exists tip. split; [reflexivity|now apply String.eqb_eq].
Qed.

Lemma add_block_false (self self' : Blockchain.t) (block : Block.t) :
  Blockchain.add_block self block = Ok (false, self') -> self' = self.
Proof.
  unfold Blockchain.add_block.
  destruct (existsb _ (Blockchain.chain self));
    [intros H; now injection H as <-|].
  destruct (Blockchain._is_valid_block self block) as [[|]|e]; try discriminate.
  intros H. now injection H as <-.
Qed.

Lemma appended_difficulty (self : Blockchain.t) (block : Block.t) :
  1 <= Blockchain.difficulty self -> 1 <= Blockchain.difficulty (appended self block).
Proof.
  intros Hd. unfold appended. apply adjust_difficulty_positive. exact Hd.
Qed.

(** What a successful [mine_pending_transactions] did: the reward it
    built, the block it constructed and mined, and the [add_block] that
    accepted it. *)
Definition reward_for (self : Blockchain.t) (miner_address : string) (w : World)
  : list Transaction.t :=
  if (miner_address =? "system")%string then []
  else [Transaction.mk "system" miner_address (Blockchain.mining_reward self)
                       (clock w (reads w)) None].

Definition after_reward (miner_address : string) (w : World) : World :=
  if (miner_address =? "system")%string then w else mkWorld (clock w) (S (reads w)).

Definition block_template (self : Blockchain.t) (miner_address : string)
    (tip : Block.t) (w : World) : Block.t :=
  built (Blockchain.chain_len self)
        (reward_for self miner_address w
         ++ TransactionPool.transactions (Blockchain.transaction_pool self))%list
        (Block.hash tip)
        (clock w (reads (after_reward miner_address w))) 0 None.

Lemma reward_run (self : Blockchain.t) (miner_address : string) (w w1 : World)
    (reward : list Transaction.t) :
  (if negb (miner_address =? "system")%string
   then reward_tx <- Transaction.init "system" miner_address
                       (Blockchain.mining_reward self) None None ;;
        ret [reward_tx]
   else ret []) w = (Ok reward, w1) ->
  reward = reward_for self miner_address w
  /\ w1 = after_reward miner_address w
  /\ (miner_address <> "system" ->
      miner_address <> "" /\ within_bounds (Blockchain.mining_reward self)).
Proof.
  unfold reward_for, after_reward. intros Hreward.
  destruct (miner_address =? "system")%string eqn:Hsys; cbn [negb] in Hreward.
  - apply ret_Ok in Hreward. destruct Hreward as (-> & ->).
    apply String.eqb_eq in Hsys. repeat split; try reflexivity; congruence.
  - apply bind_Ok in Hreward. destruct Hreward as (reward_tx & w0 & Hinit & Hret).
    apply ret_Ok in Hret. destruct Hret as (-> & ->).
    rewrite Transaction_init_eq in Hinit.
    change (negb (truthy_str "system")) with false in Hinit. cbv iota in Hinit.
    destruct (truthy_str miner_address) eqn:Hm; cbn [negb] in Hinit;
      [|discriminate].
    destruct (Transaction.checked_amount (Blockchain.mining_reward self))
      as [a|e] eqn:Ha; [|discriminate].
    apply checked_amount_Ok in Ha. destruct Ha as (-> & Hin).
    injection Hinit as <- <-.
    apply truthy_str_true in Hm.
    split; [reflexivity|]. split; [reflexivity|]. intros _. split; assumption.
Qed.

Lemma template_built (self : Blockchain.t) (miner_address : string)
    (latest built_block : Block.t) (w w3 : World) :
  Block.init (Blockchain.chain_len self)
             (reward_for self miner_address w
              ++ TransactionPool.get_transactions
                   (Blockchain.transaction_pool self))%list
             (Block.hash latest) None 0 None (after_reward miner_address w)
  = (Ok built_block, w3) ->
  built_block = block_template self miner_address latest w
  /\ w3 = mkWorld (clock w) (S (reads (after_reward miner_address w)))
  /\ len (Block.hash latest) = 64.
Proof.
  rewrite Block_init_eq.
  destruct (Blockchain.chain_len self <? 0); [discriminate|].
  destruct (len (Block.hash latest) =? 64) eqn:Hlen; cbn [negb]; [|discriminate].
  apply Z.eqb_eq in Hlen.
  intros H. injection H as <- <-.
  unfold block_template, stamp, after_stamp, after_reward,
    TransactionPool.get_transactions. cbn [truthy_opt].
  destruct (miner_address =? "system")%string; repeat split; assumption.
Qed.

Lemma mine_pending_transactions_Some (self self' : Blockchain.t)
    (miner_address : string) (new_block : Block.t) (w w' : World) :
  Blockchain.mine_pending_transactions self miner_address w
  = (Ok (Some new_block, self'), w') ->
  exists tip added,
    Blockchain.get_latest_block self = Ok tip
    /\ len (Block.hash tip) = 64
    /\ Block.mine_block (block_template self miner_address tip w)
                        (Blockchain.difficulty self) = Ok new_block
    /\ Blockchain.add_block self new_block = Ok (true, added)
    /\ self' = Blockchain.set_transaction_pool added
                 (TransactionPool.clear_transactions
                    (Blockchain.transaction_pool added))
    /\ w' = mkWorld (clock w) (S (reads (after_reward miner_address w)))
    /\ (miner_address <> "system" ->
        miner_address <> "" /\ within_bounds (Blockchain.mining_reward self)).
Proof.
  unfold Blockchain.mine_pending_transactions.
  intros H.
  destruct (match TransactionPool.transactions (Blockchain.transaction_pool self)
            with [] => true | _ => false end
            && negb (miner_address =? "system")%string);
    [discriminate H|].
  apply bind_Ok in H. destruct H as (reward & w1 & Hreward & H). cbv zeta in H.
  apply reward_run in Hreward. destruct Hreward as (-> & -> & Hminer).
  apply bind_Ok in H. destruct H as (latest & w2 & Hlatest & H).
  apply lift_Ok in Hlatest. destruct Hlatest as (Hlatest & ->).
  apply bind_Ok in H. destruct H as (built_block & w3 & Hbuilt & H).
  apply template_built in Hbuilt. destruct Hbuilt as (-> & -> & Hlen).
  apply bind_Ok in H. destruct H as (mined & w4 & Hmined & H).
  apply lift_Ok in Hmined. destruct Hmined as (Hmined & ->).
  apply bind_Ok in H. destruct H as ([result added] & w5 & Hadd & H).
  apply lift_Ok in Hadd. destruct Hadd as (Hadd & ->).
  destruct result; apply ret_Ok in H; destruct H as (H & ->);
    [|discriminate H].
  injection H as -> ->.
  exists latest, added.
  split; [exact Hlatest|]. split; [exact Hlen|]. split; [exact Hmined|].
  split; [exact Hadd|]. split; [reflexivity|]. split; [reflexivity|exact Hminer].
Qed.

End ChainInvariants.

Lemma bind_run {A B} (m : M A) (k : A -> M B) (w w1 : World) (a : A) :
  m w = (Ok a, w1) -> bind m k w = k a w1.
Proof. unfold bind. intros ->. reflexivity. Qed.

Lemma get_latest_block_inv (self : Blockchain.t) (tip : Block.t) :
  Blockchain.get_latest_block self = Ok tip ->
  exists front, Blockchain.chain self = (front ++ [tip])%list.
Proof.
  unfold Blockchain.get_latest_block.
  destruct (rev (Blockchain.chain self)) as [|latest r] eqn:Hrev; [discriminate|].
  intros H. injection H as ->. exists (rev r).
  rewrite <- (rev_involutive (Blockchain.chain self)), Hrev. reflexivity.
Qed.

(** The shape every operation of a node maintains on its chain: a first
    block, the index of each block its position, each block linked to the
    one before by its hash, the first one to 64 zeros, and no hash twice. *)
Definition well_formed (blocks : list Block.t) : Prop :=
  blocks <> []
  /\ (forall k b, nth_error blocks k = Some b -> Block.index b = Z.of_nat k)
  /\ (forall k previous current,
         nth_error blocks k = Some previous ->
         nth_error blocks (S k) = Some current ->
         Block.previous_hash current = Block.hash previous)
  /\ (forall first, nth_error blocks 0 = Some first ->
                    Block.previous_hash first = zeros 64)
  /\ NoDup (map Block.hash blocks).

Lemma well_formed_snoc (front : list Block.t) (tip block : Block.t) :
  well_formed (front ++ [tip]) ->
  Block.index block = Z.of_nat (List.length (front ++ [tip])) ->
  Block.previous_hash block = Block.hash tip ->
  (forall existing, In existing (front ++ [tip]) ->
                    Block.hash existing <> Block.hash block) ->
  well_formed ((front ++ [tip]) ++ [block]).
Proof.
  intros (Hne & Hindex & Hlink & Hfirst & Hnodup) Hi Hp Hfresh.
  split; [|split; [|split; [|split]]].
  - intros H. apply app_eq_nil in H. destruct H as (_ & H). discriminate H.
  - intros k b Hk.
    destruct (Nat.lt_ge_cases k (List.length (front ++ [tip]))) as [Hlt|Hge].
    + rewrite nth_error_app1 in Hk by exact Hlt. now apply Hindex.
    + rewrite nth_error_app2 in Hk by exact Hge.
      destruct (k - List.length (front ++ [tip]))%nat as [|n] eqn:Hd; cbn in Hk.
      * injection Hk as <-. rewrite Hi. f_equal. lia.
      * destruct n; discriminate Hk.
  - intros k previous current Hprev Hcur.
    destruct (Nat.lt_ge_cases (S k) (List.length (front ++ [tip]))) as [Hlt|Hge].
    + rewrite nth_error_app1 in Hcur by exact Hlt.
      rewrite nth_error_app1 in Hprev by lia.
      now apply (Hlink k).
    + rewrite nth_error_app2 in Hcur by exact Hge.
      destruct (S k - List.length (front ++ [tip]))%nat as [|n] eqn:Hd;
        cbn in Hcur; [|destruct n; discriminate Hcur].
      injection Hcur as <-.
      assert (Hlen : List.length (front ++ [tip]) = S (List.length front))
        by (rewrite length_app; cbn; lia).
      assert (Hk : k = List.length front) by lia.
      subst k. rewrite <- app_assoc in Hprev.
      rewrite nth_error_app2 in Hprev by lia.
      rewrite Nat.sub_diag in Hprev. cbn in Hprev. injection Hprev as <-.
      exact Hp.
  - intros first H0. apply Hfirst.
    destruct (front ++ [tip])%list as [|x l] eqn:Hl; [now elim Hne|].
    exact H0.
  - rewrite map_app. cbn [map].
    apply NoDup_app; [exact Hnodup|repeat constructor; intros []|].
    intros h Hin [<-|[]].
    apply in_map_iff in Hin. destruct Hin as (existing & Hh & Hin).
    exact (Hfresh existing Hin Hh).
Qed.

Section ChainProperties.
Context {L : Library}.

Lemma fully_valid_well_formed (difficulty : Z) (blocks : list Block.t) :
  fully_valid difficulty blocks -> NoDup (map Block.hash blocks) ->
  well_formed blocks.
Proof.
  intros ((first & H0 & Hi0 & Hp0) & Hrest) Hnodup.
  split; [|split; [|split; [|split; [|exact Hnodup]]]].
  - intros ->. discriminate H0.
  - intros k b Hk. destruct k as [|k].
    + rewrite H0 in Hk. injection Hk as <-. exact Hi0.
    + destruct (nth_error blocks k) as [previous|] eqn:Hprev.
      * now destruct (Hrest k previous b Hprev Hk) as (-> & _).
      * apply nth_error_None in Hprev.
        assert (nth_error blocks (S k) = None) by (apply nth_error_None; lia).
        congruence.
  - intros k previous current Hprev Hcur.
    now destruct (Hrest k previous current Hprev Hcur) as (_ & -> & _).
  - intros b Hb. rewrite H0 in Hb. injection Hb as <-. exact Hp0.
Qed.

Lemma add_block_well_formed (self self' : Blockchain.t) (block : Block.t) (r : bool) :
  well_formed (Blockchain.chain self) ->
  Blockchain.add_block self block = Ok (r, self') ->
  well_formed (Blockchain.chain self').
Proof.
  intros Hwf Hadd. destruct r.
  - apply add_block_true in Hadd.
    destruct Hadd as (-> & Hfresh & Hi & (tip & Htip & Hp) & _).
    rewrite appended_chain.
    apply get_latest_block_inv in Htip. destruct Htip as (front & Hchain).
    unfold Blockchain.chain_len in Hi. rewrite Hchain in *.
    now apply well_formed_snoc.
  - apply add_block_false in Hadd. now subst.
Qed.

Lemma mine_pending_transactions_None (self self' : Blockchain.t)
    (miner_address : string) (w w' : World) :
  Blockchain.mine_pending_transactions self miner_address w
  = (Ok (None, self'), w') ->
  self' = self.
Proof.
  unfold Blockchain.mine_pending_transactions.
  intros H.
  destruct (match TransactionPool.transactions (Blockchain.transaction_pool self)
            with [] => true | _ => false end
            && negb (miner_address =? "system")%string).
  { apply ret_Ok in H. destruct H as (H & _). now injection H as <-. }
  apply bind_Ok in H. destruct H as (reward & w1 & _ & H). cbv zeta in H.
  apply bind_Ok in H. destruct H as (latest & w2 & _ & H).
  apply bind_Ok in H. destruct H as (built_block & w3 & _ & H).
  apply bind_Ok in H. destruct H as (mined & w4 & _ & H).
  apply bind_Ok in H. destruct H as ([result added] & w5 & Hadd & H).
  apply lift_Ok in Hadd. destruct Hadd as (Hadd & _).
  destruct result; apply ret_Ok in H; destruct H as (H & _);
    [discriminate H|].
  injection H as <-. now apply add_block_false in Hadd.
Qed.

(** The node a successful [mine_pending_transactions] leaves. *)
Lemma mine_pending_transactions_chain (self self' : Blockchain.t)
    (miner_address : string) (new_block : Block.t) (w w' : World) :
  Blockchain.mine_pending_transactions self miner_address w
  = (Ok (Some new_block, self'), w') ->
  Blockchain.add_block self new_block = Ok (true, appended self new_block)
  /\ Blockchain.chain self' = (Blockchain.chain self ++ [new_block])%list
  /\ Blockchain.difficulty self' = Blockchain.difficulty (appended self new_block).
Proof.
  intros H. apply mine_pending_transactions_Some in H.
  destruct H as (tip & added & _ & _ & _ & Hadd & -> & _).
  pose proof (add_block_accepts _ _ _ Hadd) as ->.
  split; [exact Hadd|]. split; [|reflexivity].
  cbn [Blockchain.set_transaction_pool Blockchain.chain]. apply appended_chain.
Qed.

(** X12.  What a successful [mine_pending_transactions] mined.  The block
    it returns has the length of the chain as index, the hash of the tip
    as previous hash, the next reading of the clock as timestamp, and as
    transactions the reward (from "system" to the miner, of
    [mining_reward], unless the miner is "system") followed by the pool in
    its order; it is valid at the difficulty of the node, its hash is not
    the hash of a block of the chain, and it is the new tip. *)
Theorem mine_pending_transactions_block (self self' : Blockchain.t)
    (miner_address : string) (new_block : Block.t) (w w' : World) :
  Blockchain.mine_pending_transactions self miner_address w
  = (Ok (Some new_block, self'), w') ->
  exists tip,
    Blockchain.get_latest_block self = Ok tip
    /\ Block.index new_block = Blockchain.chain_len self
    /\ Block.previous_hash new_block = Block.hash tip
    /\ Block.transactions new_block
       = ((if (miner_address =? "system")%string then []
           else [Transaction.mk "system" miner_address
                                (Blockchain.mining_reward self)
                                (clock w (reads w)) None])
          ++ TransactionPool.transactions (Blockchain.transaction_pool self))%list
    /\ Block.timestamp new_block
       = clock w (if (miner_address =? "system")%string
                  then reads w else S (reads w))
    /\ Block.is_valid new_block (Blockchain.difficulty self) = true
    /\ (forall existing, In existing (Blockchain.chain self) ->
                         Block.hash existing <> Block.hash new_block)
    /\ Blockchain.chain self' = (Blockchain.chain self ++ [new_block])%list
    /\ Blockchain.get_latest_block self' = Ok new_block.
Proof.
  intros H. pose proof (mine_pending_transactions_chain _ _ _ _ _ _ H) as Hchain.
  apply mine_pending_transactions_Some in H.
  destruct H as (tip & added & Htip & _ & Hmine & _ & _ & _ & _).
  apply mine_block_Ok in Hmine.
  destruct Hmine as (_ & _ & _ & _ & Hi & Htxs & Hp & Hts).
  destruct Hchain as (Hadd & Hchain & _).
  apply add_block_true in Hadd. destruct Hadd as (_ & Hfresh & _ & _ & Hvalid).
  exists tip. split; [exact Htip|]. split; [exact Hi|]. split; [exact Hp|].
  split; [exact Htxs|]. split.
  { rewrite Hts. unfold block_template, built, after_reward.
    cbn [Block.timestamp Block.set_hash].
    destruct (miner_address =? "system")%string; reflexivity. }
  split; [exact Hvalid|]. split; [exact Hfresh|]. split; [exact Hchain|].
  apply get_latest_block_snoc with (front := Blockchain.chain self). exact Hchain.
Qed.

Lemma reward_run_fwd (self : Blockchain.t) (miner_address : string) (w : World) :
  (miner_address <> "system" ->
   miner_address <> "" /\ within_bounds (Blockchain.mining_reward self)) ->
  (if negb (miner_address =? "system")%string
   then reward_tx <- Transaction.init "system" miner_address
                       (Blockchain.mining_reward self) None None ;;
        ret [reward_tx]
   else ret []) w
  = (Ok (reward_for self miner_address w), after_reward miner_address w).
Proof.
  intros Hminer. unfold reward_for, after_reward.
  destruct (miner_address =? "system")%string eqn:Hsys; cbn [negb]; [reflexivity|].
  apply String.eqb_neq in Hsys. destruct (Hminer Hsys) as (Hne & Hin).
  unfold bind. rewrite Transaction_init_eq.
  change (negb (truthy_str "system")) with false. cbv iota.
  apply truthy_str_true in Hne. rewrite Hne. cbn [negb].
  rewrite (checked_amount_within _ Hin). reflexivity.
Qed.

Lemma template_built_fwd (self : Blockchain.t) (miner_address : string)
    (latest : Block.t) (w : World) :
  len (Block.hash latest) = 64 ->
  Block.init (Blockchain.chain_len self)
             (reward_for self miner_address w
              ++ TransactionPool.get_transactions
                   (Blockchain.transaction_pool self))%list
             (Block.hash latest) None 0 None (after_reward miner_address w)
  = (Ok (block_template self miner_address latest w),
     mkWorld (clock w) (S (reads (after_reward miner_address w)))).
Proof.
  intros Hlen. rewrite Block_init_eq.
  assert (Hi : (Blockchain.chain_len self <? 0) = false)
    by (apply Z.ltb_ge; unfold Blockchain.chain_len; lia).
  rewrite Hi. apply Z.eqb_eq in Hlen. rewrite Hlen. cbn [negb].
  unfold block_template, stamp, after_stamp, after_reward,
    TransactionPool.get_transactions. cbn [truthy_opt].
  destruct (miner_address =? "system")%string; reflexivity.
Qed.

Lemma add_block_fwd (self : Blockchain.t) (block tip : Block.t) :
  Blockchain.get_latest_block self = Ok tip ->
  (forall existing, In existing (Blockchain.chain self) ->
                    Block.hash existing <> Block.hash block) ->
  Block.index block = Blockchain.chain_len self ->
  Block.previous_hash block = Block.hash tip ->
  Block.is_valid block (Blockchain.difficulty self) = true ->
  Blockchain.add_block self block = Ok (true, appended self block).
Proof.
  intros Htip Hfresh Hi Hp Hv.
  unfold Blockchain.add_block, Blockchain._is_valid_block. rewrite Htip.
  destruct (existsb (fun existing_block =>
                       (Block.hash existing_block =? Block.hash block)%string)
                    (Blockchain.chain self)) eqn:Hdup.
  { apply existsb_exists in Hdup. destruct Hdup as (x & Hin & Hx).
    apply String.eqb_eq in Hx. now elim (Hfresh x Hin). }
  apply Z.eqb_eq in Hi. rewrite Hi. apply String.eqb_eq in Hp. rewrite Hp, Hv.
  reflexivity.
Qed.

Lemma reward_for_verifies (self : Blockchain.t) (miner_address : string) (w : World)
    (tx : Transaction.t) :
  In tx (reward_for self miner_address w) -> Transaction.verify tx = true.
Proof.
  unfold reward_for. destruct (miner_address =? "system")%string; [intros []|].
  intros [<-|[]]. reflexivity.
Qed.

(** The facts about a mined template that [add_block] asks for. *)
Lemma mined_template_accepted (self : Blockchain.t) (miner_address : string)
    (tip b : Block.t) (w : World) :
  Blockchain.get_latest_block self = Ok tip ->
  (forall tx, In tx (TransactionPool.transactions (Blockchain.transaction_pool self)) ->
              Transaction.verify tx = true) ->
  (forall existing, In existing (Blockchain.chain self) ->
                    Block.hash existing <> Block.hash b) ->
  Block.hash b = Block.calculate_hash b ->
  String.prefix (zeros (Blockchain.difficulty self)) (Block.hash b) = true ->
  Block.index b = Block.index (block_template self miner_address tip w) ->
  Block.transactions b = Block.transactions (block_template self miner_address tip w) ->
  Block.previous_hash b
  = Block.previous_hash (block_template self miner_address tip w) ->
  Blockchain.add_block self b = Ok (true, appended self b).
Proof.
  intros Htip Hpool Hfresh Hhash Hprefix Hi Htxs Hp.
  apply (add_block_fwd self b tip Htip Hfresh); [exact Hi|exact Hp|].
  apply is_valid_spec. split; [exact Hhash|]. split.
  - now apply prefix_zeros.
  - rewrite Htxs. unfold block_template, built.
    cbn [Block.transactions Block.set_hash].
    intros tx Hin. apply in_app_or in Hin. destruct Hin as [Hin|Hin].
    + now apply (reward_for_verifies self miner_address w).
    + now apply Hpool.
Qed.

(** X13.  When mining succeeds.  On a node whose tip has a 64-character
    hash and whose pool holds transactions that verify, with a miner that
    is "system" or else has a non-empty address, a reward within the
    bounds and a non-empty pool: if the proof-of-work search on the block
    built from the reward and the pool ends on a block whose hash is not
    yet in the chain, [mine_pending_transactions] returns that block,
    appends it to the chain and empties the pool. *)
Theorem mine_pending_transactions_succeeds (self : Blockchain.t)
    (miner_address : string) (tip b : Block.t) (w : World) :
  Blockchain.get_latest_block self = Ok tip ->
  len (Block.hash tip) = 64 ->
  (miner_address <> "system" ->
   miner_address <> ""
   /\ within_bounds (Blockchain.mining_reward self)
   /\ TransactionPool.transactions (Blockchain.transaction_pool self) <> []) ->
  (forall tx, In tx (TransactionPool.transactions (Blockchain.transaction_pool self)) ->
              Transaction.verify tx = true) ->
  Block.mine_block (block_template self miner_address tip w)
                   (Blockchain.difficulty self) = Ok b ->
  (forall existing, In existing (Blockchain.chain self) ->
                    Block.hash existing <> Block.hash b) ->
  exists self' w',
    Blockchain.mine_pending_transactions self miner_address w
    = (Ok (Some b, self'), w')
    /\ Blockchain.chain self' = (Blockchain.chain self ++ [b])%list
    /\ TransactionPool.transactions (Blockchain.transaction_pool self') = [].
Proof.
  intros Htip Hlen Hminer Hpool Hmine Hfresh.
  assert (Hadd : Blockchain.add_block self b = Ok (true, appended self b)).
  { pose proof (mine_block_Ok _ _ _ Hmine) as Hm.
    destruct Hm as (Hhash & Hprefix & _ & _ & Hi & Htxs & Hp & _).
    exact (mined_template_accepted self miner_address tip b w Htip Hpool Hfresh
             Hhash Hprefix Hi Htxs Hp). }
  assert (Hcond :
            match TransactionPool.transactions (Blockchain.transaction_pool self)
            with [] => true | _ => false end
            && negb (miner_address =? "system")%string = false).
  { destruct (miner_address =? "system")%string eqn:Hsys;
      [apply andb_false_r|].
    apply String.eqb_neq in Hsys. destruct (Hminer Hsys) as (_ & _ & Hne).
    destruct (TransactionPool.transactions (Blockchain.transaction_pool self));
      [now elim Hne|reflexivity]. }
  assert (Hreward : forall A (k : list Transaction.t -> M A),
             bind (if negb (miner_address =? "system")%string
                   then reward_tx <- Transaction.init "system" miner_address
                                       (Blockchain.mining_reward self) None None ;;
                        ret [reward_tx]
                   else ret []) k w
             = k (reward_for self miner_address w) (after_reward miner_address w)).
  { intros A k. apply bind_run. apply reward_run_fwd.
    intros Hsys. destruct (Hminer Hsys) as (H1 & H2 & _). split; assumption. }
  eexists. eexists. split.
  - unfold Blockchain.mine_pending_transactions. rewrite Hcond, Hreward.
    cbv zeta.
    rewrite (bind_run _ _ _ _ tip) by (unfold lift; rewrite Htip; reflexivity).
    rewrite (bind_run _ _ _ _ _ (template_built_fwd self miner_address tip w Hlen)).
    rewrite (bind_run _ _ _ _ b) by (unfold lift; rewrite Hmine; reflexivity).
    rewrite (bind_run _ _ _ _ (true, appended self b))
      by (unfold lift; rewrite Hadd; reflexivity).
    reflexivity.
  - split; [|reflexivity].
    cbn [Blockchain.set_transaction_pool Blockchain.chain]. apply appended_chain.
Qed.

(** X14.  The difficulty stays at 1 or above on a node that starts there:
    [add_block], [add_block_from_dict] and [mine_pending_transactions]
    move it by at most one step of [adjust_difficulty], never below 1, and
    [replace_chain] leaves it as it is. *)
Theorem difficulty_stays_positive (self : Blockchain.t) :
  1 <= Blockchain.difficulty self ->
  (forall block r self',
      Blockchain.add_block self block = Ok (r, self') ->
      1 <= Blockchain.difficulty self')
  /\ (forall block_data w,
         1 <= Blockchain.difficulty
                (snd (fst (Blockchain.add_block_from_dict self block_data w))))
  /\ (forall miner_address w mined self' w',
         Blockchain.mine_pending_transactions self miner_address w
         = (Ok (mined, self'), w') ->
         1 <= Blockchain.difficulty self')
  /\ (forall new_chain w r self' w',
         Blockchain.replace_chain self new_chain w = (Ok (r, self'), w') ->
         Blockchain.difficulty self' = Blockchain.difficulty self).
Proof.
  intros Hd.
  assert (Hadd : forall block r self',
             Blockchain.add_block self block = Ok (r, self') ->
             1 <= Blockchain.difficulty self').
  { intros block r self' H. destruct r.
    - apply add_block_accepts in H. subst. now apply appended_difficulty.
    - apply add_block_false in H. now subst. }
  split; [exact Hadd|]. split; [|split].
  - intros block_data w. unfold Blockchain.add_block_from_dict.
    destruct (Block.from_dict block_data w) as [[block|e] w1]; [|exact Hd].
    destruct (Blockchain.add_block self block) as [[r self']|e] eqn:H; [|exact Hd].
    cbn. exact (Hadd block r self' H).
  - intros miner_address w mined self' w' H. destruct mined as [new_block|].
    + apply mine_pending_transactions_chain in H. destruct H as (_ & _ & ->).
      now apply appended_difficulty.
    + apply mine_pending_transactions_None in H. now subst.
  - intros new_chain w r self' w'. rewrite replace_chain_eq.
    destruct (Blockchain.blocks_from new_chain w) as [[bs|e] w1].
    + destruct (adopts self bs); intros H; injection H as _ <- _; reflexivity.
    + intros H. injection H as _ <- _. reflexivity.
Qed.

(** X15.  The shape of the chain.  The chain [Blockchain.__init__] builds
    is well formed (it has a first block, every index is the position,
    every block names the hash of the one before, the first names 64
    zeros, no hash occurs twice), and [add_block], [add_block_from_dict],
    [mine_pending_transactions] and [replace_chain] keep the chain of a
    node well formed. *)
Theorem chain_stays_well_formed :
  (forall (C : Config) difficulty w self w',
      Blockchain.init difficulty w = (Ok self, w') ->
      well_formed (Blockchain.chain self))
  /\ (forall self block r self',
         well_formed (Blockchain.chain self) ->
         Blockchain.add_block self block = Ok (r, self') ->
         well_formed (Blockchain.chain self'))
  /\ (forall self block_data w,
         well_formed (Blockchain.chain self) ->
         well_formed (Blockchain.chain
                        (snd (fst (Blockchain.add_block_from_dict self block_data w)))))
  /\ (forall self miner_address w mined self' w',
         well_formed (Blockchain.chain self) ->
         Blockchain.mine_pending_transactions self miner_address w
         = (Ok (mined, self'), w') ->
         well_formed (Blockchain.chain self'))
  /\ (forall self new_chain w r self' w',
         well_formed (Blockchain.chain self) ->
         Blockchain.replace_chain self new_chain w = (Ok (r, self'), w') ->
         well_formed (Blockchain.chain self')).
Proof.
  split; [|split; [intros self block r self'; apply add_block_well_formed|
                   split; [|split]]].
  - intros C difficulty w self w'. rewrite Blockchain_init_eq.
    destruct (Block.mine_block genesis_template difficulty) as [g|e] eqn:Hm;
      [|discriminate].
    apply mine_block_Ok in Hm. destruct Hm as (_ & _ & _ & _ & Hi & _ & Hp & _).
    intros H. injection H as <- _. cbn [Blockchain.chain].
    split; [discriminate|]. split; [|split; [|split]].
    + intros [|k] b Hk; [|destruct k; discriminate Hk].
      injection Hk as <-. exact Hi.
    + intros [|k] previous current _ Hk; discriminate Hk.
    + intros first Hk. injection Hk as <-. exact Hp.
    + repeat constructor. intros [].
  - intros self block_data w Hwf. unfold Blockchain.add_block_from_dict.
    destruct (Block.from_dict block_data w) as [[block|e] w1]; [|exact Hwf].
    destruct (Blockchain.add_block self block) as [[r self']|e] eqn:H; [|exact Hwf].
    cbn. exact (add_block_well_formed self self' block r Hwf H).
  - intros self miner_address w mined self' w' Hwf H. destruct mined as [new_block|].
    + apply mine_pending_transactions_chain in H. destruct H as (Hadd & Hchain & _).
      rewrite Hchain, <- (appended_chain self new_block).
      exact (add_block_well_formed self _ new_block true Hwf Hadd).
    + apply mine_pending_transactions_None in H. now subst.
  - intros self new_chain w r self' w' Hwf. rewrite replace_chain_eq.
    destruct (Blockchain.blocks_from new_chain w) as [[bs|e] w1].
    + destruct (adopts self bs) eqn:Ha; intros H; injection H as _ <- _;
        [|exact Hwf].
      apply adopts_spec in Ha. destruct Ha as (Hnodup & Hvalid & _).
      cbn [Blockchain.set_chain Blockchain.chain].
      exact (fully_valid_well_formed _ _ Hvalid Hnodup).
    + intros H. injection H as _ <- _. exact Hwf.
Qed.

End ChainProperties.

Lemma bind_Raise {A B} (m : M A) (k : A -> M B) (w w' : World) (e : exn) :
  bind m k w = (Raise e, w') ->
  m w = (Raise e, w') \/ exists a w1, m w = (Ok a, w1) /\ k a w1 = (Raise e, w').
Proof.
  unfold bind. destruct (m w) as [[a|e0] w1]; intros H;
    [right; eauto|left; injection H as -> ->; reflexivity].
Qed.

Lemma lift_Raise {A} (r : result A) (w w' : World) (e : exn) :
  lift r w = (Raise e, w') -> r = Raise e.
Proof. unfold lift. intros H. now injection H as ->. Qed.

Section MiningErrors.
Context {L : Library}.

Lemma add_block_returns (self : Blockchain.t) (block tip : Block.t) :
  Blockchain.get_latest_block self = Ok tip ->
  exists r self', Blockchain.add_block self block = Ok (r, self').
Proof.
  intros Htip. unfold Blockchain.add_block, Blockchain._is_valid_block.
  rewrite Htip.
  destruct (existsb _ (Blockchain.chain self)); [eauto|].
  destruct (negb (Block.index block =? Blockchain.chain_len self)); [eauto|].
  destruct (negb (Block.previous_hash block =? Block.hash tip)%string); [eauto|].
  destruct (negb (Block.is_valid block (Blockchain.difficulty self))); eauto.
Qed.

Lemma reward_run_Raise (self : Blockchain.t) (miner_address : string) (w w' : World)
    (e : exn) :
  (if negb (miner_address =? "system")%string
   then reward_tx <- Transaction.init "system" miner_address
                       (Blockchain.mining_reward self) None None ;;
        ret [reward_tx]
   else ret []) w = (Raise e, w') ->
  miner_address <> "system"
  /\ ((miner_address = "" /\ e = ValueError "Recipient must be a valid string")
      \/ (~ within_bounds (Blockchain.mining_reward self)
          /\ e = ValueError "Invalid amount format")).
Proof.
  intros H.
  destruct (miner_address =? "system")%string eqn:Hsys; cbn [negb] in H;
    [discriminate H|].
  apply String.eqb_neq in Hsys. split; [exact Hsys|].
  apply bind_Raise in H. destruct H as [H|(reward_tx & w1 & _ & H)];
    [|discriminate H].
  rewrite Transaction_init_eq in H.
  change (negb (truthy_str "system")) with false in H. cbv iota in H.
  destruct (truthy_str miner_address) eqn:Hm; cbn [negb] in H.
  - destruct (Transaction.checked_amount (Blockchain.mining_reward self)) eqn:Ha;
      [discriminate H|].
    apply checked_amount_Raise in Ha. injection H as <- _. right. now split.
  - unfold truthy_str in Hm. apply negb_false_iff, String.eqb_eq in Hm.
    injection H as <- _. left. now split.
Qed.

Lemma template_built_Raise (self : Blockchain.t) (transactions : list Transaction.t)
    (latest : Block.t) (w w' : World) (e : exn) :
  Block.init (Blockchain.chain_len self) transactions (Block.hash latest) None 0 None w
  = (Raise e, w') ->
  len (Block.hash latest) <> 64
  /\ e = ValueError "Previous hash must be a 64-character string".
Proof.
  rewrite Block_init_eq.
  assert (Hi : (Blockchain.chain_len self <? 0) = false)
    by (apply Z.ltb_ge; unfold Blockchain.chain_len; lia).
  rewrite Hi.
  destruct (len (Block.hash latest) =? 64) eqn:Hlen; cbn [negb]; [discriminate|].
  apply Z.eqb_neq in Hlen. intros H. injection H as <- _. now split.
Qed.

(** X16.  How [mine_pending_transactions] fails, on a node whose chain
    and pool hold values of the annotated types (string signatures,
    float timestamps) and for a miner address that is a string.  When it
    raises, the miner is not "system" and has an empty address or the
    reward is out of bounds ([ValueError]); or the chain is empty
    ([IndexError]); or the hash of the tip does not have 64 characters
    ([ValueError]); or no nonce below [2**32] gives the zeros asked for
    ([RuntimeError]). *)
Theorem mine_pending_transactions_raises (self : Blockchain.t)
    (miner_address : string) (w w' : World) (e : exn) :
  Blockchain.mine_pending_transactions self miner_address w = (Raise e, w') ->
  (miner_address <> "system" /\ miner_address = ""
   /\ e = ValueError "Recipient must be a valid string")
  \/ (miner_address <> "system" /\ ~ within_bounds (Blockchain.mining_reward self)
      /\ e = ValueError "Invalid amount format")
  \/ (Blockchain.chain self = [] /\ e = IndexError "list index out of range")
  \/ (exists tip, Blockchain.get_latest_block self = Ok tip
                  /\ len (Block.hash tip) <> 64
                  /\ e = ValueError "Previous hash must be a 64-character string")
  \/ e = Block.mining_exhausted.
Proof.
  unfold Blockchain.mine_pending_transactions. intros H.
  destruct (match TransactionPool.transactions (Blockchain.transaction_pool self)
            with [] => true | _ => false end
            && negb (miner_address =? "system")%string);
    [discriminate H|].
  apply bind_Raise in H. destruct H as [H|(reward & w1 & _ & H)].
  { apply reward_run_Raise in H. destruct H as (Hsys & [(Hm & He)|(Hr & He)]);
      [left|right; left]; repeat split; assumption. }
  cbv zeta in H.
  apply bind_Raise in H. destruct H as [H|(latest & w2 & Hlatest & H)].
  { apply lift_Raise in H. right; right; left.
    unfold Blockchain.get_latest_block in H.
    destruct (Blockchain.chain self) as [|b blocks] eqn:Hchain.
    - injection H as <-. now split.
    - exfalso. destruct (rev (b :: blocks)) eqn:Hrev; [|discriminate H].
      apply (f_equal (@List.length _)) in Hrev. rewrite length_rev in Hrev.
      discriminate Hrev. }
  apply lift_Ok in Hlatest. destruct Hlatest as (Hlatest & _).
  apply bind_Raise in H. destruct H as [H|(built_block & w3 & _ & H)].
  { apply template_built_Raise in H. destruct H as (Hlen & He).
    right; right; right; left. exists latest. repeat split; assumption. }
  apply bind_Raise in H. destruct H as [H|(mined & w4 & _ & H)].
  { apply lift_Raise in H. apply mine_block_Raise in H. destruct H as (He & _).
    right; right; right; right. exact He. }
  exfalso.
  apply bind_Raise in H. destruct H as [H|([result added] & w5 & _ & H)].
  - apply lift_Raise in H.
    destruct (add_block_returns self mined latest Hlatest) as (r & self' & Hadd).
    rewrite Hadd in H. discriminate H.
  - destruct result; discriminate H.
Qed.

End MiningErrors.

(* ================================================================== *)
(** * Balances, and the chain as a dictionary *)
(* ================================================================== *)

(** No transaction of the list names the address. *)
Definition untouched (address : string) (txs : list Transaction.t) : Prop :=
  forall tx, In tx txs ->
             Transaction.sender tx <> address /\ Transaction.recipient tx <> address.

Lemma balance_untouched (address : string) (txs : list Transaction.t) :
  untouched address txs ->
  forall balance, fold_left (Blockchain.balance_step address) txs balance = balance.
Proof.
  induction txs as [|tx txs IH]; intros H balance; [reflexivity|].
  cbn [fold_left]. rewrite IH by (intros t Ht; apply H; now right).
  destruct (H tx (or_introl eq_refl)) as (Hs & Hr).
  unfold Blockchain.balance_step.
  apply String.eqb_neq in Hs, Hr. now rewrite Hs, Hr.
Qed.

Lemma get_balance_snoc (self self' : Blockchain.t) (block : Block.t)
    (address : string) :
  Blockchain.chain self' = (Blockchain.chain self ++ [block])%list ->
  Blockchain.get_balance self' address
  = fold_left (Blockchain.balance_step address) (Block.transactions block)
              (Blockchain.get_balance self address).
Proof.
  intros H. unfold Blockchain.get_balance. rewrite H, fold_left_app. reflexivity.
Qed.

Lemma Blockchain_eta (self : Blockchain.t) :
  Blockchain.mk (Blockchain.difficulty self) (Blockchain.mining_reward self)
                (Blockchain.transaction_pool self) (Blockchain.chain self) = self.
Proof. now destruct self. Qed.

Lemma TransactionPool_eta (self : TransactionPool.t) :
  TransactionPool.mk (TransactionPool.transactions self)
                     (TransactionPool.max_size self) = self.
Proof. now destruct self. Qed.

Section Balances.
Context {L : Library}.

(** X17.  Balances follow the chain.  An address no transaction of the
    chain names has balance 0.  A block [add_block] refuses changes no
    balance; a block it accepts changes the balance of an address by the
    transactions of that block alone, taken in order, and leaves it as it
    was when none of them names the address. *)
Theorem get_balance_add_block (self self' : Blockchain.t) (block : Block.t)
    (r : bool) (address : string) :
  ((forall b, In b (Blockchain.chain self) -> untouched address (Block.transactions b)) ->
   Blockchain.get_balance self address = 0%float)
  /\ (Blockchain.add_block self block = Ok (r, self') ->
      (r = false ->
       Blockchain.get_balance self' address = Blockchain.get_balance self address)
      /\ (r = true ->
          Blockchain.get_balance self' address
          = fold_left (Blockchain.balance_step address) (Block.transactions block)
                      (Blockchain.get_balance self address))
      /\ (untouched address (Block.transactions block) ->
          Blockchain.get_balance self' address
          = Blockchain.get_balance self address)).
Proof.
  split.
  - unfold Blockchain.get_balance. generalize 0%float as balance.
    induction (Blockchain.chain self) as [|b blocks IH]; intros balance H;
      [reflexivity|].
    cbn [fold_left].
    rewrite balance_untouched by (apply H; now left).
    apply IH. intros b' Hb'. apply H. now right.
  - intros Hadd. destruct r.
    + apply add_block_accepts in Hadd. subst self'.
      pose proof (get_balance_snoc self (appended self block) block address
                    (appended_chain self block)) as Hsnoc.
      split; [discriminate|]. split; [intros _; exact Hsnoc|].
      intros Hun. rewrite Hsnoc. now apply balance_untouched.
    + apply add_block_false in Hadd. subst self'.
      split; [reflexivity|]. split; [discriminate|reflexivity].
Qed.

(** X18.  The reward reaches the miner.  After a successful
    [mine_pending_transactions] by a miner other than "system" whom no
    pooled transaction names, the balance of the miner is its balance
    before plus [mining_reward] (in floating point). *)
Theorem mining_reward_credited (self self' : Blockchain.t) (miner_address : string)
    (new_block : Block.t) (w w' : World) :
  Blockchain.mine_pending_transactions self miner_address w
  = (Ok (Some new_block, self'), w') ->
  miner_address <> "system" ->
  untouched miner_address
            (TransactionPool.transactions (Blockchain.transaction_pool self)) ->
  Blockchain.get_balance self' miner_address
  = PrimFloat.add (Blockchain.get_balance self miner_address)
                  (Blockchain.mining_reward self).
Proof.
  intros H Hsys Hpool.
  pose proof (mine_pending_transactions_chain _ _ _ _ _ _ H) as (_ & Hchain & _).
  apply mine_pending_transactions_Some in H.
  destruct H as (tip & added & _ & _ & Hmine & _).
  apply mine_block_Ok in Hmine. destruct Hmine as (_ & _ & _ & _ & _ & Htxs & _).
  rewrite (get_balance_snoc self self' new_block miner_address Hchain), Htxs.
  unfold block_template, built, reward_for.
  cbn [Block.transactions Block.set_hash].
  apply String.eqb_neq in Hsys. rewrite Hsys.
  cbn [app fold_left]. rewrite balance_untouched by exact Hpool.
  unfold Blockchain.balance_step. cbn [Transaction.sender Transaction.recipient
                                       Transaction.amount].
  rewrite (String.eqb_sym "system" miner_address), Hsys, String.eqb_refl.
  reflexivity.
Qed.

(** X19.  [add_block_from_dict] on a node whose chain and pool hold
    values of the annotated types, for a block dictionary whose entries
    have them too (string signatures, float timestamps and amounts).  It
    returns [True] exactly when the dictionary deserialises to a block
    that [add_block] accepts, and the node is then the one [add_block]
    leaves; in every other case ([from_dict] raises, [add_block] returns
    [False], or [add_block] raises [IndexError] because the chain is
    empty) the node is as it was.  On a node whose chain is empty it
    returns [False] for every such dictionary. *)
Theorem add_block_from_dict_spec (self : Blockchain.t) (block_data : Block.dict)
    (w : World) :
  match Blockchain.add_block_from_dict self block_data w with
  | (r, self', w') =>
      w' = snd (Block.from_dict block_data w)
      /\ (r = true <->
          exists block,
            fst (Block.from_dict block_data w) = Ok block
            /\ Blockchain.add_block self block = Ok (true, self'))
      /\ (r = false -> self' = self)
      /\ (Blockchain.chain self = [] -> r = false)
  end.
Proof.
  unfold Blockchain.add_block_from_dict.
  destruct (Block.from_dict block_data w) as [[block|e] w1] eqn:Hfrom; cbn [fst snd].
  2:{ split; [reflexivity|]. split; [|split; reflexivity].
      split; [discriminate|]. intros (block & Hb & _). discriminate Hb. }
  destruct (Blockchain.add_block self block) as [[r self']|e] eqn:Hadd.
  - split; [reflexivity|]. split; [|split].
    + split.
      * intros ->. exists block. split; [reflexivity|exact Hadd].
      * intros (block' & Hb & Hadd'). injection Hb as <-.
        rewrite Hadd in Hadd'. now injection Hadd'.
    + intros ->. now apply add_block_false in Hadd.
    + intros Hempty. destruct r; [|reflexivity].
      apply add_block_true in Hadd.
      destruct Hadd as (_ & _ & _ & (tip & Htip & _) & _).
      unfold Blockchain.get_latest_block in Htip. rewrite Hempty in Htip.
      discriminate Htip.
  - split; [reflexivity|]. split; [|split; reflexivity].
    split; [discriminate|]. intros (block' & Hb & Hadd'). injection Hb as <-.
    rewrite Hadd in Hadd'. discriminate Hadd'.
Qed.

Lemma Block_round_trip (b : Block.t) (w : World) :
  0 <= Block.index b ->
  len (Block.previous_hash b) = 64 ->
  Block.hash b <> "" ->
  truthy_float (Block.timestamp b) = true ->
  (forall tx, In tx (Block.transactions b) -> round_trips tx) ->
  Block.from_dict (Block.to_dict b) w = (Ok b, w).
Proof.
  intros Hi Hl Hh Hts Htxs.
  unfold Block.from_dict, bind.
  cbn [Block.to_dict Block.k_index Block.k_timestamp Block.k_previous_hash
       Block.k_hash Block.k_nonce Block.k_transactions].
  rewrite transactions_from_round_trip by assumption.
  rewrite Block_init_eq.
  apply Z.ltb_ge in Hi. rewrite Hi.
  apply Z.eqb_eq in Hl. rewrite Hl. cbn [negb].
  unfold stamp, after_stamp, built. cbn [truthy_opt]. rewrite Hts.
  apply truthy_str_true in Hh. rewrite Hh.
  destruct b; reflexivity.
Qed.

(** A block that deserialises from its own dictionary to itself. *)
Definition block_round_trips (b : Block.t) : Prop :=
  0 <= Block.index b
  /\ len (Block.previous_hash b) = 64
  /\ Block.hash b <> ""
  /\ truthy_float (Block.timestamp b) = true
  /\ forall tx, In tx (Block.transactions b) -> round_trips tx.

Lemma blocks_from_round_trip (blocks : list Block.t) (w : World) :
  (forall b, In b blocks -> block_round_trips b) ->
  Blockchain.blocks_from (map Block.to_dict blocks) w = (Ok blocks, w).
Proof.
  induction blocks as [|b blocks IH]; intros H; [reflexivity|].
  cbn [map Blockchain.blocks_from].
  destruct (H b (or_introl eq_refl)) as (Hi & Hl & Hh & Hts & Htxs).
  rewrite (bind_run _ _ _ _ _ (Block_round_trip b w Hi Hl Hh Hts Htxs)).
  rewrite (bind_run _ _ _ _ _ (IH (fun b' Hb' => H b' (or_intror Hb')))).
  reflexivity.
Qed.

(** X20.  The node round trip.  Let constructing a node at the difficulty
    of [self] succeed (its genesis block can be mined), let every block
    of [self] deserialise from its own dictionary, and let the pool be
    sound, of the configured capacity, with transactions that deserialise
    from their own dictionaries.  Then
    [Blockchain.from_dict(self.to_dict())] is [self], and the clock has
    not been read. *)
Theorem Blockchain_from_dict_to_dict {C : Config} (self : Blockchain.t) (g : Block.t)
    (w : World) :
  Block.mine_block genesis_template (Blockchain.difficulty self) = Ok g ->
  (forall b, In b (Blockchain.chain self) -> block_round_trips b) ->
  sound_pool (Blockchain.transaction_pool self) ->
  (forall tx, In tx (TransactionPool.transactions (Blockchain.transaction_pool self)) ->
              round_trips tx) ->
  Z.of_nat (List.length (TransactionPool.transactions
                           (Blockchain.transaction_pool self)))
  <= MAX_TRANSACTION_POOL_SIZE ->
  TransactionPool.max_size (Blockchain.transaction_pool self)
  = MAX_TRANSACTION_POOL_SIZE ->
  Blockchain.from_dict (Blockchain.to_dict self) w = (Ok self, w).
Proof.
  intros Hmine Hblocks Hsound Hrt Hroom Hmax.
  assert (Hinit : Blockchain.init (Blockchain.difficulty self) w
                  = (Ok (Blockchain.mk (Blockchain.difficulty self) MINING_REWARD
                           (TransactionPool.init MAX_TRANSACTION_POOL_SIZE) [g]), w))
    by (rewrite Blockchain_init_eq, Hmine; reflexivity).
  unfold Blockchain.from_dict.
  cbn [Blockchain.to_dict Blockchain.k_chain Blockchain.k_difficulty
       Blockchain.k_mining_reward Blockchain.k_transaction_pool].
  rewrite (bind_run _ _ _ _ _ Hinit). cbv zeta.
  rewrite (bind_run _ _ _ _ _ (blocks_from_round_trip _ w Hblocks)).
  rewrite (pool_round_trip _ w Hsound Hrt Hroom), <- Hmax, TransactionPool_eta.
  unfold Blockchain.set_transaction_pool, Blockchain.set_mining_reward,
    Blockchain.set_chain.
  cbn [Blockchain.difficulty Blockchain.mining_reward Blockchain.transaction_pool
       Blockchain.chain app].
  rewrite Blockchain_eta. reflexivity.
Qed.

(** X21.  What [Blockchain.from_dict] builds.  The chain is exactly the
    blocks of ['chain'], deserialised and not validated; the genesis
    block the constructor mined is dropped.  So without the key, or with
    an empty list, the node has no block at all: [get_latest_block]
    raises [IndexError] on it and [add_block_from_dict] accepts nothing.
    The pool it holds is sound in every case. *)
Theorem Blockchain_from_dict_chain {C : Config} (data : Blockchain.dict)
    (w w' : World) (node : Blockchain.t) :
  Blockchain.from_dict data w = (Ok node, w') ->
  fst (Blockchain.blocks_from
         (match Blockchain.k_chain data with Some l => l | None => [] end) w)
  = Ok (Blockchain.chain node)
  /\ Blockchain.difficulty node
     = match Blockchain.k_difficulty data with
       | Some d => d
       | None => INITIAL_DIFFICULTY
       end
  /\ sound_pool (Blockchain.transaction_pool node)
  /\ (Blockchain.k_chain data = None \/ Blockchain.k_chain data = Some [] ->
      Blockchain.chain node = []
      /\ Blockchain.get_latest_block node
         = Raise (IndexError "list index out of range")
      /\ forall block_data w2,
           fst (Blockchain.add_block_from_dict node block_data w2) = (false, node)).
Proof.
  unfold Blockchain.from_dict. intros H.
  apply bind_Ok in H. destruct H as (built_node & w1 & Hinit & H). cbv zeta in H.
  rewrite Blockchain_init_eq in Hinit.
  destruct (Block.mine_block genesis_template _) as [g|e]; [|discriminate Hinit].
  injection Hinit as <- <-.
  apply bind_Ok in H. destruct H as (blocks & w2 & Hblocks & H).
  assert (Hnode : Blockchain.chain node = blocks
                  /\ Blockchain.difficulty node
                     = match Blockchain.k_difficulty data with
                       | Some d => d
                       | None => INITIAL_DIFFICULTY
                       end
                  /\ sound_pool (Blockchain.transaction_pool node)).
  { destruct (pool_stays_sound_init_from_dict C) as (Hnew & Hfrom).
    destruct (Blockchain.k_transaction_pool data) as [pool_data|].
    - pose proof (Hfrom pool_data w2) as Hpool.
      destruct (TransactionPool.from_dict pool_data w2) as [pool w3].
      injection H as <- _.
      destruct (Blockchain.k_mining_reward data);
        (split; [reflexivity|split; [reflexivity|exact Hpool]]).
    - apply ret_Ok in H. destruct H as (-> & _).
      destruct (Blockchain.k_mining_reward data);
        (split; [reflexivity|split; [reflexivity|exact Hnew]]). }
  destruct Hnode as (Hchain & Hd & Hpool).
  split; [rewrite Hblocks, Hchain; reflexivity|].
  split; [exact Hd|]. split; [exact Hpool|].
  intros Hnone.
  assert (Hempty : Blockchain.chain node = []).
  { rewrite Hchain. destruct Hnone as [Hk|Hk]; rewrite Hk in Hblocks;
      cbn in Hblocks; now injection Hblocks as <- _. }
  split; [exact Hempty|]. split.
  - unfold Blockchain.get_latest_block. rewrite Hempty. reflexivity.
  - intros block_data w3. unfold Blockchain.add_block_from_dict.
    destruct (Block.from_dict block_data w3) as [[block|e] w4]; [|reflexivity].
    destruct (Blockchain.add_block node block) as [[[|] node']|e] eqn:Hadd;
      [|apply add_block_false in Hadd; now subst|reflexivity].
    apply add_block_true in Hadd.
    destruct Hadd as (_ & _ & _ & (tip & Htip & _) & _).
    unfold Blockchain.get_latest_block in Htip. rewrite Hempty in Htip.
    discriminate Htip.
Qed.

End Balances.

(* ================================================================== *)
(** * The peer: broadcasts and request handlers *)
(* ================================================================== *)

(** The entries of the routing table a broadcast contacts. *)
Definition others (self : DHTNode.t) (items : list (string * DHTNode.address))
  : list (string * DHTNode.address) :=
  filter (fun entry => negb (fst entry =? DHTNode.id self)%string) items.

Section BroadcastFacts.
Context {N : DHTNode.Network}.

Lemma broadcast_loop_count (message : json) (self : DHTNode.t)
    (items : list (string * DHTNode.address)) :
  forall (success_count : Z) (n : DHTNode.net),
    success_count
    <= fst (fst (DHTNode.broadcast_loop self message items success_count n))
    <= success_count + Z.of_nat (List.length (others self items)).
Proof.
  induction items as [|[node_id addr] items IH]; intros success_count n;
    cbn [DHTNode.broadcast_loop others filter fst]; [cbn; lia|].
  fold (others self items).
  destruct (negb (node_id =? DHTNode.id self)%string).
  - destruct (_send_message_with_response_returns addr message n)
      as (response & n' & ->).
    destruct (DHTNode.acknowledged response).
    + specialize (IH (success_count + 1) n'). cbn [List.length]. lia.
    + specialize (IH success_count n'). cbn [List.length]. lia.
  - apply IH.
Qed.

Lemma broadcast_loop_alone (message : json) (self : DHTNode.t)
    (items : list (string * DHTNode.address)) :
  others self items = [] ->
  forall (success_count : Z) (n : DHTNode.net),
    DHTNode.broadcast_loop self message items success_count n
    = (success_count, self, n).
Proof.
  induction items as [|[node_id addr] items IH]; intros Hnone success_count n;
    cbn [DHTNode.broadcast_loop]; [reflexivity|].
  unfold others in Hnone. cbn [filter fst] in Hnone.
  destruct (negb (node_id =? DHTNode.id self)%string); [discriminate Hnone|].
  now apply IH.
Qed.

(** X22.  What a broadcast reaches.  [broadcast_transaction] and
    [broadcast_block] leave the node, routing table included, as it was,
    whatever the peers answer; the count they return lies between 0 and
    the number of entries of the routing table other than the node's own;
    and when there is no such entry they return 0 without any exchange on
    the network. *)
Theorem broadcast_count (self : DHTNode.t) (n : DHTNode.net) :
  let peers := others self (DHTNode.routing_table self) in
  (forall transaction,
      snd (fst (DHTNode.broadcast_transaction self transaction n)) = self
      /\ 0 <= fst (fst (DHTNode.broadcast_transaction self transaction n))
         <= Z.of_nat (List.length peers))
  /\ (forall block,
         snd (fst (DHTNode.broadcast_block self block n)) = self
         /\ 0 <= fst (fst (DHTNode.broadcast_block self block n))
            <= Z.of_nat (List.length peers))
  /\ (peers = [] ->
      (forall transaction,
          DHTNode.broadcast_transaction self transaction n = (0, self, n))
      /\ (forall block, DHTNode.broadcast_block self block n = (0, self, n))).
Proof.
  intros peers. split; [|split].
  - intros transaction. unfold DHTNode.broadcast_transaction.
    split; [apply broadcast_loop_keeps_node|].
    apply (broadcast_loop_count _ self (DHTNode.routing_table self) 0 n).
  - intros block. unfold DHTNode.broadcast_block.
    split; [apply broadcast_loop_keeps_node|].
    apply (broadcast_loop_count _ self (DHTNode.routing_table self) 0 n).
  - intros Hnone. split; intros x;
      [unfold DHTNode.broadcast_transaction|unfold DHTNode.broadcast_block];
      now apply broadcast_loop_alone.
Qed.

End BroadcastFacts.

(** ** The routing table *)

Lemma table_get_set (node_id : string) (addr : DHTNode.address)
    (table : list (string * DHTNode.address)) :
  DHTNode.table_get node_id (DHTNode.table_set node_id addr table) = Some addr.
Proof.
  induction table as [|[k v] table IH]; cbn [DHTNode.table_set DHTNode.table_get].
  - now rewrite String.eqb_refl.
  - destruct (k =? node_id)%string eqn:Hk; cbn [DHTNode.table_get]; now rewrite Hk.
Qed.

Lemma table_get_set_other (node_id other : string) (addr : DHTNode.address)
    (table : list (string * DHTNode.address)) :
  other <> node_id ->
  DHTNode.table_get other (DHTNode.table_set node_id addr table)
  = DHTNode.table_get other table.
Proof.
  intros Hother.
  induction table as [|[k v] table IH]; cbn [DHTNode.table_set DHTNode.table_get].
  - apply not_eq_sym in Hother. apply String.eqb_neq in Hother. now rewrite Hother.
  - destruct (k =? node_id)%string eqn:Hk; cbn [DHTNode.table_get].
    + apply String.eqb_eq in Hk. subst k.
      apply not_eq_sym in Hother. apply String.eqb_neq in Hother.
      now rewrite Hother.
    + now rewrite IH.
Qed.

Lemma table_set_keys (node_id : string) (addr : DHTNode.address)
    (table : list (string * DHTNode.address)) :
  forall k, In k (map fst (DHTNode.table_set node_id addr table))
            <-> k = node_id \/ In k (map fst table).
Proof.
  induction table as [|[k0 v] table IH]; intros k;
    cbn [DHTNode.table_set map fst In].
  - intuition congruence.
  - destruct (k0 =? node_id)%string eqn:Hk; cbn [map fst In].
    + apply String.eqb_eq in Hk. subst k0. intuition congruence.
    + rewrite IH. tauto.
Qed.

Lemma table_set_NoDup (node_id : string) (addr : DHTNode.address)
    (table : list (string * DHTNode.address)) :
  NoDup (map fst table) -> NoDup (map fst (DHTNode.table_set node_id addr table)).
Proof.
  induction table as [|[k v] table IH]; cbn [DHTNode.table_set map fst]; intros H.
  - repeat constructor. intros [].
  - destruct (k =? node_id)%string eqn:Hk; cbn [map fst]; [exact H|].
    inversion H as [|? ? Hnotin Hrest]; subst. constructor; [|now apply IH].
    rewrite table_set_keys. intros [->|Hin]; [|contradiction].
    rewrite String.eqb_refl in Hk. discriminate Hk.
Qed.

(** X23.  Joining.  A [join] request with a non-empty node id and host
    and a nonzero port is answered [join_ack], and afterwards the routing
    table maps the node id to that host and port; every other node id is
    mapped as before, and a table without a repeated key stays so.  Any
    other [join] request is answered with an error and changes nothing.
    The chain attached to the node is never changed by a [join]. *)
Theorem handle_join_registers (self : DHTNode.peer) (message : DHTNode.message) :
  let response := fst (DHTNode._handle_join self message) in
  let self' := snd (DHTNode._handle_join self message) in
  let table := DHTNode.routing_table (DHTNode.node self) in
  let table' := DHTNode.routing_table (DHTNode.node self') in
  DHTNode.blockchain self' = DHTNode.blockchain self
  /\ (forall node_id host port,
         DHTNode.m_node_id message = Some node_id ->
         DHTNode.m_host message = Some host ->
         DHTNode.m_port message = Some port ->
         node_id <> "" -> host <> "" -> port <> 0 ->
         (exists rest, response = JDict (("type", JStr "join_ack") :: rest))
         /\ DHTNode.table_get node_id table' = Some (host, port)
         /\ (forall other, other <> node_id ->
                           DHTNode.table_get other table'
                           = DHTNode.table_get other table)
         /\ (NoDup (map fst table) -> NoDup (map fst table')))
  /\ (truthy_opt truthy_str (DHTNode.m_node_id message) = false
      \/ truthy_opt truthy_str (DHTNode.m_host message) = false
      \/ truthy_opt (fun port => negb (port =? 0)) (DHTNode.m_port message) = false ->
      self' = self
      /\ response = JDict [("type", JStr "error");
                           ("error", JStr "Invalid join request")]).
Proof.
  cbv zeta. unfold DHTNode._handle_join.
  split; [|split].
  - destruct (DHTNode.m_node_id message) as [node_id|]; [|reflexivity].
    destruct (DHTNode.m_host message) as [host|]; [|reflexivity].
    destruct (DHTNode.m_port message) as [port|]; [|reflexivity].
    destruct (truthy_str node_id && truthy_str host && negb (port =? 0));
      [|reflexivity].
    cbn [DHTNode.blockchain]. destruct (DHTNode.blockchain self); reflexivity.
  - intros node_id host port -> -> -> Hid Hhost Hport.
    apply truthy_str_true in Hid, Hhost. apply Z.eqb_neq in Hport.
    rewrite Hid, Hhost, Hport. cbn [andb negb DHTNode.blockchain].
    assert (Htable :
              DHTNode.table_get node_id
                (DHTNode.table_set node_id (host, port)
                   (DHTNode.routing_table (DHTNode.node self))) = Some (host, port)
              /\ (forall other, other <> node_id ->
                    DHTNode.table_get other
                      (DHTNode.table_set node_id (host, port)
                         (DHTNode.routing_table (DHTNode.node self)))
                    = DHTNode.table_get other
                        (DHTNode.routing_table (DHTNode.node self)))
              /\ (NoDup (map fst (DHTNode.routing_table (DHTNode.node self))) ->
                  NoDup (map fst (DHTNode.table_set node_id (host, port)
                                    (DHTNode.routing_table (DHTNode.node self)))))).
    { split; [apply table_get_set|]. split; [|apply table_set_NoDup].
      intros other Hother. now apply table_get_set_other. }
    destruct (DHTNode.blockchain self);
      cbn [fst snd DHTNode.node DHTNode.routing_table DHTNode.set_routing_table];
      (split; [eexists; reflexivity|exact Htable]).
  - intros Hfalsy.
    destruct (DHTNode.m_node_id message) as [node_id|]; [|split; reflexivity].
    destruct (DHTNode.m_host message) as [host|]; [|split; reflexivity].
    destruct (DHTNode.m_port message) as [port|]; [|split; reflexivity].
    cbn [truthy_opt] in Hfalsy.
    assert (Hcond : (truthy_str node_id && truthy_str host && negb (port =? 0))
                    = false).
    { destruct Hfalsy as [H|[H|H]]; rewrite H;
        [reflexivity|apply andb_false_intro1, andb_false_r|apply andb_false_r]. }
    rewrite Hcond. split; reflexivity.
Qed.

Section HandlerFacts.
Context {L : Library}.

Lemma _handle_new_block_cases (self : DHTNode.peer) (message : DHTNode.message)
    (w : World) :
  DHTNode._handle_new_block self message w = (self, w)
  \/ exists chain block_data,
       DHTNode.blockchain self = Some chain
       /\ DHTNode.m_block message = Some block_data
       /\ DHTNode._handle_new_block self message w
          = (DHTNode.mkpeer (DHTNode.node self)
               (Some (snd (fst (Blockchain.add_block_from_dict chain block_data w)))),
             snd (Blockchain.add_block_from_dict chain block_data w)).
Proof.
  unfold DHTNode._handle_new_block.
  destruct (DHTNode.blockchain self) as [chain|] eqn:Hchain; [|now left].
  destruct (DHTNode.m_block message) as [block_data|]; [|now left].
  destruct (DHTNode.truthy_block block_data); [|now left].
  right. exists chain, block_data. split; [reflexivity|]. split; [reflexivity|].
  destruct (Blockchain.add_block_from_dict chain block_data w) as [[r chain'] w'].
  reflexivity.
Qed.

(** X24.  What a request can change, for a request whose entries have
    the types the handlers expect (strings, an integer port, a block
    dictionary of typed entries) on a node whose chain and pool hold
    values of the annotated types.  [_handle_message] answers with a
    dictionary that has a ['type'].  Only a [join] changes the node and
    its routing table; only a [new_block] changes the attached chain or
    reads the clock, and then the chain is either as it was or the one
    [add_block] leaves after accepting the block of the message; the
    answer to a [new_block] is [ack] whether or not the block was
    accepted.  A [new_transaction] is answered [ack] and changes nothing:
    the pool never takes a transaction from a peer.  A [get_chain] is
    answered [chain_response] with the dictionary of the attached chain,
    or an error when none is attached, and changes nothing.  A request
    of a type other than these four, or without a type, is answered with
    the error "Unknown message type" and changes nothing. *)
Theorem handle_message_effects (self : DHTNode.peer) (message : DHTNode.message)
    (w : World) :
  let response := fst (fst (DHTNode._handle_message self message w)) in
  let self' := snd (fst (DHTNode._handle_message self message w)) in
  let w' := snd (DHTNode._handle_message self message w) in
  let ack := JDict [("type", JStr "ack")] in
  (exists kvs ty, response = JDict kvs /\ DHTNode.dict_get "type" kvs = Some (JStr ty))
  /\ (DHTNode.m_type message <> Some "join" -> DHTNode.node self' = DHTNode.node self)
  /\ (DHTNode.m_type message <> Some "new_block" ->
      DHTNode.blockchain self' = DHTNode.blockchain self /\ w' = w)
  /\ (DHTNode.m_type message = Some "new_block" ->
      response = ack
      /\ (self' = self
          \/ exists chain block_data block chain',
               DHTNode.blockchain self = Some chain
               /\ DHTNode.m_block message = Some block_data
               /\ fst (Block.from_dict block_data w) = Ok block
               /\ Blockchain.add_block chain block = Ok (true, chain')
               /\ DHTNode.blockchain self' = Some chain'))
  /\ (DHTNode.m_type message = Some "new_transaction" ->
      response = ack /\ self' = self /\ w' = w)
  /\ (DHTNode.m_type message = Some "get_chain" ->
      self' = self /\ w' = w
      /\ response
         = match DHTNode.blockchain self with
           | Some chain =>
               JDict [("type", JStr "chain_response");
                      ("chain", DHTNode.blockchain_json (Blockchain.to_dict chain))]
           | None =>
               JDict [("type", JStr "error");
                      ("error", JStr "No blockchain available")]
           end)
  /\ (~ In (DHTNode.m_type message)
           [Some "join"; Some "get_chain"; Some "new_block"; Some "new_transaction"] ->
      response = JDict [("type", JStr "error");
                        ("error", JStr "Unknown message type")]
      /\ self' = self /\ w' = w).
Proof.
  cbv zeta.
  assert (Htype : forall name,
             DHTNode.type_is message name = true
             <-> DHTNode.m_type message = Some name).
  { intros name. unfold DHTNode.type_is.
    destruct (DHTNode.m_type message) as [t|]; [|split; discriminate].
    rewrite String.eqb_eq. split; [now intros ->|intros H; now injection H]. }
  assert (Hjoin : DHTNode.blockchain (snd (DHTNode._handle_join self message))
                  = DHTNode.blockchain self
                  /\ exists kvs ty,
                       fst (DHTNode._handle_join self message) = JDict kvs
                       /\ DHTNode.dict_get "type" kvs = Some (JStr ty)).
  { unfold DHTNode._handle_join.
    destruct (DHTNode.m_node_id message) as [node_id|];
      [|split; [reflexivity|eexists; eexists; split; reflexivity]].
    destruct (DHTNode.m_host message) as [host|];
      [|split; [reflexivity|eexists; eexists; split; reflexivity]].
    destruct (DHTNode.m_port message) as [port|];
      [|split; [reflexivity|eexists; eexists; split; reflexivity]].
    destruct (truthy_str node_id && truthy_str host && negb (port =? 0));
      [|split; [reflexivity|eexists; eexists; split; reflexivity]].
    cbn [DHTNode.blockchain].
    destruct (DHTNode.blockchain self);
      (split; [reflexivity|eexists; eexists; split; reflexivity]). }
  unfold DHTNode._handle_message.
  destruct (DHTNode.type_is message "join") eqn:H1.
  { apply Htype in H1. destruct Hjoin as (Hchain & Hresponse).
    destruct (DHTNode._handle_join self message) as [response self'].
    cbn [fst snd] in *. rewrite H1.
    split; [exact Hresponse|]. split; [congruence|].
    split; [intros _; split; [exact Hchain|reflexivity]|].
    split; [discriminate|]. split; [discriminate|]. split; [discriminate|].
    intros Hn. elim Hn. now left. }
  destruct (DHTNode.type_is message "get_chain") eqn:H2.
  { apply Htype in H2. cbn [fst snd]. rewrite H2.
    split; [unfold DHTNode._handle_get_chain;
            destruct (DHTNode.blockchain self);
            eexists; eexists; split; reflexivity|].
    split; [reflexivity|]. split; [split; reflexivity|].
    split; [discriminate|]. split; [discriminate|].
    split; [intros _; repeat split|].
    intros Hn. elim Hn. right. now left. }
  destruct (DHTNode.type_is message "new_block") eqn:H3.
  { apply Htype in H3. rewrite H3.
    assert (Hblock :
              DHTNode.node (fst (DHTNode._handle_new_block self message w))
              = DHTNode.node self
              /\ (fst (DHTNode._handle_new_block self message w) = self
                  \/ exists chain block_data block chain',
                       DHTNode.blockchain self = Some chain
                       /\ DHTNode.m_block message = Some block_data
                       /\ fst (Block.from_dict block_data w) = Ok block
                       /\ Blockchain.add_block chain block = Ok (true, chain')
                       /\ DHTNode.blockchain
                            (fst (DHTNode._handle_new_block self message w))
                          = Some chain')).
    { destruct (_handle_new_block_cases self message w)
        as [->|(chain & block_data & Hchain & Hdata & ->)];
        [split; [reflexivity|now left]|].
      cbn [fst DHTNode.node DHTNode.blockchain]. split; [reflexivity|].
      unfold Blockchain.add_block_from_dict.
      destruct (Block.from_dict block_data w) as [[block|e] w1] eqn:Hfrom.
      2:{ left. cbn [fst snd]. rewrite <- Hchain. now destruct self. }
      destruct (Blockchain.add_block chain block) as [[[|] chain']|e] eqn:Hadd;
        cbn [fst snd].
      - right. exists chain, block_data, block, chain'.
        split; [exact Hchain|]. split; [exact Hdata|].
        split; [rewrite Hfrom; reflexivity|]. split; [exact Hadd|reflexivity].
      - left. apply add_block_false in Hadd. subst chain'.
        rewrite <- Hchain. now destruct self.
      - left. rewrite <- Hchain. now destruct self. }
    destruct (DHTNode._handle_new_block self message w) as [self' w'].
    cbn [fst snd] in *. destruct Hblock as (Hnode & Hchain).
    split; [eexists; eexists; split; reflexivity|].
    split; [intros _; exact Hnode|]. split; [intros Hn; now elim Hn|].
    split; [intros _; split; [reflexivity|exact Hchain]|].
    split; [discriminate|]. split; [discriminate|].
    intros Hn. elim Hn. right; right. now left. }
  destruct (DHTNode.type_is message "new_transaction") eqn:H4.
  { apply Htype in H4. rewrite H4. cbn [fst snd].
    assert (Hsame : DHTNode._handle_new_transaction self message = self).
    { unfold DHTNode._handle_new_transaction.
      destruct (DHTNode.blockchain self); [|reflexivity].
      destruct (DHTNode.m_transaction message); reflexivity. }
    rewrite Hsame.
    split; [eexists; eexists; split; reflexivity|].
    split; [reflexivity|]. split; [split; reflexivity|].
    split; [discriminate|]. split; [intros _; repeat split|].
    split; [discriminate|].
    intros Hn. elim Hn. right; right; right. now left. }
  cbn [fst snd].
  split; [eexists; eexists; split; reflexivity|].
  split; [reflexivity|]. split; [split; reflexivity|].
  split; [intros H; apply Htype in H; congruence|].
  split; [intros H; apply Htype in H; congruence|].
  split; [intros H; apply Htype in H; congruence|].
  intros _. repeat split.
Qed.

End HandlerFacts.

(* ================================================================== *)
(** * Runs on the sample environment *)
(* ================================================================== *)

(** The node [Blockchain(difficulty=1)] builds. *)
Definition node0 : Blockchain.t :=
  Eval lazy in
    match fst (Blockchain.init (L := Sample.lib) (C := Sample.config) 1 Sample.world)
    with
    | Ok node => node
    | Raise _ => Blockchain.mk 1 0%float (TransactionPool.init 0) []
    end.

Lemma node0_constructed :
  fst (Blockchain.init (L := Sample.lib) (C := Sample.config) 1 Sample.world)
  = Ok node0.
Proof. lazy. reflexivity. Qed.

(** A transaction from the sender "system", pooled directly: it carries
    no signature and [verify] accepts it. *)
Definition unsigned_tx : Transaction.t :=
  Transaction.mk "system" "bob" 5%float 1700000000%float None.

Definition node1 : Blockchain.t :=
  Eval lazy in
    snd (fst (Blockchain.add_transaction (L := Sample.lib) node0 (inr unsigned_tx)
                                         Sample.world)).

Lemma node1_pooled :
  fst (Blockchain.add_transaction (L := Sample.lib) node0 (inr unsigned_tx)
                                  Sample.world)
  = (true, node1).
Proof. lazy. reflexivity. Qed.

Definition genesis : Block.t :=
  Eval lazy in match Blockchain.chain node0 with
               | g :: _ => g
               | [] => genesis_template (L := Sample.lib)
               end.

(** The block [node1.mine_pending_transactions("miner")] mines. *)
Definition block1 : Block.t :=
  Eval lazy in
    match fst (Blockchain.mine_pending_transactions (L := Sample.lib) node1 "miner"
                                                     Sample.world) with
    | Ok (Some b, _) => b
    | _ => genesis
    end.

Definition node2 : Blockchain.t :=
  Eval lazy in
    match fst (Blockchain.mine_pending_transactions (L := Sample.lib) node1 "miner"
                                                     Sample.world) with
    | Ok (_, node) => node
    | _ => node1
    end.

Lemma node2_mined :
  fst (Blockchain.mine_pending_transactions (L := Sample.lib) node1 "miner"
                                            Sample.world)
  = Ok (Some block1, node2).
Proof. lazy. reflexivity. Qed.

Example genesis_is_mined_template :
  Block.mine_block (L := Sample.lib) (genesis_template (L := Sample.lib)) 1
  = Ok genesis
  /\ Block.nonce genesis = 4.
Proof. split; lazy; reflexivity. Qed.

(** ** C2: a block accepted by [add_block] *)

(** [block1] is appended to the chain of [node0], whose tip is [genesis]. *)
Lemma add_block_spec_witness :
  Blockchain.get_latest_block node0 = Ok genesis
  /\ exists self',
       Blockchain.add_block (L := Sample.lib) node0 block1 = Ok (true, self')
       /\ Blockchain.chain self' = (Blockchain.chain node0 ++ [block1])%list
       /\ Blockchain.get_latest_block self' = Ok block1.
Proof.
  split; [reflexivity|].
  destruct (@add_block_spec Sample.lib node0 block1 genesis eq_refl) as [_ Haccepted].
  apply Haccepted.
  intros [(existing & [<-|[]] & Hhash) | [Hindex | [Hprevious | Hvalid]]].
  - vm_compute in Hhash. discriminate Hhash.
  - apply Hindex. reflexivity.
  - apply Hprevious. reflexivity.
  - vm_compute in Hvalid. discriminate Hvalid.
Defined.

Example add_block_rejects_replay :
  Blockchain.add_block (L := Sample.lib) node2 block1 = Ok (false, node2).
Proof. vm_compute. reflexivity. Qed.

(** ** C5: the pool after a successful mining call *)

Lemma mine_pending_transactions_pool_witness :
  Blockchain.mine_pending_transactions (L := Sample.lib) node1 "miner" Sample.world
  = (Ok (Some block1, node2), mkWorld (clock Sample.world) 2)
  /\ TransactionPool.transactions (Blockchain.transaction_pool node2) = [].
Proof.
  assert (Hrun :
            Blockchain.mine_pending_transactions (L := Sample.lib) node1 "miner"
                                                 Sample.world
            = (Ok (Some block1, node2), mkWorld (clock Sample.world) 2))
    by (lazy; reflexivity).
  split; [exact Hrun|].
  exact (proj1 (@mine_pending_transactions_pool Sample.lib _ _ _ _ _ _ Hrun)).
Defined.

(** C5, counterexample.  [unsigned_tx] is in the pool of [node1] and has
    no signature, so it matches the signature of no transaction of the
    mined block and the pruning by signature keeps it; yet after the
    successful [mine_pending_transactions] it is not in the pool. *)
Lemma mining_removes_unsigned_pool_entry :
  fst (Blockchain.mine_pending_transactions (L := Sample.lib) node1 "miner"
                                            Sample.world)
  = Ok (Some block1, node2)
  /\ In unsigned_tx (TransactionPool.transactions (Blockchain.transaction_pool node1))
  /\ Transaction.signature unsigned_tx = None
  /\ TransactionPool.kept (TransactionPool.signatures_of (Block.transactions block1))
                          unsigned_tx = true
  /\ ~ In unsigned_tx (TransactionPool.transactions (Blockchain.transaction_pool node2)).
Proof.
  split; [exact node2_mined|].
  split; [left; reflexivity|].
  split; [reflexivity|].
  split; [reflexivity|].
  intros [].
Qed.

(** ** C6: duplicates in the pool *)

Definition signed_aa : Transaction.t :=
  Transaction.mk "system" "bob" 5%float 1700000000%float (Some "aa").

Definition signed_bb : Transaction.t :=
  Transaction.mk "system" "bob" 5%float 1700000000%float (Some "bb").

(** C6, counterexample.  [signed_aa] and [signed_bb] have the same sender,
    recipient, amount and timestamp and different signatures, so different
    dictionaries under [get_hash] (and different identity hashes on the
    sample library); with [signed_aa] in the pool, [add_transaction]
    rejects [signed_bb] as a duplicate. *)
Lemma duplicate_with_another_signature :
  Transaction.signature signed_aa <> Transaction.signature signed_bb
  /\ Transaction.to_dict signed_aa <> Transaction.to_dict signed_bb
  /\ Transaction.get_hash (L := Sample.lib) signed_aa
     <> Transaction.get_hash (L := Sample.lib) signed_bb
  /\ TransactionPool.add_transaction_log (L := Sample.lib)
       (TransactionPool.mk [] 1000) (inr signed_aa) Sample.world
     = (TransactionPool.Added, TransactionPool.mk [signed_aa] 1000, Sample.world)
  /\ TransactionPool.add_transaction_log (L := Sample.lib)
       (TransactionPool.mk [signed_aa] 1000) (inr signed_bb) Sample.world
     = (TransactionPool.DuplicateRejected, TransactionPool.mk [signed_aa] 1000,
        Sample.world).
Proof.
  split; [discriminate|].
  split; [discriminate|].
  split; [vm_compute; discriminate|].
  split; reflexivity.
Qed.

Lemma add_transaction_duplicate_rule_witness :
  fst (fst (TransactionPool.add_transaction (L := Sample.lib)
              (TransactionPool.mk [signed_aa] 1000) (inr signed_bb) Sample.world))
  = false
  /\ snd (fst (TransactionPool.add_transaction (L := Sample.lib)
                 (TransactionPool.mk [signed_aa] 1000) (inr signed_bb) Sample.world))
     = TransactionPool.mk [signed_aa] 1000.
Proof.
  exact (proj2 (@add_transaction_duplicate_rule Sample.lib
                  (TransactionPool.mk [signed_aa] 1000) (inr signed_bb) Sample.world)
               eq_refl).
Defined.

(** ** C7: the previous hash of a block *)

Definition is_hex_char (c : ascii) : bool :=
  let n := nat_of_ascii c in
  ((48 <=? n) && (n <=? 57) || (97 <=? n) && (n <=? 102)
   || (65 <=? n) && (n <=? 70))%nat.

(** A string of exactly 64 hexadecimal characters. *)
Definition is_hex64 (s : string) : bool :=
  (len s =? 64) && forallb is_hex_char (list_ascii_of_string s).

Definition sixty_four_z : string :=
  "zzzzzzzzzzzzzzzzzzzzzzzzzzzzzzzzzzzzzzzzzzzzzzzzzzzzzzzzzzzzzzzz".

(** C7, counterexample.  A previous hash of 64 letters z is not a string
    of 64 hexadecimal characters, and [Block.__init__] returns a block
    with it instead of raising. *)
Lemma Block_init_accepts_non_hex :
  is_hex64 sixty_four_z = false
  /\ fst (Block.init (L := Sample.lib) 1 [] sixty_four_z (Some 1700000000%float) 0
                     (Some "ab") Sample.world)
     = Ok (Block.mk 1 [] sixty_four_z 1700000000%float 0 "ab").
Proof. split; reflexivity. Qed.

(** ** C10: a block read back from its dictionary *)

Lemma Block_from_dict_to_dict_witness :
  Block.from_dict (L := Sample.lib) (Block.to_dict block1) Sample.world
  = (Ok block1, Sample.world).
Proof.
  apply (proj1 (@Block_from_dict_to_dict Sample.lib)).
  - discriminate.
  - reflexivity.
  - discriminate.
  - reflexivity.
  - intros tx [<-|[<-|[]]];
      (split; [reflexivity|]; split; [discriminate|];
       eexists _, Sample.world, _; reflexivity).
Defined.

Definition empty_signature_tx : Transaction.t :=
  Transaction.mk "alice" "bob" 5%float 1700000000%float (Some "").

Definition no_signature_tx : Transaction.t :=
  Transaction.mk "alice" "bob" 5%float 1700000000%float None.

Definition empty_signature_block : Block.t :=
  Block.mk 1 [empty_signature_tx] (Block.hash genesis) 1700000001%float 0 "ab".

(** C10, counterexample.  The block and its transaction have nonzero
    timestamps and the transaction deserialises, but its signature is the
    empty string: [to_dict] leaves the signature out and the block read
    back carries a transaction without signature, which [__eq__] tells
    from the original. *)
Lemma from_dict_drops_empty_signature :
  truthy_float (Block.timestamp empty_signature_block) = true
  /\ truthy_float (Transaction.timestamp empty_signature_tx) = true
  /\ fst (Transaction.from_dict (Transaction.to_dict empty_signature_tx) Sample.world)
     = Ok no_signature_tx
  /\ fst (Block.from_dict (L := Sample.lib) (Block.to_dict empty_signature_block)
                          Sample.world)
     = Ok (Block.mk 1 [no_signature_tx] (Block.hash genesis) 1700000001%float 0 "ab")
  /\ Transaction.eqb empty_signature_tx no_signature_tx = false
  /\ Block.mk 1 [no_signature_tx] (Block.hash genesis) 1700000001%float 0 "ab"
     <> empty_signature_block.
Proof.
  repeat split; try reflexivity. discriminate.
Qed.

(** ** C1 and C9: adopting a longer chain *)

(** The chain of [node2], as the dictionaries a peer sends. *)
Definition candidate : list Block.dict := map Block.to_dict (Blockchain.chain node2).

Lemma replace_chain_adopts_candidate :
  Blockchain.replace_chain (L := Sample.lib) node0 candidate Sample.world
  = (Ok (true, Blockchain.set_chain node0 (Blockchain.chain node2)), Sample.world).
Proof. vm_compute. reflexivity. Qed.

Lemma replace_chain_spec_witness :
  exists new_blocks,
    fst (Blockchain.blocks_from (L := Sample.lib) candidate Sample.world) = Ok new_blocks
    /\ NoDup (map Block.hash new_blocks)
    /\ fully_valid (L := Sample.lib) (Blockchain.difficulty node0) new_blocks
    /\ (List.length (Blockchain.chain node0) < List.length new_blocks)%nat.
Proof.
  destruct (@replace_chain_spec Sample.lib node0 candidate Sample.world)
    as (ok & self' & w' & Hrun & Hiff & _).
  apply Hiff. rewrite replace_chain_adopts_candidate in Hrun.
  injection Hrun as <- _ _. reflexivity.
Defined.


(** A candidate as long as the current chain is not adopted. *)
Example replace_chain_rejects_tie :
  Blockchain.replace_chain (L := Sample.lib) node2 candidate Sample.world
  = (Ok (false, node2), Sample.world).
Proof. vm_compute. reflexivity. Qed.

(** The first block of a candidate is examined for its index and its
    previous hash only: with the nonce of [genesis] changed, its stored
    hash is no longer the recomputed one, and the candidate is adopted
    all the same. *)
Example replace_chain_first_block_shape_only :
  let first := Block.set_nonce genesis 5 in
  Block.is_valid (L := Sample.lib) first 1 = false
  /\ fst (Blockchain.replace_chain (L := Sample.lib) node0
            [Block.to_dict first; Block.to_dict block1] Sample.world)
     = Ok (true, Blockchain.set_chain node0 [first; block1]).
Proof. split; vm_compute; reflexivity. Qed.

(** A forged chain.  Its first block carries a transfer nobody signed,
    a stored hash that is neither the hash of its content nor a proof of
    work; its second block is mined on top of that stored hash. *)
Definition forged_tx : Transaction.t :=
  Transaction.mk "alice" "mallory" 1000000%float 1700000000%float None.

Definition forged_hash : string :=
  "ffffffffffffffffffffffffffffffffffffffffffffffffffffffffffffffff".

Definition forged_first : Block.t :=
  Block.mk 0 [forged_tx] (zeros 64) 1234567890%float 0 forged_hash.

Definition forged_second : Block.t :=
  Eval lazy in
    match Block.mine_block (L := Sample.lib)
            (built (L := Sample.lib) 1 [] forged_hash 1700000001%float 0 None) 1
    with
    | Ok b => b
    | Raise _ => genesis
    end.

Definition forged_chain : list Block.dict :=
  [Block.to_dict forged_first; Block.to_dict forged_second].

(** C1.  [replace_chain] adopts a chain whose first block is invalid.
    [forged_first] fails every check of [Block.is_valid]: its stored
    hash is not the hash of its content, does not start with the zero
    the difficulty asks for, and its transaction does not verify.  The
    node [node0], with one block, is given [forged_chain]: it returns
    [True] and its chain is the forged one, in which "mallory" owns a
    million. *)
Theorem replace_chain_adopts_forged_first_block :
  Block.calculate_hash (L := Sample.lib) forged_first <> Block.hash forged_first
  /\ String.prefix (zeros (Blockchain.difficulty node0)) (Block.hash forged_first)
     = false
  /\ Transaction.verify (L := Sample.lib) forged_tx = false
  /\ Block.is_valid (L := Sample.lib) forged_first (Blockchain.difficulty node0)
     = false
  /\ Blockchain.replace_chain (L := Sample.lib) node0 forged_chain Sample.world
     = (Ok (true, Blockchain.set_chain node0 [forged_first; forged_second]),
        Sample.world)
  /\ Blockchain.get_balance (Blockchain.set_chain node0 [forged_first; forged_second])
                            "mallory"
     = 1000000%float.
Proof.
  split; [vm_compute; discriminate|].
  split; [reflexivity|]. split; [reflexivity|].
  split; [vm_compute; reflexivity|].
  split; [vm_compute; reflexivity|reflexivity].
Qed.

(** ** C4: a broadcast with an unreachable peer *)

Definition unreachable_peer : string * DHTNode.address := ("peer-b", ("10.0.0.3", 5003)).

Definition three_peers : DHTNode.t :=
  DHTNode.mk "10.0.0.1" 5001 "node-a"
             [("peer-a", ("10.0.0.2", 5002));
              unreachable_peer;
              ("peer-c", ("10.0.0.4", 5004))].

(** C4.  Broadcasting a block to three peers, the second of which refuses
    the connection: the call returns 2, and the unreachable peer is still
    in the routing table, which the broadcast leaves as it was. *)
Theorem broadcast_block_keeps_unreachable_peer :
  fst (DHTNode.exchange (Network := Sample.network) tt (snd unreachable_peer)
         (JDict [("type", JStr "new_block");
                 ("block", DHTNode.block_json (Block.to_dict block1))]))
  = DHTNode.ConnectionRefused
  /\ fst (fst (DHTNode.broadcast_block (N := Sample.network) three_peers block1 tt)) = 2
  /\ In unreachable_peer
        (DHTNode.routing_table
           (snd (fst (DHTNode.broadcast_block (N := Sample.network) three_peers
                                              block1 tt))))
  /\ snd (fst (DHTNode.broadcast_block (N := Sample.network) three_peers block1 tt))
     = three_peers.
Proof.
  split; [reflexivity|]. split; [vm_compute; reflexivity|].
  split; [|apply broadcast_loop_keeps_node].
  rewrite broadcast_block_keeps_routing_table.
  right. left. reflexivity.
Qed.

(* ================================================================== *)
(** * Further runs on the sample environment *)
(* ================================================================== *)

(** A signer for the sample library, whose [rsa_verify] accepts the
    digest itself as signature. *)
Definition echo_signer : Signer := {|
  private_key := unit;
  rsa_sign := fun _ digest => inl digest
|}.

Definition payment : Transaction.t :=
  Transaction.mk "alice" "bob" 5%float 1700000000%float None.

Definition signed_payment : Transaction.t :=
  Eval vm_compute in
    match Transaction.sign (L := Sample.lib) (S := echo_signer) payment tt with
    | Ok tx => tx
    | Raise _ => payment
    end.

Lemma five_within_bounds : within_bounds 5%float.
Proof. repeat split. Qed.

Lemma sign_then_verify_witness :
  Transaction.sign (L := Sample.lib) (S := echo_signer) payment tt = Ok signed_payment
  /\ Transaction.verify (L := Sample.lib) payment = false
  /\ Transaction.verify (L := Sample.lib) signed_payment = true.
Proof.
  assert (Hsign : Transaction.sign (L := Sample.lib) (S := echo_signer) payment tt
                  = Ok signed_payment) by (vm_compute; reflexivity).
  split; [exact Hsign|]. split; [reflexivity|].
  refine (proj1 (@sign_then_verify Sample.lib echo_signer payment signed_payment tt
                   five_within_bounds _ Hsign)).
  intros sig H. injection H as <-.
  split; [vm_compute; discriminate|vm_compute; reflexivity].
Defined.

Lemma mined_block_is_valid_witness :
  Block.mine_block (L := Sample.lib) (genesis_template (L := Sample.lib)) 1 = Ok genesis
  /\ Block.is_valid (L := Sample.lib) genesis 0 = true.
Proof.
  assert (Hmine : Block.mine_block (L := Sample.lib)
                    (genesis_template (L := Sample.lib)) 1 = Ok genesis)
    by (lazy; reflexivity).
  split; [exact Hmine|].
  apply (@mined_block_is_valid Sample.lib _ genesis 1 Hmine); [intros tx []|].
  discriminate.
Defined.

Lemma validity_lower_difficulty_witness :
  Blockchain.difficulty (Blockchain.set_difficulty node0 0)
  <= Blockchain.difficulty node0
  /\ Block.is_valid (L := Sample.lib) block1
                    (Blockchain.difficulty (Blockchain.set_difficulty node0 0)) = true.
Proof.
  assert (Hd : Blockchain.difficulty (Blockchain.set_difficulty node0 0)
               <= Blockchain.difficulty node0) by discriminate.
  split; [exact Hd|].
  apply (proj1 (@validity_lower_difficulty Sample.lib node0
                  (Blockchain.set_difficulty node0 0) Hd)).
  vm_compute. reflexivity.
Defined.

Lemma unsigned_tx_round_trips : round_trips unsigned_tx.
Proof.
  split; [reflexivity|]. split; [discriminate|].
  eexists _, Sample.world, _. reflexivity.
Qed.

Lemma node1_pool_sound :
  sound_pool (L := Sample.lib) (Blockchain.transaction_pool node1).
Proof.
  split.
  - intros tx [<-|[]]. reflexivity.
  - split; [intros later []|exact I].
Qed.

Lemma TransactionPool_from_dict_to_dict_witness :
  TransactionPool.from_dict (L := Sample.lib) (C := Sample.config)
    (TransactionPool.to_dict (Blockchain.transaction_pool node1)) Sample.world
  = (Blockchain.transaction_pool node1, Sample.world).
Proof.
  refine (proj1 (@TransactionPool_from_dict_to_dict Sample.lib Sample.config
                   (Blockchain.transaction_pool node1) Sample.world
                   node1_pool_sound _ _)).
  - intros tx [<-|[]]. exact unsigned_tx_round_trips.
  - discriminate.
Defined.

Lemma node1_mines_block1 :
  Blockchain.mine_pending_transactions (L := Sample.lib) node1 "miner" Sample.world
  = (Ok (Some block1, node2), mkWorld (clock Sample.world) 2).
Proof. lazy. reflexivity. Qed.

Lemma mine_pending_transactions_block_witness :
  Blockchain.mine_pending_transactions (L := Sample.lib) node1 "miner" Sample.world
  = (Ok (Some block1, node2), mkWorld (clock Sample.world) 2)
  /\ exists tip,
       Blockchain.get_latest_block node1 = Ok tip
       /\ Block.index block1 = Blockchain.chain_len node1
       /\ Block.previous_hash block1 = Block.hash tip.
Proof.
  split; [exact node1_mines_block1|].
  destruct (@mine_pending_transactions_block Sample.lib _ _ _ _ _ _ node1_mines_block1)
    as (tip & Htip & Hi & Hp & _).
  exists tip. split; [exact Htip|]. split; [exact Hi|exact Hp].
Defined.

Lemma block1_is_mined_template :
  Block.mine_block (L := Sample.lib)
    (block_template (L := Sample.lib) node1 "miner" genesis Sample.world)
    (Blockchain.difficulty node1) = Ok block1.
Proof. lazy. reflexivity. Qed.

Lemma mine_pending_transactions_succeeds_witness :
  exists self' w',
    Blockchain.mine_pending_transactions (L := Sample.lib) node1 "miner" Sample.world
    = (Ok (Some block1, self'), w')
    /\ Blockchain.chain self' = (Blockchain.chain node1 ++ [block1])%list
    /\ TransactionPool.transactions (Blockchain.transaction_pool self') = [].
Proof.
  apply (@mine_pending_transactions_succeeds Sample.lib node1 "miner" genesis block1
           Sample.world).
  - reflexivity.
  - reflexivity.
  - intros _. split; [discriminate|]. split; [repeat split|discriminate].
  - intros tx [<-|[]]. reflexivity.
  - exact block1_is_mined_template.
  - intros existing [<-|[]]. vm_compute. discriminate.
Defined.

Lemma difficulty_stays_positive_witness :
  1 <= Blockchain.difficulty node1 /\ 1 <= Blockchain.difficulty node2.
Proof.
  assert (Hd : 1 <= Blockchain.difficulty node1) by discriminate.
  split; [exact Hd|].
  exact (proj1 (proj2 (proj2 (@difficulty_stays_positive Sample.lib node1 Hd)))
           "miner" Sample.world (Some block1) node2 _ node1_mines_block1).
Defined.

Lemma mining_reward_credited_witness :
  Blockchain.get_balance node1 "miner" = 0%float
  /\ Blockchain.get_balance node2 "miner" = 50%float.
Proof.
  split; [reflexivity|].
  rewrite (@mining_reward_credited Sample.lib node1 node2 "miner" block1 _ _
             node1_mines_block1).
  - reflexivity.
  - discriminate.
  - intros tx [<-|[]]. split; discriminate.
Defined.

Lemma genesis_round_trips : block_round_trips genesis.
Proof.
  split; [discriminate|]. split; [reflexivity|]. split; [discriminate|].
  split; [reflexivity|intros tx []].
Qed.

Lemma Blockchain_from_dict_to_dict_witness :
  Blockchain.from_dict (L := Sample.lib) (C := Sample.config)
                       (Blockchain.to_dict node1) Sample.world
  = (Ok node1, Sample.world).
Proof.
  apply (@Blockchain_from_dict_to_dict Sample.lib Sample.config node1 genesis).
  - lazy. reflexivity.
  - intros b [<-|[]]. exact genesis_round_trips.
  - exact node1_pool_sound.
  - intros tx [<-|[]]. exact unsigned_tx_round_trips.
  - discriminate.
  - reflexivity.
Defined.

(** A dictionary with a difficulty and nothing else, and the node
    [from_dict] makes of it: one without a block. *)
Definition bare_dict : Blockchain.dict := Blockchain.mkdict None (Some 1) None None.

Definition bare_node : Blockchain.t :=
  Blockchain.mk 1 50%float (TransactionPool.init 1000) [].

Lemma Blockchain_from_dict_chain_witness :
  Blockchain.from_dict (L := Sample.lib) (C := Sample.config) bare_dict Sample.world
  = (Ok bare_node, Sample.world)
  /\ Blockchain.chain bare_node = []
  /\ fst (Blockchain.add_block_from_dict (L := Sample.lib) bare_node
            (Block.to_dict genesis) Sample.world) = (false, bare_node).
Proof.
  assert (Hrun : Blockchain.from_dict (L := Sample.lib) (C := Sample.config)
                   bare_dict Sample.world = (Ok bare_node, Sample.world))
    by (lazy; reflexivity).
  split; [exact Hrun|].
  destruct (@Blockchain_from_dict_chain Sample.lib Sample.config _ _ _ _ Hrun)
    as (_ & _ & _ & Hbare).
  destruct (Hbare (or_introl eq_refl)) as (Hempty & _ & Hrefuses).
  split; [exact Hempty|apply Hrefuses].
Defined.

(** A peer with [node1] attached receives the block its own miner would
    broadcast, then a transaction: the block is appended, the
    transaction is acknowledged and dropped. *)
Definition peer1 : DHTNode.peer := DHTNode.mkpeer three_peers (Some node1).

Definition new_block_message : DHTNode.message :=
  DHTNode.mkmessage (Some "new_block") None None None (Some (Block.to_dict block1))
                    None.

Definition new_transaction_message : DHTNode.message :=
  DHTNode.mkmessage (Some "new_transaction") None None None None
                    (Some (Transaction.to_dict signed_payment)).

Example peer_takes_block_not_transaction :
  (let '(response, peer, _) :=
     DHTNode._handle_message (L := Sample.lib) peer1 new_block_message Sample.world in
   response = JDict [("type", JStr "ack")]
   /\ option_map Blockchain.chain (DHTNode.blockchain peer) = Some [genesis; block1])
  /\ DHTNode._handle_message (L := Sample.lib) peer1 new_transaction_message
                             Sample.world
     = (JDict [("type", JStr "ack")], peer1, Sample.world).
Proof. split; [vm_compute; split; reflexivity|vm_compute; reflexivity]. Qed.

Lemma mine_pending_transactions_raises_witness :
  Blockchain.mine_pending_transactions (L := Sample.lib) bare_node "system"
                                       Sample.world
  = (Raise (IndexError "list index out of range"), Sample.world)
  /\ Blockchain.chain bare_node = [].
Proof.
  assert (Hrun : Blockchain.mine_pending_transactions (L := Sample.lib) bare_node
                   "system" Sample.world
                 = (Raise (IndexError "list index out of range"), Sample.world))
    by (lazy; reflexivity).
  split; [exact Hrun|].
  destruct (@mine_pending_transactions_raises Sample.lib _ _ _ _ _ Hrun)
    as [(Hsys & _)|[(Hsys & _)|[(Hempty & _)|[(tip & Htip & _)|He]]]].
  - now elim Hsys.
  - now elim Hsys.
  - exact Hempty.
  - discriminate Htip.
  - discriminate He.
Defined.

(** C2, counterexample.  [bare_node] is the node [Blockchain.from_dict]
    returns for [bare_dict]; its chain is empty.  The block [genesis] has
    a hash no block of that chain has, the length of the chain as index,
    and passes [is_valid] at the difficulty of the node; there is no tip
    whose hash its previous hash could differ from.  [add_block] neither
    returns [False] nor appends the block: it raises [IndexError]. *)
Lemma add_block_raises_on_empty_chain :
  fst (Blockchain.from_dict (L := Sample.lib) (C := Sample.config) bare_dict
                            Sample.world) = Ok bare_node
  /\ Blockchain.chain bare_node = []
  /\ Block.index genesis = Blockchain.chain_len bare_node
  /\ Block.is_valid (L := Sample.lib) genesis (Blockchain.difficulty bare_node) = true
  /\ Blockchain.add_block (L := Sample.lib) bare_node genesis
     = Raise (IndexError "list index out of range")
  /\ ~ (exists r self',
           Blockchain.add_block (L := Sample.lib) bare_node genesis = Ok (r, self')).
Proof.
  assert (Hraise : Blockchain.add_block (L := Sample.lib) bare_node genesis
                   = Raise (IndexError "list index out of range"))
    by (apply add_block_without_tip; reflexivity).
  split; [lazy; reflexivity|]. split; [reflexivity|]. split; [reflexivity|].
  split; [vm_compute; reflexivity|]. split; [exact Hraise|].
  intros (r & self' & H). rewrite Hraise in H. discriminate H.
Qed.
